(** * Browser verification scripts: a shallow embedding

    The repository holds two scripts that drive a remote browser:

    - the login verifier ([testLogin] and its [main]), and
    - the stealth test ([main], [testGoogleSearch]) with its utilities
      ([createBrowser], [ensureDirectoryExists], [takeScreenshot],
      [randomWait]).

    Both are asynchronous TypeScript.  They are embedded here as functions of
    an error monad that reads the history of the run and emits the events the
    script performs (console lines, driver requests, suspensions).  Everything
    outside the scripts, the Browserbase SDK, the puppeteer driver, [fs],
    [Date] and [Math.random], is a [World]: an oracle that answers each
    request from the history so far.  The statements that run when a module
    is loaded (the check of the environment variables, the creation of the
    screenshots directory) are not part of the model. *)

From Stdlib Require Import String Ascii List Bool Arith ZArith QArith Qround Lia Lqa.
From Stdlib Require DecimalString.
Import ListNotations.

Local Close Scope Q_scope.
Local Open Scope string_scope.
Local Open Scope nat_scope.
Local Open Scope list_scope.

Infix "+++" := String.append (at level 60, right associativity).

(** ** JavaScript values the scripts look at *)

(** A thrown value: an [Error] object with its [name] and [message], or any
    other value, kept as the text [String(v)] gives. *)
Inductive JsError : Type :=
| ErrorObj (name message : string)
| Thrown (text : string).

(** [String(error)], which is what a template literal applies. For an
    [Error] this is [Error.prototype.toString]. *)
Definition String_of (e : JsError) : string :=
  match e with
  | ErrorObj n m =>
      match n, m with
      | EmptyString, _ => m
      | _, EmptyString => n
      | _, _ => n +++ ": " +++ m
      end
  | Thrown t => t
  end.

(** [error instanceof Error ? error.message : String(error)] *)
Definition message_of (e : JsError) : string :=
  match e with
  | ErrorObj _ m => m
  | Thrown t => t
  end.

Inductive result (A : Type) : Type :=
| Ok (a : A)
| Throw (e : JsError).
Arguments Ok {A} a.
Arguments Throw {A} e.

(** Truthiness of an optional string: [undefined] and [''] are falsy. *)
Definition truthy (s : option string) : bool :=
  match s with
  | Some (String _ _) => true
  | _ => false
  end.

(** Decimal rendering of a number inside a template literal. *)
Definition show_Z (z : Z) : string :=
  DecimalString.NilZero.string_of_int (Z.to_int z).

Definition show_N (n : N) : string := show_Z (Z.of_N n).

(** ** Numbers *)

(** A JavaScript number: a finite double, kept as the rational it stands
    for, an infinity, or [NaN]. The sign of zero is not kept. *)
Inductive Number : Type :=
| Finite (q : Q)
| Infinity (negative : bool)
| NaN.

(** Two to the power [e]. *)
Definition pow2 (e : Z) : Q :=
  if (e <? 0)%Z then 1 # Z.to_pos (2 ^ (- e)) else inject_Z (2 ^ e).

(** The largest [e] with [2^e <= q], for a positive [q]. *)
Definition Qlog2 (q : Q) : Z :=
  let e := (Z.log2 (Qnum q) - Z.log2 (Zpos (Qden q)))%Z in
  if Qle_bool (pow2 e) q then e else (e - 1)%Z.

(** The nearest whole number, the even one of two that are equally near. *)
Definition round_half_even (x : Q) : Z :=
  let f := Qfloor x in
  match (x - inject_Z f ?= 1 # 2)%Q with
  | Lt => f
  | Gt => (f + 1)%Z
  | Eq => if Z.even f then f else (f + 1)%Z
  end.

(** The binary64 value nearest to a positive rational, before the range is
    looked at: 53 significant bits, the smallest exponent -1022. *)
Definition nearest_positive (q : Q) : Q :=
  let e := Z.max (Qlog2 q) (-1022) in
  let ulp := pow2 (e - 52) in
  (inject_Z (round_half_even (q / ulp)) * ulp)%Q.

(** [Number.MAX_VALUE] *)
Definition MAX_VALUE : Q := inject_Z ((2 ^ 53 - 1) * 2 ^ 971).

(** The number an exact result is rounded to. *)
Definition to_number (q : Q) : Number :=
  match (q ?= 0)%Q with
  | Eq => Finite 0
  | Gt =>
      let r := nearest_positive q in
      if Qle_bool r MAX_VALUE then Finite r else Infinity false
  | Lt =>
      let r := nearest_positive (- q) in
      if Qle_bool r MAX_VALUE then Finite (- r) else Infinity true
  end.

(** [a + b] *)
Definition num_add (a b : Number) : Number :=
  match a, b with
  | NaN, _ | _, NaN => NaN
  | Infinity s, Infinity s' => if Bool.eqb s s' then Infinity s else NaN
  | Infinity s, Finite _ => Infinity s
  | Finite _, Infinity s => Infinity s
  | Finite x, Finite y => to_number (x + y)
  end.

(** [- a] *)
Definition num_neg (a : Number) : Number :=
  match a with
  | Finite x => Finite (- x)
  | Infinity s => Infinity (negb s)
  | NaN => NaN
  end.

(** [a - b] *)
Definition num_sub (a b : Number) : Number := num_add a (num_neg b).

(** [q < 0] *)
Definition is_negative (q : Q) : bool :=
  match (q ?= 0)%Q with Lt => true | _ => false end.

(** [a * b] *)
Definition num_mul (a b : Number) : Number :=
  match a, b with
  | NaN, _ | _, NaN => NaN
  | Infinity s, Infinity s' => Infinity (xorb s s')
  | Infinity s, Finite y =>
      if Qeq_bool y 0 then NaN else Infinity (xorb s (is_negative y))
  | Finite x, Infinity s =>
      if Qeq_bool x 0 then NaN else Infinity (xorb s (is_negative x))
  | Finite x, Finite y => to_number (x * y)
  end.

(** A number without a fraction, as [Math.floor] returns it. *)
Inductive Whole : Type :=
| Int (z : Z)
| Inf (negative : bool)
| NotANumber.

(** [Math.floor(a)] *)
Definition Math_floor (a : Number) : Whole :=
  match a with
  | Finite x => Int (Qfloor x)
  | Infinity s => Inf s
  | NaN => NotANumber
  end.

(** The number whose digits are printed for a whole number [z] of [n]
    digits from two to the 53 on: the nearest number with [k] digits
    followed by zeros, for the least [k] for which it still reads back as
    [z]. *)
Fixpoint shortest (fuel : nat) (k : Z) (n : Z) (z : Z) : Z :=
  match fuel with
  | O => z
  | S fuel' =>
      let unit := (10 ^ (n - k))%Z in
      let c := ((z + unit / 2) / unit * unit)%Z in
      match to_number (inject_Z c) with
      | Finite r =>
          if Qeq_bool r (inject_Z z) then c
          else shortest fuel' (k + 1)%Z n z
      | _ => shortest fuel' (k + 1)%Z n z
      end
  end.

(** Digits without the zeros at their end. *)
Fixpoint strip_zeros (digits : list ascii) : list ascii :=
  match digits with
  | [] => []
  | c :: rest =>
      match strip_zeros rest with
      | [] => if Ascii.eqb c "0" then [] else [c]
      | rest' => c :: rest'
      end
  end.

(** The text of a whole number with the digits [digits], written with an
    exponent: [d.ddde+n]. *)
Definition exponent_form (digits : string) : string :=
  let n := String.length digits in
  match strip_zeros (list_ascii_of_string digits) with
  | [] => "0"
  | [d] => String d ("e+" +++ show_Z (Z.of_nat (n - 1)))
  | d :: more =>
      String d ("." +++ string_of_list_ascii more +++ "e+"
                +++ show_Z (Z.of_nat (n - 1)))
  end.

(** The text of a whole number without sign. *)
Definition show_magnitude (z : Z) : string :=
  if (z <? 2 ^ 53)%Z then show_Z z
  else
    let n := Z.of_nat (String.length (show_Z z)) in
    let digits := show_Z (shortest 17 1 n z) in
    if String.length digits <=? 21 then digits else exponent_form digits.

(** [String(n)] for a number without a fraction, which is what a template
    literal applies. *)
Definition show_number (w : Whole) : string :=
  match w with
  | Int z => if (z <? 0)%Z then "-" +++ show_magnitude (- z) else show_magnitude z
  | Inf false => "Infinity"
  | Inf true => "-Infinity"
  | NotANumber => "NaN"
  end.

(** The longest delay a timer of Node takes, [2^31 - 1]. *)
Definition TIMEOUT_MAX : Z := 2147483647.

(** The milliseconds [setTimeout(f, w)] waits in Node: a delay that is not
    between 1 and [TIMEOUT_MAX] is set to 1. *)
Definition timer_delay (w : Whole) : N :=
  match w with
  | Int z => if (1 <=? z)%Z && (z <=? TIMEOUT_MAX)%Z then Z.to_N z else 1%N
  | _ => 1%N
  end.

(** ** Strings and paths *)

(** Texts are kept as their bytes in UTF-8. *)

(** The line feed and the double quote, for the literals that hold them. *)
Definition LF : string := String (ascii_of_nat 10) EmptyString.
Definition DQ : string := String (ascii_of_nat 34) EmptyString.

Definition lower_ascii (c : ascii) : ascii :=
  let n := nat_of_ascii c in
  if (65 <=? n) && (n <=? 90) then ascii_of_nat (n + 32) else c.


(** [s.toLowerCase()]: the letters A to Z are lowered. This is all there is
    to lower in an ASCII text; letters outside ASCII are left as they are. *)
Fixpoint toLowerCase (s : string) : string :=
  match s with
  | EmptyString => EmptyString
  | String c r => String (lower_ascii c) (toLowerCase r)
  end.

(** The segments of a path, the texts between its separators. *)
Fixpoint split_slash (s : string) : list string :=
  match s with
  | EmptyString => [EmptyString]
  | String c r =>
      if Ascii.eqb c "/" then EmptyString :: split_slash r
      else
        match split_slash r with
        | seg :: rest => String c seg :: rest
        | [] => [String c EmptyString]
        end
  end.

(** [normalizeString] of Node's [path] module, on the segments: empty
    segments and [.] are dropped, [..] takes the segment before it away, or
    stays when there is none to take and the path is relative. [stack] holds
    the segments kept so far, the last one first. *)
Fixpoint resolve (allowAboveRoot : bool) (stack segs : list string)
  : list string :=
  match segs with
  | [] => rev stack
  | seg :: rest =>
      if String.eqb seg EmptyString || String.eqb seg "." then
        resolve allowAboveRoot stack rest
      else if String.eqb seg ".." then
        match stack with
        | top :: below =>
            if String.eqb top ".." then
              resolve allowAboveRoot
                (if allowAboveRoot then ".." :: stack else stack) rest
            else resolve allowAboveRoot below rest
        | [] =>
            resolve allowAboveRoot
              (if allowAboveRoot then [".."] else []) rest
        end
      else resolve allowAboveRoot (seg :: stack) rest
  end.

(** [s.length === 0] *)
Definition is_empty (s : string) : bool :=
  match s with
  | EmptyString => true
  | String _ _ => false
  end.

(** [path.isAbsolute(p)] on POSIX. *)
Definition path_isAbsolute (p : string) : bool :=
  match p with
  | String "/" _ => true
  | _ => false
  end.

(** Whether the last character of a path is the separator. *)
Fixpoint ends_with_slash (s : string) : bool :=
  match s with
  | EmptyString => false
  | String c EmptyString => Ascii.eqb c "/"
  | String _ r => ends_with_slash r
  end.

(** [path.normalize(p)] on POSIX. *)
Definition path_normalize (path : string) : string :=
  if is_empty path then "."
  else
    let isAbsolute := path_isAbsolute path in
    let trailingSeparator := ends_with_slash path in
    let body :=
      String.concat "/" (resolve (negb isAbsolute) [] (split_slash path)) in
    if is_empty body then
      if isAbsolute then "/" else if trailingSeparator then "./" else "."
    else
      (if isAbsolute then "/" else EmptyString) +++ body
        +++ (if trailingSeparator then "/" else EmptyString).

(** [path.join(a, b)] on POSIX: the arguments that are not empty, joined
    by the separator and normalized. *)
Definition path_join (a b : string) : string :=
  path_normalize
    (match a, b with
     | EmptyString, _ => b
     | _, EmptyString => a
     | _, _ => a +++ "/" +++ b
     end).

(** The first byte of a text. *)
Definition first_byte (s : string) : option N :=
  match s with
  | EmptyString => None
  | String c _ => Some (N_of_ascii c)
  end.

(** A text without its first byte. *)
Definition rest_of (s : string) : string :=
  match s with
  | EmptyString => EmptyString
  | String _ r => r
  end.

(** Whether there is a byte and it is [n]. *)
Definition is_byte (b : option N) (n : N) : bool :=
  match b with
  | Some m => (m =? n)%N
  | None => false
  end.

(** The bytes of the character that the class [\s] of a regular expression
    matches, when the byte [c] followed by [d] and [e] starts one: TAB to CR
    and the space; U+00A0; U+1680; U+2000 to U+200A, U+2028, U+2029, U+202F;
    U+205F; U+3000; U+FEFF. The result is 0 when it starts none. *)
Definition space_bytes (c : N) (d e : option N) : nat :=
  if ((c =? 32) || ((9 <=? c) && (c <=? 13)))%N then 1
  else if (c =? 194)%N then (if is_byte d 160 then 2 else 0)
  else if (c =? 225)%N then (if is_byte d 154 && is_byte e 128 then 3 else 0)
  else if (c =? 226)%N then
    (if is_byte d 128 then
       match e with
       | Some n =>
           if (((128 <=? n) && (n <=? 138)) || (n =? 168) || (n =? 169)
               || (n =? 175))%N
           then 3 else 0
       | None => 0
       end
     else if is_byte d 129 && is_byte e 159 then 3 else 0)
  else if (c =? 227)%N then (if is_byte d 128 && is_byte e 128 then 3 else 0)
  else if (c =? 239)%N then (if is_byte d 187 && is_byte e 191 then 3 else 0)
  else 0.

(** The width of the white-space character a text starts with, 0 when it
    starts with none. *)
Definition space_width (s : string) : nat :=
  match s with
  | EmptyString => 0
  | String c r =>
      space_bytes (N_of_ascii c) (first_byte r) (first_byte (rest_of r))
  end.

(** ** Events and the world *)

(** What a selector wait will meet: the selector shows up [t] ms after the
    wait starts, never shows up, or the driver fails after [t] ms (page
    closed, frame detached). *)
Inductive WaitFate : Type :=
| Appears (t : N)
| Never
| Breaks (t : N) (e : JsError).

(** The in-page functions handed to [page.evaluate]. *)
Inductive Script : Type :=
| ClearInput (selector : string)
| TopTitles
| ScrollBy (x y : Z).

(** Requests to the outside. *)
Inductive Call : Type :=
| SessionsCreate (proxies advancedStealth : option bool)
| PuppeteerConnect (browserWSEndpoint : string)
| BrowserPages
| BrowserNewPage
| BrowserClose
| SetViewport (width height : Z)
| Goto (url waitUntil : string) (timeout : N)
| BeforeLogin
| WaitForSelector (selector : string) (timeout : option N)
| WaitForNavigation (waitUntil : option string) (timeout : option N)
| WaitForFunction (timeout : N)
| TypeText (selector text : string) (delay : option N)
| Click (selector : string)
| ElementClick
| KeyboardPress (key : string)
| Query (selector : string)
| Evaluate (s : Script)
| Screenshot (path : string) (fullPage : bool)
| Title
| Url
| GoBack
| ExistsSync (path : string)
| MkdirSync (path : string) (recursive : bool)
| DateNow
| MathRandom
| SetTimeout (ms : Whole).

Inductive Event : Type :=
| Log (line : string)        (* console.log *)
| LogError (line : string)   (* console.error *)
| LogErrorObj (line : string) (e : JsError)  (* console.error(line, error) *)
| Req (c : Call)             (* a request to the outside *)
| Elapsed (ms : N).          (* the script was suspended on a promise *)

Definition Trace := list Event.

Record Session : Type := { session_id : string; connectUrl : string }.

(** The outside, as a function of the history of the run. [w_do] answers the
    requests whose value the scripts never look at, and [w_took] tells how
    many milliseconds after such a request its promise settles. *)
Record World : Type := {
  w_do : Trace -> Call -> result unit;
  w_took : Trace -> Call -> N;
  w_session : Trace -> result Session;
  w_pages : Trace -> result nat;
  w_wait : Trace -> string -> WaitFate;
  w_query : Trace -> string -> result bool;
  w_title : Trace -> result string;
  w_url : Trace -> string;
  w_h3 : Trace -> result (list (option string));
  w_exists : Trace -> string -> bool;
  w_now : Trace -> string;
  w_random : Trace -> Q;
  w_cwd : string
}.

(** ** The monad of the scripts *)

(** A computation reads the history and returns its outcome with the events
    it emitted, oldest first. *)
Definition M (A : Type) : Type := Trace -> result A * Trace.

Definition ret {A} (a : A) : M A := fun _ => (Ok a, []).

Definition throw {A} (e : JsError) : M A := fun _ => (Throw e, []).

Definition bind {A B} (m : M A) (f : A -> M B) : M B :=
  fun h =>
    match m h with
    | (Ok a, d) => let (r, d') := f a (h ++ d) in (r, d ++ d')
    | (Throw e, d) => (Throw e, d)
    end.

Notation "x <- c ;; k" := (bind c (fun x => k))
  (at level 61, c at next level, right associativity).
Notation "c ;; k" := (bind c (fun _ => k))
  (at level 61, right associativity).

Definition emit (e : Event) : M unit := fun _ => (Ok tt, [e]).

Definition console_log (line : string) : M unit := emit (Log line).
Definition console_error (line : string) : M unit := emit (LogError line).
Definition console_error_with (line : string) (e : JsError) : M unit :=
  emit (LogErrorObj line e).

(** A request: the world answers from the history before the request. *)
Definition request {A} (c : Call) (answer : Trace -> result A) : M A :=
  fun h => (answer h, [Req c]).

(** [try { body } catch (error) { handler }] *)
Definition try_catch {A} (body : M A) (handler : JsError -> M A) : M A :=
  fun h =>
    match body h with
    | (Ok a, d) => (Ok a, d)
    | (Throw e, d) => let (r, d') := handler e (h ++ d) in (r, d ++ d')
    end.

(** [try { body } finally { fin }]: [fin] always runs, and when it throws,
    its error replaces the outcome of the body. *)
Definition try_finally {A} (body : M A) (fin : M unit) : M A :=
  fun h =>
    let (r, d) := body h in
    match fin (h ++ d) with
    | (Ok _, d') => (r, d ++ d')
    | (Throw e, d') => (Throw e, d ++ d')
    end.

Definition outcome {A} (m : M A) (h : Trace) : result A := fst (m h).
Definition emitted {A} (m : M A) (h : Trace) : Trace := snd (m h).

(** ** Promises *)

(** A promise is already settled when it is created ([Promise.resolve]), or
    it is pending and settles [at_ms] milliseconds later. *)
Inductive Promise (A : Type) : Type :=
| Settled (r : result A)
| Pending (at_ms : N) (r : result A).
Arguments Settled {A} r.
Arguments Pending {A} at_ms r.

Definition settles_with {A} (p : Promise A) : result A :=
  match p with
  | Settled r => r
  | Pending _ r => r
  end.

Definition delay {A} (p : Promise A) : N :=
  match p with
  | Settled _ => 0%N
  | Pending t _ => t
  end.

(** When the reactions of a promise run: a settled promise is ahead of every
    pending one, also of one that settles in the same millisecond. *)
Definition rank {A} (p : Promise A) : N :=
  match p with
  | Settled _ => 0%N
  | Pending t _ => N.succ t
  end.

Definition map_result {A B} (f : A -> B) (r : result A) : result B :=
  match r with
  | Ok a => Ok (f a)
  | Throw e => Throw e
  end.

(** [p.then(f)] for a callback that does not throw: the derived promise is
    pending even when [p] is settled. *)
Definition then_ {A B} (p : Promise A) (f : A -> B) : Promise B :=
  Pending (delay p) (map_result f (settles_with p)).

(** [p.catch(f)] *)
Definition catch_ {A} (p : Promise A) (f : JsError -> A) : Promise A :=
  Pending (delay p)
    (match settles_with p with
     | Ok a => Ok a
     | Throw e => Ok (f e)
     end).

(** [Promise.race([p, ...ps])]: the first promise to settle decides; among
    promises that settle together the earlier array entry is served first. *)
Definition race {A} (p : Promise A) (ps : list (Promise A)) : Promise A :=
  let first := fold_left
    (fun best q => if (rank q <? rank best)%N then q else best) ps p in
  Pending (delay first) (settles_with first).

(** [Promise.all([p, q])] for two promises without a value: fulfilled when
    both are, rejected with the earliest rejection. *)
Definition all2 (p q : Promise unit) : Promise unit :=
  match settles_with p, settles_with q with
  | Ok _, Ok _ => Pending (N.max (delay p) (delay q)) (Ok tt)
  | Throw e, Ok _ => Pending (delay p) (Throw e)
  | Ok _, Throw e => Pending (delay q) (Throw e)
  | Throw e, Throw e' =>
      if (rank q <? rank p)%N then Pending (delay q) (Throw e')
      else Pending (delay p) (Throw e)
  end.

(** [await p] *)
Definition await {A} (p : Promise A) : M A :=
  fun _ => (settles_with p, [Elapsed (delay p)]).


(** ** The driver, as the scripts use it *)

Section Driver.

Variable W : World.

(** A request whose promise the script awaits at once and whose value it
    drops. *)
Definition perform (c : Call) : M unit :=
  request c (fun h => w_do W h c).

(** The same request when the script keeps the promise to combine it with
    others: the promise is pending and settles when the world says. *)
Definition start (c : Call) : M (Promise unit) :=
  fun h => (Ok (Pending (w_took W h c) (w_do W h c)), [Req c]).

(** puppeteer's default timeout for waits, in milliseconds. *)
Definition DEFAULT_TIMEOUT : N := 30000.

(** The error of a wait that ran out of time. *)
Definition TimeoutError (selector : string) (timeout : N) : JsError :=
  ErrorObj "TimeoutError"
    ("Waiting for selector `" +++ selector +++ "` failed: Waiting failed: "
       +++ show_N timeout +++ "ms exceeded").

(** The promise of [page.waitForSelector(selector, { timeout })]: fulfilled
    when the selector shows up in time, rejected with a [TimeoutError] when
    the time runs out, rejected earlier when the driver fails. *)
Definition wait_promise (selector : string) (timeout : N) (f : WaitFate)
  : Promise unit :=
  match f with
  | Appears t =>
      if (t <? timeout)%N then Pending t (Ok tt)
      else Pending timeout (Throw (TimeoutError selector timeout))
  | Never => Pending timeout (Throw (TimeoutError selector timeout))
  | Breaks t e =>
      if (t <? timeout)%N then Pending t (Throw e)
      else Pending timeout (Throw (TimeoutError selector timeout))
  end.

Definition waitForSelector (selector : string) (timeout : option N)
  : M (Promise unit) :=
  fun h =>
    (Ok (wait_promise selector
           (match timeout with Some t => t | None => DEFAULT_TIMEOUT end)
           (w_wait W h selector)),
     [Req (WaitForSelector selector timeout)]).

(** [page.$(selector)]: whether an element handle came back. *)
Definition query (selector : string) : M bool :=
  request (Query selector) (fun h => w_query W h selector).

End Driver.

(** ** The login verifier *)

Module LoginTest.

Record Credentials : Type := { username : string; password : string }.

(** [interface LoginSite]. The [beforeLogin] callback is kept as its outcome:
    what it does to the page is the world's business. *)
Record LoginSite : Type := {
  name : string;
  url : string;
  usernameSelector : string;
  passwordSelector : string;
  submitSelector : string;
  successIndicator : string;
  failureIndicator : option string;
  credentials : Credentials;
  beforeLogin : option (Trace -> result unit)
}.

(** What [testLogin] resolves to. *)
Record VerificationResult : Type := {
  site : string;
  success : bool;
  message : string;
  screenshotPath : string
}.

Section Script.

Variable W : World.

(** [const screenshotsDir = path.join(process.cwd(), 'screenshots')] *)
Definition screenshotsDir : string := path_join (w_cwd W) "screenshots".

(** The path of the final screenshot of a site. *)
Definition screenshotPath_of (s : LoginSite) : string :=
  path_join screenshotsDir (toLowerCase (name s) +++ ".png").

(** The path of the screenshot taken before the form is submitted. *)
Definition beforeSubmitPath_of (s : LoginSite) : string :=
  path_join screenshotsDir (toLowerCase (name s) +++ "-before-submit.png").

(** The form is submitted: the navigation wait, with its rejection caught,
    and the click are started together and awaited with [Promise.all]. *)
Definition submit (s : LoginSite) : M unit :=
  nav <- start W (WaitForNavigation (Some "networkidle2") None) ;;
  clk <- start W (Click (submitSelector s)) ;;
  await (all2 (catch_ nav (fun _ => tt)) clk).

(** The verdict when neither wait produced one. *)
Definition fallback_verdict (successExists : bool) : bool * string :=
  (successExists,
   if successExists then "Login appears successful"
   else "Login status unclear - could not find success indicator").

(** The race of the inner [try]: the success wait against the failure wait,
    or against [Promise.resolve(null)] when the site has no failure
    indicator. *)
Definition signals (s : LoginSite) : M (option (bool * string)) :=
  ps <- waitForSelector W (successIndicator s) (Some 10000%N) ;;
  pf <- (if truthy (failureIndicator s)
         then
           p <- waitForSelector W
                  (match failureIndicator s with
                   | Some f => f
                   | None => EmptyString
                   end)
                  (Some 10000%N) ;;
           ret (then_ p (fun _ =>
                  Some (false, "Login failed - error message detected")))
         else ret (Settled (Ok None))) ;;
  await (race (then_ ps (fun _ => Some (true, "Login successful"))) [pf]).

(** The [else] branch: one look at the page, without waiting. *)
Definition fallback (s : LoginSite) : M (bool * string) :=
  successExists <- query W (successIndicator s) ;;
  ret (fallback_verdict successExists).

(** The inner [try]/[catch] of [testLogin]. *)
Definition checkLoginResult (s : LoginSite) : M (bool * string) :=
  try_catch
    (result <- signals s ;;
     match result with
     | Some r => ret r
     | None => fallback s
     end)
    (fun error =>
       ret (false, "Error checking login status: " +++ String_of error)).

(** The first part of the outer [try]: the page is opened and the form is
    filled in. *)
Definition fill (s : LoginSite) : M unit :=
  console_log ("Navigating to " +++ url s +++ "...") ;;
  perform W (Goto (url s) "networkidle2" 60000%N) ;;
  match beforeLogin s with
  | Some f =>
      console_log "Executing pre-login steps..." ;;
      request BeforeLogin f
  | None => ret tt
  end ;;
  console_log "Filling in login form..." ;;
  p <- waitForSelector W (usernameSelector s) None ;;
  await p ;;
  perform W (TypeText (usernameSelector s) (username (credentials s)) None) ;;
  p <- waitForSelector W (passwordSelector s) None ;;
  await p ;;
  perform W (TypeText (passwordSelector s) (password (credentials s)) None) ;;
  perform W (Screenshot (beforeSubmitPath_of s) false).

(** The last part of the outer [try]: the result is checked, the final
    screenshot is taken and the result is returned. *)
Definition conclude (s : LoginSite) : M VerificationResult :=
  console_log "Checking login result..." ;;
  verdict <- checkLoginResult s ;;
  perform W (Screenshot (screenshotPath_of s) false) ;;
  console_log ("Login test for " +++ name s +++ ": "
               +++ (if fst verdict then "PASSED" else "FAILED")
               +++ " - " +++ snd verdict) ;;
  ret {| site := name s;
         success := fst verdict;
         message := snd verdict;
         screenshotPath := screenshotPath_of s |}.

(** The body of the outer [try]. *)
Definition attempt (s : LoginSite) : M VerificationResult :=
  fill s ;;
  console_log "Submitting login form..." ;;
  submit s ;;
  conclude s.

(** The outer [catch]. *)
Definition recover (s : LoginSite) (error : JsError) : M VerificationResult :=
  let errorMessage := "Error testing login: " +++ String_of error in
  console_error errorMessage ;;
  try_catch
    (perform W (Screenshot (screenshotPath_of s) false))
    (fun _ => console_error "Failed to take error screenshot") ;;
  ret {| site := name s;
         success := false;
         message := errorMessage;
         screenshotPath := screenshotPath_of s |}.

(** The [finally]. *)
Definition release : M unit :=
  perform W BrowserClose ;;
  console_log "Browser closed".

Definition testLogin (s : LoginSite) : M VerificationResult :=
  console_log ("Testing login for " +++ name s +++ "...") ;;
  session <- request (SessionsCreate (Some true) None) (w_session W) ;;
  console_log ("Session created: " +++ session_id session) ;;
  perform W (PuppeteerConnect (connectUrl session)) ;;
  console_log "Connected to browser" ;;
  console_log ("🔍 Live View Link: https://www.browserbase.com/sessions/"
               +++ session_id session) ;;
  console_log
    "👆 Open this URL to view the session in real-time in Browserbase dashboard" ;;
  pages <- request BrowserPages (w_pages W) ;;
  match pages with
  | O => perform W BrowserNewPage
  | S _ => ret tt
  end ;;
  perform W (SetViewport 1280 800) ;;
  try_finally (try_catch (attempt s) (recover s)) release.

(** One turn of the loop of [main]. *)
Definition iteration (s : LoginSite) : M unit :=
  try_catch
    (testLogin s ;; ret tt)
    (fun error =>
       console_error_with ("Failed to test login for " +++ name s +++ ":")
                          error).

Fixpoint for_of {A} (xs : list A) (body : A -> M unit) : M unit :=
  match xs with
  | [] => ret tt
  | x :: rest => body x ;; for_of rest body
  end.

(** [main], with the list of sites as its argument. *)
Definition main (sites : list LoginSite) : M unit :=
  console_log "Starting login verification tests..." ;;
  for_of sites iteration ;;
  console_log (LF +++ "✅ Login verification tests completed!") ;;
  console_log "Check the screenshots directory for results.".

End Script.

(** The site [main] is written for. *)
Definition OrangeHRM : LoginSite :=
  {| name := "OrangeHRM";
     url := "https://opensource-demo.orangehrmlive.com/web/index.php/auth/login";
     usernameSelector := "input[name=" +++ DQ +++ "username" +++ DQ +++ "]";
     passwordSelector := "input[name=" +++ DQ +++ "password" +++ DQ +++ "]";
     submitSelector := "button[type=" +++ DQ +++ "submit" +++ DQ +++ "]";
     successIndicator := ".oxd-userdropdown";
     failureIndicator := None;
     credentials := {| username := "Admin"; password := "admin123" |};
     beforeLogin := None |}.

End LoginTest.

(** ** The utilities of the stealth test *)

Module Utils.

(** [s.replace(/[:.]/g, '-')] *)
Fixpoint replace_colon_dot (s : string) : string :=
  match s with
  | EmptyString => EmptyString
  | String c r =>
      String (if Ascii.eqb c ":" || Ascii.eqb c "." then "-"%char else c)
             (replace_colon_dot r)
  end.

(** The file name [takeScreenshot] derives from a logical name and the text
    of the clock. *)
Definition filename_of (name iso : string) : string :=
  name +++ "-" +++ replace_colon_dot iso +++ ".png".

(** [Math.floor(random * (max - min) + min)], in double precision. *)
Definition waitTime_of (random min max : Q) : Whole :=
  Math_floor
    (num_add (num_mul (Finite random) (num_sub (Finite max) (Finite min)))
             (Finite min)).

(** The options of [createBrowser]; the script reads [proxies] and
    [stealth] only. *)
Record BrowserOptions : Type := {
  proxies : option bool;
  headless : option bool;
  userAgent : option string;
  stealth : option bool;
  timeout : option N
}.

(** [x ?? true] *)
Definition or_true (x : option bool) : bool :=
  match x with
  | Some b => b
  | None => true
  end.

Section Script.

Variable W : World.

Definition createBrowser (options : BrowserOptions) : M unit :=
  console_log "Creating Browserbase session..." ;;
  session <- request (SessionsCreate (Some (or_true (proxies options)))
                                     (Some (or_true (stealth options))))
                     (w_session W) ;;
  console_log ("Session created: " +++ session_id session) ;;
  console_log ("🔍 Live View Link: https://www.browserbase.com/sessions/"
               +++ session_id session) ;;
  console_log
    "👆 Open this URL to view the session in real-time in Browserbase dashboard" ;;
  perform W (PuppeteerConnect (connectUrl session)) ;;
  console_log "Connected to browser".

Definition ensureDirectoryExists (dirPath : string) : M unit :=
  let fullPath :=
    if path_isAbsolute dirPath then dirPath
    else path_join (w_cwd W) dirPath in
  present <- request (ExistsSync fullPath)
               (fun h => Ok (w_exists W h fullPath)) ;;
  if present then ret tt
  else
    perform W (MkdirSync fullPath true) ;;
    console_log ("Created directory: " +++ fullPath).

Definition takeScreenshot_in (name dir : string) : M string :=
  ensureDirectoryExists dir ;;
  iso <- request DateNow (fun h => Ok (w_now W h)) ;;
  let filePath := path_join dir (filename_of name iso) in
  perform W (Screenshot filePath true) ;;
  console_log ("Screenshot saved to: " +++ filePath) ;;
  ret filePath.

(** [takeScreenshot(page, name)] with the default directory. *)
Definition takeScreenshot (name : string) : M string :=
  takeScreenshot_in name "screenshots".

Definition randomWait (min max : Q) : M unit :=
  random <- request MathRandom (fun h => Ok (w_random W h)) ;;
  let waitTime := waitTime_of random min max in
  console_log ("Waiting for " +++ show_number waitTime +++ "ms...") ;;
  request (SetTimeout waitTime) (fun _ => Ok tt) ;;
  emit (Elapsed (timer_delay waitTime)).

End Script.

End Utils.

(** ** The stealth test *)

Module StealthTest.

Import Utils.

Record TestSite : Type := {
  name : string;
  url : string;
  description : string
}.

(** [s.replace(/\s+/g, '-')]: every run of white space becomes one dash.
    [in_run] tells that the previous character was white space, and [skip]
    counts the bytes that are left of it. *)
Fixpoint replace_spaces_from (in_run : bool) (skip : nat) (s : string)
  : string :=
  match s with
  | EmptyString => EmptyString
  | String c r =>
      match skip with
      | S k => replace_spaces_from in_run k r
      | O =>
          match space_width s with
          | O => String c (replace_spaces_from false 0 r)
          | S k =>
              if in_run then replace_spaces_from true k r
              else String "-" (replace_spaces_from true k r)
          end
      end
  end.

Definition replace_spaces (s : string) : string :=
  replace_spaces_from false 0 s.

Definition searchQuery : string := "puppeteer stealth browser automation".

Section Script.

Variable W : World.

(** [searchResults.forEach((title, index) => ...)] from [index] on. *)
Fixpoint log_titles (index : nat) (titles : list (option string)) : M unit :=
  match titles with
  | [] => ret tt
  | t :: rest =>
      (if truthy t
       then console_log (show_Z (Z.of_nat (index + 1)) +++ ". "
                         +++ match t with Some s => s | None => EmptyString end)
       else ret tt) ;;
      log_titles (S index) rest
  end.

(** Enter is pressed, then the navigation wait is awaited with its rejection
    caught. *)
Definition submit : M unit :=
  console_log "Pressing Enter to search..." ;;
  perform W (KeyboardPress "Enter") ;;
  console_log "Waiting for search results..." ;;
  try_catch
    (perform W (WaitForNavigation None (Some 10000%N)))
    (fun _ => console_log "Navigation timeout - continuing anyway").

(** The first result is opened, read and left. *)
Definition visit_first_result : M unit :=
  nav <- start W (WaitForNavigation None (Some 30000%N)) ;;
  clk <- start W ElementClick ;;
  await (all2 nav clk) ;;
  randomWait W 3000 5000 ;;
  pageTitle <- request Title (w_title W) ;;
  console_log ("Landed on page: " +++ DQ +++ pageTitle +++ DQ) ;;
  current <- request Url (fun h => Ok (w_url W h)) ;;
  console_log ("URL: " +++ current) ;;
  takeScreenshot W "google-search-result-page" ;;
  console_log "Scrolling down page..." ;;
  perform W (Evaluate (ScrollBy 0 500)) ;;
  randomWait W 1000 2000 ;;
  perform W (Evaluate (ScrollBy 0 500)) ;;
  randomWait W 3000 5000 ;;
  console_log "Going back to search results..." ;;
  perform W GoBack ;;
  randomWait W 2000 3000.

(** The body of the [try] of [testGoogleSearch]. *)
Definition search : M unit :=
  perform W (Goto "https://www.google.com" "networkidle0" 30000%N) ;;
  console_log ("Performing search for: " +++ DQ +++ searchQuery +++ DQ) ;;
  let textarea := "textarea[name=" +++ DQ +++ "q" +++ DQ +++ "]" in
  let input := "input[name=" +++ DQ +++ "q" +++ DQ +++ "]" in
  searchInput <-
    (has_textarea <- query W textarea ;;
     if has_textarea then ret textarea
     else
       has_input <- query W input ;;
       if has_input then ret input
       else throw (ErrorObj "Error" "Could not find Google search input")) ;;
  perform W (Evaluate (ClearInput searchInput)) ;;
  perform W (TypeText searchInput searchQuery (Some 100%N)) ;;
  randomWait W 800 1500 ;;
  takeScreenshot W "google-search-query" ;;
  submit ;;
  perform W (WaitForFunction 10000%N) ;;
  randomWait W 2000 3000 ;;
  takeScreenshot W "google-search-results" ;;
  console_log "Top search results:" ;;
  h3 <- request (Evaluate TopTitles) (w_h3 W) ;;
  log_titles 0 (firstn 5 h3) ;;
  console_log "Clicking on first search result..." ;;
  resultLink <- query W "#search a" ;;
  (if resultLink then visit_first_result
   else console_log "No search result link found to click") ;;
  console_log "Google search test completed".

Definition testGoogleSearch : M unit :=
  console_log (LF +++ "🔍 Starting detailed Google search test...") ;;
  try_catch search
    (fun error =>
       console_error ("Google search test failed: " +++ message_of error) ;;
       takeScreenshot W "google-search-error" ;;
       ret tt).

(** One turn of the loop over the test sites; [index] is the position of
    the site in the array and [length] the length of the array. *)
Definition visit (length index : nat) (s : TestSite) : M unit :=
  console_log (LF +++ "🔍 Testing: " +++ name s +++ " (" +++ url s +++ ")") ;;
  console_log ("Description: " +++ description s) ;;
  console_log ("Navigating to " +++ url s +++ "...") ;;
  perform W (Goto (url s) "networkidle0" 60000%N) ;;
  randomWait W 2000 4000 ;;
  takeScreenshot W (replace_spaces (toLowerCase (name s))) ;;
  title <- request Title (w_title W) ;;
  currentUrl <- request Url (fun h => Ok (w_url W h)) ;;
  console_log ("Current URL: " +++ " " +++ currentUrl) ;;
  console_log ("Test completed for " +++ name s) ;;
  console_log ("Page title: " +++ title) ;;
  if (Z.of_nat index <? Z.of_nat length - 1)%Z
  then randomWait W 3000 6000
  else ret tt.

Fixpoint visit_all (length index : nat) (sites : list TestSite) : M unit :=
  match sites with
  | [] => ret tt
  | s :: rest => visit length index s ;; visit_all length (S index) rest
  end.

(** [main], with the array of test sites as its argument. *)
Definition main (testSites : list TestSite) : M unit :=
  try_catch
    (console_log "Starting advanced stealth bot detection test..." ;;
     createBrowser W {| proxies := Some true; headless := None;
                        userAgent := None; stealth := Some true;
                        timeout := Some 120000%N |} ;;
     pages <- request BrowserPages (w_pages W) ;;
     match pages with
     | O => perform W BrowserNewPage
     | S _ => ret tt
     end ;;
     perform W (SetViewport 1280 800) ;;
     visit_all (List.length testSites) 0 testSites ;;
     testGoogleSearch ;;
     perform W BrowserClose ;;
     console_log (LF +++ "✅ Test completed successfully!") ;;
     console_log "Check the screenshots directory for results.")
    (fun error => console_error_with "An error occurred:" error).

End Script.

(** The sites [main] is written for. *)
Definition testSites : list TestSite :=
  [ {| name := "SannySoft Bot Detection";
       url := "https://bot.sannysoft.com";
       description := "Basic fingerprinting tests" |};
    {| name := "NowSecure";
       url := "https://nowsecure.nl";
       description := "Advanced bot detection tests" |} ].

End StealthTest.

(** * Observations on runs *)

(** The paths of the screenshots a run asked for, in order. *)
Fixpoint screenshot_paths (t : Trace) : list string :=
  match t with
  | [] => []
  | Req (Screenshot p _) :: rest => p :: screenshot_paths rest
  | _ :: rest => screenshot_paths rest
  end.

(** The selectors a history has looked up with [page.$]. *)
Fixpoint queries (t : Trace) : list string :=
  match t with
  | [] => []
  | Req (Query sel) :: rest => sel :: queries rest
  | _ :: rest => queries rest
  end.

(** The lines a run wrote with [console.error]. *)
Fixpoint error_lines (t : Trace) : list string :=
  match t with
  | [] => []
  | LogError line :: rest => line :: error_lines rest
  | LogErrorObj line _ :: rest => line :: error_lines rest
  | _ :: rest => error_lines rest
  end.

(** The milliseconds a history has spent suspended. *)
Fixpoint elapsed (h : Trace) : N :=
  match h with
  | [] => 0%N
  | Elapsed ms :: rest => (ms + elapsed rest)%N
  | _ :: rest => elapsed rest
  end.

Definition is_close (e : Event) : bool :=
  match e with
  | Req BrowserClose => true
  | _ => false
  end.

Definition is_create (e : Event) : bool :=
  match e with
  | Req (SessionsCreate _ _) => true
  | _ => false
  end.

(** The line [testLogin] prints first. *)
Definition start_line (s : LoginTest.LoginSite) : Event :=
  Log ("Testing login for " +++ LoginTest.name s +++ "...").

(** [s.startsWith(p)] *)
Fixpoint startsWith (p s : string) : bool :=
  match p, s with
  | EmptyString, _ => true
  | String a p', String b s' => Ascii.eqb a b && startsWith p' s'
  | String _ _, EmptyString => false
  end.

Definition is_start_line (e : Event) : bool :=
  match e with
  | Log line => startsWith "Testing login for " line
  | _ => false
  end.

(** A computation is silent for a class of events when it emits none of
    them, whatever the history. *)
Definition silent {A} (P : Event -> bool) (m : M A) : Prop :=
  forall h, filter P (emitted m h) = [].

(** Whether a wait with this fate is fulfilled before its timeout. *)
Definition resolves_within (timeout : N) (f : WaitFate) : bool :=
  match f with
  | Appears t => (t <? timeout)%N
  | _ => false
  end.

(** The two waits of the race of a site with the failure indicator [f],
    started after the history [h]. *)
Definition success_wait (W : World) (s : LoginTest.LoginSite) (h : Trace)
  : Promise unit :=
  wait_promise (LoginTest.successIndicator s) 10000
    (w_wait W h (LoginTest.successIndicator s)).

Definition failure_wait (W : World) (s : LoginTest.LoginSite) (f : string)
  (h : Trace) : Promise unit :=
  wait_promise f 10000
    (w_wait W
       (h ++ [Req (WaitForSelector (LoginTest.successIndicator s)
                     (Some 10000%N))]) f).

(** The text of the clock that [takeScreenshot], called after the history
    [h], puts into the file name: the clock is read once the directory has
    been looked after. *)
Definition clock_read (W : World) (h : Trace) : string :=
  w_now W (h ++ emitted (Utils.ensureDirectoryExists W "screenshots") h).

(** The shape of [Date.prototype.toISOString()] for the years 0000 to 9999:
    [YYYY-MM-DDTHH:mm:ss.sssZ]. *)
Inductive Slot : Type :=
| Digit
| Lit (c : ascii).

Definition iso_template : list Slot :=
  [Digit; Digit; Digit; Digit; Lit "-"; Digit; Digit; Lit "-"; Digit; Digit;
   Lit "T"; Digit; Digit; Lit ":"; Digit; Digit; Lit ":"; Digit; Digit;
   Lit "."; Digit; Digit; Digit; Lit "Z"]%char.

Definition is_digit (c : ascii) : bool :=
  let n := nat_of_ascii c in (48 <=? n) && (n <=? 57).

Fixpoint fits (t : list Slot) (s : string) : bool :=
  match t, s with
  | [], EmptyString => true
  | Digit :: t', String c r => is_digit c && fits t' r
  | Lit l :: t', String c r => Ascii.eqb c l && fits t' r
  | _, _ => false
  end.

Definition is_iso (s : string) : bool := fits iso_template s.

(** The characters of a text, in order. *)
Fixpoint chars (s : string) : list ascii :=
  match s with
  | EmptyString => []
  | String c r => c :: chars r
  end.

(** A computation emits at most [n] events of a class, whatever the
    history. *)
Definition upto {A} (P : Event -> bool) (n : nat) (m : M A) : Prop :=
  forall h, List.length (filter P (emitted m h)) <= n.

Definition is_type (e : Event) : bool :=
  match e with
  | Req (TypeText _ _ _) => true
  | _ => false
  end.

Definition is_random (e : Event) : bool :=
  match e with
  | Req MathRandom => true
  | _ => false
  end.

Definition is_mkdir (e : Event) : bool :=
  match e with
  | Req (MkdirSync _ _) => true
  | _ => false
  end.

(** The verdicts the result check of [testLogin] can give. *)
Definition verdict_shape (v : bool * string) : Prop :=
  v = (true, "Login successful") \/
  v = (false, "Login failed - error message detected") \/
  v = LoginTest.fallback_verdict true \/
  v = LoginTest.fallback_verdict false \/
  exists e : JsError,
    v = (false, "Error checking login status: " +++ String_of e).

(** The site [s] with its failure indicator taken away. *)
Definition without_failureIndicator (s : LoginTest.LoginSite)
  : LoginTest.LoginSite :=
  {| LoginTest.name := LoginTest.name s;
     LoginTest.url := LoginTest.url s;
     LoginTest.usernameSelector := LoginTest.usernameSelector s;
     LoginTest.passwordSelector := LoginTest.passwordSelector s;
     LoginTest.submitSelector := LoginTest.submitSelector s;
     LoginTest.successIndicator := LoginTest.successIndicator s;
     LoginTest.failureIndicator := None;
     LoginTest.credentials := LoginTest.credentials s;
     LoginTest.beforeLogin := LoginTest.beforeLogin s |}.

(** The events of a class that a computation emits are the first few of the
    list [l], in the order of [l], whatever the history. *)
Definition in_order {A} (P : Event -> bool) (l : list Event) (m : M A)
  : Prop :=
  forall h, exists k, filter P (emitted m h) = firstn k l.

(** A computation that ends without an error has emitted exactly [n]
    events of a class. *)
Definition exactly {A} (P : Event -> bool) (n : nat) (m : M A) : Prop :=
  forall h a, outcome m h = Ok a -> List.length (filter P (emitted m h)) = n.

(** The events of a class that a computation emits are the same whatever
    the history and however it ends. *)
Definition always {A} (P : Event -> bool) (l : list Event) (m : M A) : Prop :=
  forall h, filter P (emitted m h) = l.

Definition is_query (e : Event) : bool :=
  match e with
  | Req (Query _) => true
  | _ => false
  end.

Definition is_error (e : Event) : bool :=
  match e with
  | LogError _ => true
  | LogErrorObj _ _ => true
  | _ => false
  end.

(** Requests that act on the page: typing, keys, clicks, scripts. *)
Definition is_action (e : Event) : bool :=
  match e with
  | Req (TypeText _ _ _) => true
  | Req (KeyboardPress _) => true
  | Req (Click _) => true
  | Req ElementClick => true
  | Req (Evaluate _) => true
  | _ => false
  end.

(** The two selectors of the search field. *)
Definition textarea_q : string := "textarea[name=" +++ DQ +++ "q" +++ DQ +++ "]".
Definition input_q : string := "input[name=" +++ DQ +++ "q" +++ DQ +++ "]".

(** A look at the page for the selector [sel]. *)
Definition asks_for (sel : string) (e : Event) : bool :=
  match e with
  | Req (Query s) => String.eqb s sel
  | _ => false
  end.

(** A file system that remembers the directories the run has created. *)
Definition remembers (W : World) : Prop :=
  forall (h : Trace) (p : string) (recursive : bool),
    In (Req (MkdirSync p recursive)) h -> w_exists W h p = true.

Fixpoint created (p : string) (h : Trace) : bool :=
  match h with
  | [] => false
  | Req (MkdirSync q _) :: rest => String.eqb q p || created p rest
  | _ :: rest => created p rest
  end.

(** Screenshots and directories can always be written. *)
Definition writable (W : World) : Prop :=
  (forall h p full, w_do W h (Screenshot p full) = Ok tt) /\
  (forall h p recursive, w_do W h (MkdirSync p recursive) = Ok tt).

Definition is_click (e : Event) : bool :=
  match e with
  | Req (Click _) => true
  | _ => false
  end.

Definition is_type_or_click (e : Event) : bool := is_type e || is_click e.

Definition is_connect (e : Event) : bool :=
  match e with
  | Req (PuppeteerConnect _) => true
  | _ => false
  end.

(** A run that emits an event of the class [P] has got as far as the
    computation [core]: what it emitted ends with what [core] emitted. *)
Definition reaches {A B} (P : Event -> bool) (core : M B) (m : M A) : Prop :=
  forall h,
    filter P (emitted m h) <> [] ->
    exists d h', emitted m h = d ++ emitted core h'.

(** The typing and clicking of a computation is that of one attempt of the
    login test of the site, or there is none. *)
Definition focused {A} (W : World) (s : LoginTest.LoginSite) (m : M A)
  : Prop :=
  forall h,
    (forall P : Event -> bool,
       (forall e, P e = true -> is_type_or_click e = true) ->
       filter P (emitted m h) = []) \/
    (exists h', forall P : Event -> bool,
       (forall e, P e = true -> is_type_or_click e = true) ->
       filter P (emitted m h) = filter P (emitted (LoginTest.attempt W s) h')).

(** Whether a white-space character starts somewhere in a text. *)
Fixpoint has_space (s : string) : bool :=
  match s with
  | EmptyString => false
  | String _ r => negb (space_width s =? 0) || has_space r
  end.

(** A text without a separator. *)
Fixpoint no_slash (s : string) : bool :=
  match s with
  | EmptyString => true
  | String c r => negb (Ascii.eqb c "/") && no_slash r
  end.

(** A text that holds a character other than the dot. *)
Fixpoint has_other (s : string) : bool :=
  match s with
  | EmptyString => false
  | String c r => negb (Ascii.eqb c ".") || has_other r
  end.

(** The end of a file name: no separator, and not dots only. *)
Definition plain (t : string) : bool := no_slash t && has_other t.


(** A template without a separator. *)
Definition no_slash_slot (sl : Slot) : bool :=
  match sl with
  | Digit => true
  | Lit l => negb (Ascii.eqb l "/")
  end.

(** A number is finite and lies between two whole numbers. *)
Definition within (a b : Z) (x : Number) : Prop :=
  exists q : Q, x = Finite q /\ (inject_Z a <= q)%Q /\ (q <= inject_Z b)%Q.

(** How long the step that submits the login form, started after the
    history [h], keeps the script suspended: until the navigation wait and
    the click have both settled, or until the click has failed. *)
Definition submit_time (W : World) (s : LoginTest.LoginSite) (h : Trace) : N :=
  let nav := WaitForNavigation (Some "networkidle2") None in
  let click := Click (LoginTest.submitSelector s) in
  match w_do W (h ++ [Req nav]) click with
  | Ok _ => N.max (w_took W h nav) (w_took W (h ++ [Req nav]) click)
  | Throw _ => w_took W (h ++ [Req nav]) click
  end.

(** Whether a history has submitted a form, by a click or a key. *)
Definition submitted (h : Trace) : bool :=
  existsb
    (fun e =>
       match e with
       | Req (Click _) => true
       | Req (KeyboardPress _) => true
       | _ => false
       end)
    h.

(** * Scenarios *)

(** A world in which every request succeeds at once. *)
Definition calm : World :=
  {| w_do := fun _ _ => Ok tt;
     w_took := fun _ _ => 0%N;
     w_session := fun _ => Ok {| session_id := "s1"; connectUrl := "wss://s1" |};
     w_pages := fun _ => Ok 1;
     w_wait := fun _ _ => Appears 0;
     w_query := fun _ _ => Ok true;
     w_title := fun _ => Ok "Title";
     w_url := fun _ => "https://example.org/";
     w_h3 := fun _ => Ok [];
     w_exists := fun _ _ => true;
     w_now := fun _ => "2024-05-06T07:08:09.123Z";
     w_random := fun _ => 0%Q;
     w_cwd := "/app" |}.

(** Worlds that differ from another in one answer. *)
Definition with_do (f : Trace -> Call -> result unit) (W : World) : World :=
  {| w_do := f;
     w_took := w_took W;
     w_session := w_session W;
     w_pages := w_pages W;
     w_wait := w_wait W;
     w_query := w_query W;
     w_title := w_title W;
     w_url := w_url W;
     w_h3 := w_h3 W;
     w_exists := w_exists W;
     w_now := w_now W;
     w_random := w_random W;
     w_cwd := w_cwd W |}.

Definition with_session (f : Trace -> result Session) (W : World) : World :=
  {| w_do := w_do W;
     w_took := w_took W;
     w_session := f;
     w_pages := w_pages W;
     w_wait := w_wait W;
     w_query := w_query W;
     w_title := w_title W;
     w_url := w_url W;
     w_h3 := w_h3 W;
     w_exists := w_exists W;
     w_now := w_now W;
     w_random := w_random W;
     w_cwd := w_cwd W |}.

Definition with_page (wait : Trace -> string -> WaitFate)
  (look : Trace -> string -> result bool) (W : World) : World :=
  {| w_do := w_do W;
     w_took := w_took W;
     w_session := w_session W;
     w_pages := w_pages W;
     w_wait := wait;
     w_query := look;
     w_title := w_title W;
     w_url := w_url W;
     w_h3 := w_h3 W;
     w_exists := w_exists W;
     w_now := w_now W;
     w_random := w_random W;
     w_cwd := w_cwd W |}.

Definition with_now (f : Trace -> string) (W : World) : World :=
  {| w_do := w_do W;
     w_took := w_took W;
     w_session := w_session W;
     w_pages := w_pages W;
     w_wait := w_wait W;
     w_query := w_query W;
     w_title := w_title W;
     w_url := w_url W;
     w_h3 := w_h3 W;
     w_exists := w_exists W;
     w_now := f;
     w_random := w_random W;
     w_cwd := w_cwd W |}.

(** Two sites whose names differ in case only. *)
Definition Demo : LoginTest.LoginSite :=
  {| LoginTest.name := "Demo";
     LoginTest.url := "https://demo.example/login";
     LoginTest.usernameSelector := "#user";
     LoginTest.passwordSelector := "#pass";
     LoginTest.submitSelector := "#go";
     LoginTest.successIndicator := ".dashboard";
     LoginTest.failureIndicator := Some ".error-banner";
     LoginTest.credentials :=
       {| LoginTest.username := "u"; LoginTest.password := "p" |};
     LoginTest.beforeLogin := None |}.

Definition demo_lower : LoginTest.LoginSite :=
  {| LoginTest.name := "demo";
     LoginTest.url := "https://demo.example/login";
     LoginTest.usernameSelector := "#user";
     LoginTest.passwordSelector := "#pass";
     LoginTest.submitSelector := "#go";
     LoginTest.successIndicator := ".dashboard";
     LoginTest.failureIndicator := Some ".error-banner";
     LoginTest.credentials :=
       {| LoginTest.username := "u"; LoginTest.password := "p" |};
     LoginTest.beforeLogin := None |}.

(** A world like [calm] whose clock moves on once the run has some history. *)
Definition ticking : World :=
  with_now
    (fun h =>
       if List.length h <=? 1 then "2024-05-06T07:08:09.123Z"
       else "2024-05-06T07:08:09.124Z")
    calm.

(** A page on which the success indicator shows up just as the waits run
    out of time, and the failure indicator never does. *)
Definition late_success : World :=
  with_page
    (fun _ sel => if String.eqb sel ".dashboard" then Appears 10000 else Never)
    (fun _ _ => Ok true)
    calm.

(** A page on which neither indicator ever shows up. *)
Definition nothing_shows : World :=
  with_page (fun _ _ => Never) (fun _ _ => Ok false) calm.

(** A page on which every selector shows up three seconds after the wait for
    it starts; [page.$] finds a selector once three seconds have passed. *)
Definition after_3s : World :=
  with_page
    (fun _ _ => Appears 3000)
    (fun h _ => Ok (3000 <=? elapsed h)%N)
    calm.

(** A page on which the success indicator shows up after two seconds and
    the failure indicator after five. *)
Definition success_2s_failure_5s : World :=
  with_page
    (fun _ sel =>
       if String.eqb sel ".dashboard" then Appears 2000 else Appears 5000)
    (fun _ _ => Ok true)
    calm.

(** The provisioning service turns the request down. *)
Definition provisioning_fails : World :=
  with_session (fun _ => Throw (ErrorObj "Error" "401 Unauthorized")) calm.

(** The connection drops when the viewport is set. *)
Definition viewport_fails : World :=
  with_do
    (fun _ c =>
       match c with
       | SetViewport _ _ =>
           Throw (ErrorObj "Error" "Protocol error: Connection closed.")
       | _ => Ok tt
       end)
    calm.

(** The final screenshot of the site [Demo] cannot be written. *)
Definition final_shot_fails : World :=
  with_do
    (fun _ c =>
       match c with
       | Screenshot p _ =>
           if String.eqb p "/app/screenshots/demo.png"
           then Throw (ErrorObj "Error" "ENOSPC: no space left on device")
           else Ok tt
       | _ => Ok tt
       end)
    calm.

(** The page is gone: navigation and screenshots fail. *)
Definition page_closed : World :=
  with_do
    (fun _ c =>
       match c with
       | Goto _ _ _ =>
           Throw (ErrorObj "Error" "Navigating frame was detached")
       | Screenshot _ _ =>
           Throw (ErrorObj "Error"
                    "Protocol error (Page.captureScreenshot): Target closed")
       | _ => Ok tt
       end)
    calm.

(** The first of the test sites cannot be reached. *)
Definition first_site_down : World :=
  with_do
    (fun _ c =>
       match c with
       | Goto u _ _ =>
           if String.eqb u "https://bot.sannysoft.com"
           then Throw (ErrorObj "Error" "net::ERR_CONNECTION_REFUSED")
           else Ok tt
       | _ => Ok tt
       end)
    calm.

(** The page does not navigate when the form is submitted: the navigation
    wait runs out of time after 30 seconds. *)
Definition no_navigation : World :=
  {| w_do := fun _ c =>
       match c with
       | WaitForNavigation _ _ =>
           Throw (ErrorObj "TimeoutError"
                    "Navigation timeout of 30000 ms exceeded")
       | _ => Ok tt
       end;
     w_took := fun _ c =>
       match c with
       | WaitForNavigation _ _ => 30000%N
       | _ => 0%N
       end;
     w_session := w_session calm;
     w_pages := w_pages calm;
     w_wait := w_wait calm;
     w_query := w_query calm;
     w_title := w_title calm;
     w_url := w_url calm;
     w_h3 := w_h3 calm;
     w_exists := w_exists calm;
     w_now := w_now calm;
     w_random := w_random calm;
     w_cwd := w_cwd calm |}.

(** A site whose failure indicator is the empty text. *)
Definition Demo_blank : LoginTest.LoginSite :=
  {| LoginTest.name := "Demo";
     LoginTest.url := "https://demo.example/login";
     LoginTest.usernameSelector := "#user";
     LoginTest.passwordSelector := "#pass";
     LoginTest.submitSelector := "#go";
     LoginTest.successIndicator := ".dashboard";
     LoginTest.failureIndicator := Some EmptyString;
     LoginTest.credentials :=
       {| LoginTest.username := "u"; LoginTest.password := "p" |};
     LoginTest.beforeLogin := None |}.

(** A page without a search field. *)
Definition no_search_field : World :=
  with_page (fun _ _ => Never) (fun _ _ => Ok false) calm.

(** A page with the text area of the search field. *)
Definition with_textarea : World :=
  with_page (fun _ _ => Appears 0)
    (fun _ sel => Ok (String.eqb sel textarea_q)) calm.

(** An empty disk that remembers. *)
Definition fresh_disk : World :=
  {| w_do := w_do calm;
     w_took := w_took calm;
     w_session := w_session calm;
     w_pages := w_pages calm;
     w_wait := w_wait calm;
     w_query := w_query calm;
     w_title := w_title calm;
     w_url := w_url calm;
     w_h3 := w_h3 calm;
     w_exists := fun h p => created p h;
     w_now := w_now calm;
     w_random := w_random calm;
     w_cwd := w_cwd calm |}.

(** The page is gone, but the disk is fine. *)
Definition page_gone_disk_fine : World :=
  with_do
    (fun _ c =>
       match c with
       | Screenshot _ _ => Ok tt
       | MkdirSync _ _ => Ok tt
       | BrowserClose => Ok tt
       | PuppeteerConnect _ => Ok tt
       | SetViewport _ _ => Ok tt
       | _ => Throw (ErrorObj "Error" "Target closed")
       end)
    calm.

(** One minus two to the -52, a double just below 1. *)
Definition almost_one : Q := (1 - (1 # 2 ^ 52))%Q.

(** A world like [calm] in which [Math.random] returns it. *)
Definition high_roll : World :=
  {| w_do := w_do calm;
     w_took := w_took calm;
     w_session := w_session calm;
     w_pages := w_pages calm;
     w_wait := w_wait calm;
     w_query := w_query calm;
     w_title := w_title calm;
     w_url := w_url calm;
     w_h3 := w_h3 calm;
     w_exists := w_exists calm;
     w_now := w_now calm;
     w_random := fun _ => almost_one;
     w_cwd := w_cwd calm |}.

(** A page that navigates as soon as a form is submitted: a navigation wait
    asked for before the submission sees the navigation, one asked for after
    it sees none and runs out of time. *)
Definition navigates_on_submit : World :=
  with_do
    (fun h c =>
       match c with
       | WaitForNavigation _ _ =>
           if submitted h
           then Throw (ErrorObj "TimeoutError"
                         "Navigation timeout of 10000 ms exceeded")
           else Ok tt
       | _ => Ok tt
       end)
    calm.

(** The character U+00A0, a space outside ASCII, in UTF-8. *)
Definition no_break_space : string :=
  String (ascii_of_nat 194) (String (ascii_of_nat 160) EmptyString).

(** The first result is no longer in the page: the click on it fails at
    once, and the navigation wait runs out of time after 30 seconds. *)
Definition detached_link : World :=
  {| w_do := fun _ c =>
       match c with
       | WaitForNavigation _ _ =>
           Throw (ErrorObj "TimeoutError"
                    "Navigation timeout of 30000 ms exceeded")
       | ElementClick => Throw (ErrorObj "Error" "Node is detached from document")
       | _ => Ok tt
       end;
     w_took := fun _ c =>
       match c with
       | WaitForNavigation _ _ => 30000%N
       | _ => 0%N
       end;
     w_session := w_session calm;
     w_pages := w_pages calm;
     w_wait := w_wait calm;
     w_query := w_query calm;
     w_title := w_title calm;
     w_url := w_url calm;
     w_h3 := w_h3 calm;
     w_exists := w_exists calm;
     w_now := w_now calm;
     w_random := w_random calm;
     w_cwd := w_cwd calm |}.

(** * Properties *)

(** ** Strings *)

Lemma append_cancel_l (p x y : string) : p +++ x = p +++ y -> x = y.
Proof.
  induction p as [|c p IH]; simpl; intros H.
  - exact H.
  - inversion H. auto.
Qed.

Lemma digit_untouched (c : ascii) :
  is_digit c = true -> (Ascii.eqb c ":" || Ascii.eqb c ".") = false.
Proof.
  destruct c as [[] [] [] [] [] [] [] []]; vm_compute; congruence.
Qed.

(** On texts of one shape, replacing the colons and the dot loses nothing. *)
Lemma replace_colon_dot_inj (t : list Slot) :
  forall a b s,
    fits t a = true -> fits t b = true ->
    Utils.replace_colon_dot a +++ s = Utils.replace_colon_dot b +++ s ->
    a = b.
Proof.
  induction t as [|sl t IH]; intros a b s Ha Hb E.
  - destruct a, b; simpl in *; congruence.
  - destruct a as [|c a], b as [|d b]; simpl in Ha, Hb;
      try (destruct sl; discriminate).
    simpl in E. injection E as Ehd Etl.
    destruct sl as [|l];
      apply andb_true_iff in Ha as [Hc Ha];
      apply andb_true_iff in Hb as [Hd Hb];
      f_equal; try (eapply IH; eassumption).
    + rewrite (digit_untouched c Hc), (digit_untouched d Hd) in Ehd.
      exact Ehd.
    + apply Ascii.eqb_eq in Hc, Hd. congruence.
Qed.

(** ** Paths *)

Lemma append_assoc (a b c : string) : (a +++ b) +++ c = a +++ b +++ c.
Proof. induction a as [|x a IH]; simpl; [reflexivity | now f_equal]. Qed.

Lemma append_nil_r (a : string) : a +++ EmptyString = a.
Proof. induction a as [|x a IH]; simpl; [reflexivity | now f_equal]. Qed.

Lemma split_no_slash (t : string) : no_slash t = true -> split_slash t = [t].
Proof.
  induction t as [|c t IH]; simpl; [reflexivity|].
  intros H. apply andb_true_iff in H as [Hc Ht].
  apply negb_true_iff in Hc. rewrite Hc, (IH Ht). reflexivity.
Qed.

(** A text appended to a path goes to its last segment. *)
Lemma split_app (pre : string) :
  exists init l,
    split_slash pre = init ++ [l] /\
    forall t, no_slash t = true -> split_slash (pre +++ t) = init ++ [l +++ t].
Proof.
  induction pre as [|c r (init & l & E & IH)].
  - exists [], EmptyString. split; [reflexivity|].
    intros t Ht. simpl. now apply split_no_slash.
  - simpl. destruct (Ascii.eqb c "/").
    + exists (EmptyString :: init), l. rewrite E. split; [reflexivity|].
      intros t Ht. now rewrite (IH t Ht).
    + destruct init as [|i init].
      * exists [], (String c l). rewrite E. split; [reflexivity|].
        intros t Ht. now rewrite (IH t Ht).
      * exists (String c i :: init), l. rewrite E. split; [reflexivity|].
        intros t Ht. now rewrite (IH t Ht).
Qed.

Lemma has_other_app (l t : string) :
  has_other t = true -> has_other (l +++ t) = true.
Proof.
  intros H. induction l as [|c l IH]; simpl; [assumption|].
  rewrite IH. apply orb_true_r.
Qed.

Lemma has_other_kept (seg : string) :
  has_other seg = true ->
  (String.eqb seg EmptyString || String.eqb seg ".") = false /\
  String.eqb seg ".." = false.
Proof.
  intros H. split.
  - destruct (String.eqb seg EmptyString) eqn:E1.
    { apply String.eqb_eq in E1. subst. discriminate. }
    destruct (String.eqb seg ".") eqn:E2; [|reflexivity].
    apply String.eqb_eq in E2. subst. discriminate.
  - destruct (String.eqb seg "..") eqn:E; [|reflexivity].
    apply String.eqb_eq in E. subst. discriminate.
Qed.

(** A segment that is a name comes out last. *)
Lemma resolve_app (allow : bool) (segs : list string) :
  forall (stack : list string) (seg : string),
    has_other seg = true ->
    resolve allow stack (segs ++ [seg]) = resolve allow stack segs ++ [seg].
Proof.
  induction segs as [|s segs IH]; intros stack seg H.
  - simpl. destruct (has_other_kept seg H) as [-> ->]. reflexivity.
  - simpl.
    destruct (String.eqb s EmptyString || String.eqb s "."); [now apply IH|].
    destruct (String.eqb s "..").
    + destruct stack as [|top below]; [now apply IH|].
      destruct (String.eqb top ".."); now apply IH.
    + now apply IH.
Qed.

Lemma concat_app (ys : list string) (z : string) :
  String.concat "/" (ys ++ [z]) =
  match ys with
  | [] => z
  | _ => String.concat "/" ys +++ "/" +++ z
  end.
Proof.
  induction ys as [|y ys IH]; [reflexivity|].
  simpl app. cbn [String.concat].
  destruct ys as [|y' ys]; [reflexivity|].
  simpl app in *. rewrite IH. now rewrite append_assoc.
Qed.

Lemma is_empty_app (a t : string) :
  is_empty t = false -> is_empty (a +++ t) = false.
Proof. destruct a, t; simpl; congruence. Qed.

Lemma ends_with_slash_app (a t : string) :
  no_slash t = true -> is_empty t = false -> ends_with_slash (a +++ t) = false.
Proof.
  intros Hn He. induction a as [|c a IH].
  - simpl. clear He. induction t as [|c t IH]; [reflexivity|].
    simpl in Hn. apply andb_true_iff in Hn as [Hc Ht].
    apply negb_true_iff in Hc. simpl. rewrite Hc.
    destruct t; [reflexivity | now apply IH].
  - simpl. destruct (a +++ t) eqn:E; [|assumption].
    destruct a, t; discriminate.
Qed.

Lemma plain_not_empty (t : string) : plain t = true -> is_empty t = false.
Proof. destruct t; [discriminate | reflexivity]. Qed.

Lemma path_isAbsolute_app (a t : string) :
  no_slash t = true ->
  path_isAbsolute (a +++ t) = path_isAbsolute a.
Proof.
  intros H. destruct a as [|c a]; [|reflexivity].
  destruct t as [|c t]; [reflexivity|].
  simpl in H. apply andb_true_iff in H as [Hc _]. apply negb_true_iff in Hc.
  simpl. destruct c as [[] [] [] [] [] [] [] []]; try reflexivity; discriminate.
Qed.

(** The part of a normalized path that comes before a plain ending depends
    on what comes before the ending only. *)
Lemma path_normalize_app (pre : string) :
  exists g : string,
    forall t, plain t = true -> path_normalize (pre +++ t) = g +++ t.
Proof.
  destruct (split_app pre) as (init & l & E & Hsplit).
  exists ((if path_isAbsolute pre then "/" else EmptyString)
          +++ match resolve (negb (path_isAbsolute pre)) [] init with
              | [] => l
              | ys => String.concat "/" ys +++ "/" +++ l
              end).
  intros t Ht. pose proof Ht as Hp.
  apply andb_true_iff in Ht as [Hn Ho].
  pose proof (plain_not_empty t Hp) as He.
  unfold path_normalize.
  rewrite is_empty_app by assumption.
  rewrite path_isAbsolute_app by assumption.
  rewrite ends_with_slash_app by assumption.
  rewrite (Hsplit t Hn).
  rewrite resolve_app by now apply has_other_app.
  rewrite concat_app.
  assert (Hbody :
    match resolve (negb (path_isAbsolute pre)) [] init with
    | [] => l +++ t
    | _ :: _ =>
        String.concat "/" (resolve (negb (path_isAbsolute pre)) [] init)
          +++ "/" +++ l +++ t
    end =
    match resolve (negb (path_isAbsolute pre)) [] init with
    | [] => l
    | _ :: _ =>
        String.concat "/" (resolve (negb (path_isAbsolute pre)) [] init)
          +++ "/" +++ l
    end +++ t).
  { destruct (resolve _ _ _); [reflexivity|].
    now rewrite !append_assoc. }
  rewrite Hbody. rewrite is_empty_app by assumption.
  rewrite append_nil_r, append_assoc.
  destruct (resolve _ _ _); reflexivity.
Qed.

Lemma path_join_app (a x : string) :
  exists g : string,
    forall t, plain t = true -> path_join a (x +++ t) = g +++ t.
Proof.
  destruct a as [|c a].
  - destruct (path_normalize_app x) as [g Hg]. exists g.
    intros t Ht. unfold path_join. now apply Hg.
  - destruct (path_normalize_app (String c a +++ "/" +++ x)) as [g Hg].
    exists g. intros t Ht. unfold path_join.
    rewrite <- (Hg t Ht).
    pose proof (plain_not_empty t Ht) as He.
    destruct (x +++ t) eqn:E.
    { destruct x, t; discriminate. }
    rewrite <- E. now rewrite !append_assoc.
Qed.

(** Paths with the same beginning and different plain endings differ. *)
Lemma path_join_inj (a x t t' : string) :
  plain t = true -> plain t' = true ->
  path_join a (x +++ t) = path_join a (x +++ t') -> t = t'.
Proof.
  intros Ht Ht' E. destruct (path_join_app a x) as [g Hg].
  rewrite (Hg t Ht), (Hg t' Ht') in E. now apply append_cancel_l in E.
Qed.





(** The text the clock is turned into holds no separator. *)
Lemma stamp_no_slash (t : list Slot) :
  forallb no_slash_slot t = true ->
  forall a sfx,
    fits t a = true ->
    no_slash (Utils.replace_colon_dot a +++ sfx) = no_slash sfx.
Proof.
  induction t as [|sl t IH]; intros Ht a sfx Ha.
  - destruct a; [reflexivity | discriminate].
  - cbn [forallb] in Ht. apply andb_true_iff in Ht as [Hsl Ht].
    destruct a as [|c a]; [destruct sl; discriminate|].
    cbn [Utils.replace_colon_dot append no_slash].
    destruct sl as [|l]; cbn [fits] in Ha;
      apply andb_true_iff in Ha as [Hc Ha]; rewrite (IH Ht a sfx Ha).
    + rewrite (digit_untouched c Hc).
      destruct c as [[] [] [] [] [] [] [] []]; try discriminate; reflexivity.
    + apply Ascii.eqb_eq in Hc. subst c. cbn [no_slash_slot] in Hsl.
      destruct (Ascii.eqb l ":" || Ascii.eqb l "."); [reflexivity|].
      now rewrite Hsl.
Qed.

Lemma filename_ending_plain (iso : string) :
  is_iso iso = true ->
  plain ("-" +++ Utils.replace_colon_dot iso +++ ".png") = true.
Proof.
  intros H. unfold plain. apply andb_true_iff. split; [|reflexivity].
  cbn [append no_slash]. now rewrite (stamp_no_slash iso_template).
Qed.

(** ** The monad *)

Lemma bind_run {A B} (m : M A) (f : A -> M B) (h : Trace) :
  bind m f h =
  match outcome m h with
  | Ok a => (outcome (f a) (h ++ emitted m h),
             emitted m h ++ emitted (f a) (h ++ emitted m h))
  | Throw e => (Throw e, emitted m h)
  end.
Proof.
  unfold bind, outcome, emitted.
  destruct (m h) as [[a|e] d]; simpl; [|reflexivity].
  destruct (f a (h ++ d)); reflexivity.
Qed.

Lemma bind_outcome {A B} (m : M A) (f : A -> M B) (h : Trace) :
  outcome (bind m f) h =
  match outcome m h with
  | Ok a => outcome (f a) (h ++ emitted m h)
  | Throw e => Throw e
  end.
Proof.
  unfold outcome at 1. rewrite bind_run. now destruct (outcome m h).
Qed.

Lemma bind_emitted {A B} (m : M A) (f : A -> M B) (h : Trace) :
  emitted (bind m f) h =
  match outcome m h with
  | Ok a => emitted m h ++ emitted (f a) (h ++ emitted m h)
  | Throw e => emitted m h
  end.
Proof.
  unfold emitted at 1. rewrite bind_run. now destruct (outcome m h).
Qed.

Lemma bind_ok_inv {A B} (m : M A) (f : A -> M B) (h : Trace) (b : B) :
  outcome (bind m f) h = Ok b ->
  exists a, outcome m h = Ok a /\ outcome (f a) (h ++ emitted m h) = Ok b.
Proof.
  rewrite bind_outcome. destruct (outcome m h) as [a|e]; [eauto | discriminate].
Qed.

Lemma try_catch_run {A} (body : M A) (handler : JsError -> M A) (h : Trace) :
  try_catch body handler h =
  match outcome body h with
  | Ok a => (Ok a, emitted body h)
  | Throw e => (outcome (handler e) (h ++ emitted body h),
                emitted body h ++ emitted (handler e) (h ++ emitted body h))
  end.
Proof.
  unfold try_catch, outcome, emitted.
  destruct (body h) as [[a|e] d]; simpl; [reflexivity|].
  destruct (handler e (h ++ d)); reflexivity.
Qed.

Lemma try_finally_run {A} (body : M A) (fin : M unit) (h : Trace) :
  try_finally body fin h =
  (match outcome fin (h ++ emitted body h) with
   | Ok _ => outcome body h
   | Throw e => Throw e
   end,
   emitted body h ++ emitted fin (h ++ emitted body h)).
Proof.
  unfold try_finally, outcome, emitted.
  destruct (body h) as [r d]; simpl.
  destruct (fin (h ++ d)) as [[u|e] d']; reflexivity.
Qed.

Lemma try_catch_outcome {A} (body : M A) (handler : JsError -> M A)
  (h : Trace) :
  outcome (try_catch body handler) h =
  match outcome body h with
  | Ok a => Ok a
  | Throw e => outcome (handler e) (h ++ emitted body h)
  end.
Proof.
  unfold outcome at 1. rewrite try_catch_run. now destruct (outcome body h).
Qed.

Lemma try_finally_outcome {A} (body : M A) (fin : M unit) (h : Trace) :
  outcome (try_finally body fin) h =
  match outcome fin (h ++ emitted body h) with
  | Ok _ => outcome body h
  | Throw e => Throw e
  end.
Proof.
  unfold outcome at 1. now rewrite try_finally_run.
Qed.

Ltac bind_inv H :=
  repeat (let a := fresh "a" in
          let Ha := fresh "Ha" in
          apply bind_ok_inv in H as [a [Ha H]]).

(** ** Silent computations *)

Section Silent.

Variable P : Event -> bool.

Lemma silent_ret {A} (a : A) : silent P (ret a).
Proof. intros h. reflexivity. Qed.

Lemma silent_throw {A} (e : JsError) : silent P (@throw A e).
Proof. intros h. reflexivity. Qed.

Lemma silent_emit (e : Event) : P e = false -> silent P (emit e).
Proof. intros H h. unfold emitted, emit; simpl. now rewrite H. Qed.

Lemma silent_request {A} (c : Call) (answer : Trace -> result A) :
  P (Req c) = false -> silent P (request c answer).
Proof. intros H h. unfold emitted, request; simpl. now rewrite H. Qed.

Lemma silent_await {A} (p : Promise A) :
  P (Elapsed (delay p)) = false -> silent P (await p).
Proof. intros H h. unfold emitted, await; simpl. now rewrite H. Qed.

Lemma silent_bind {A B} (m : M A) (f : A -> M B) :
  silent P m -> (forall a, silent P (f a)) -> silent P (bind m f).
Proof.
  intros Hm Hf h. rewrite bind_emitted.
  destruct (outcome m h); [|apply Hm].
  now rewrite filter_app, Hm, Hf.
Qed.

Lemma silent_try_catch {A} (body : M A) (handler : JsError -> M A) :
  silent P body -> (forall e, silent P (handler e)) ->
  silent P (try_catch body handler).
Proof.
  intros Hb Hh h. unfold emitted. rewrite try_catch_run.
  destruct (outcome body h); cbn [snd]; [apply Hb|].
  now rewrite filter_app, Hb, Hh.
Qed.

Lemma silent_try_finally {A} (body : M A) (fin : M unit) :
  silent P body -> silent P fin -> silent P (try_finally body fin).
Proof.
  intros Hb Hf h. unfold emitted. rewrite try_finally_run. cbn [snd].
  now rewrite filter_app, Hb, Hf.
Qed.

Lemma silent_start (W : World) (c : Call) :
  P (Req c) = false -> silent P (start W c).
Proof. intros H h. unfold emitted, start; simpl. now rewrite H. Qed.

Lemma silent_waitForSelector (W : World) (sel : string) (t : option N) :
  P (Req (WaitForSelector sel t)) = false -> silent P (waitForSelector W sel t).
Proof. intros H h. unfold emitted, waitForSelector; simpl. now rewrite H. Qed.

End Silent.

Ltac silent_step :=
  match goal with
  | |- silent _ (bind _ _) => apply silent_bind; [|intros]
  | |- silent _ (ret _) => apply silent_ret
  | |- silent _ (throw _) => apply silent_throw
  | |- silent _ (try_catch _ _) => apply silent_try_catch; [|intros]
  | |- silent _ (try_finally _ _) => apply silent_try_finally
  | |- silent _ (console_log _) => apply silent_emit; reflexivity
  | |- silent _ (console_error _) => apply silent_emit; reflexivity
  | |- silent _ (console_error_with _ _) => apply silent_emit; reflexivity
  | |- silent _ (emit _) => apply silent_emit; reflexivity
  | |- silent _ (perform _ _) => apply silent_request; reflexivity
  | |- silent _ (query _ _) => apply silent_request; reflexivity
  | |- silent _ (request _ _) => apply silent_request; reflexivity
  | |- silent _ (start _ _) => apply silent_start; reflexivity
  | |- silent _ (await _) => apply silent_await; reflexivity
  | |- silent _ (waitForSelector _ _ _) =>
      apply silent_waitForSelector; reflexivity
  | |- silent _ (match ?x with _ => _ end) => destruct x
  end.

Ltac silent_auto := repeat silent_step.

(** ** File names of screenshots *)

Lemma takeScreenshot_path (W : World) (name : string) (h : Trace) (p : string) :
  outcome (Utils.takeScreenshot W name) h = Ok p ->
  p = path_join "screenshots" (Utils.filename_of name (clock_read W h)).
Proof.
  unfold Utils.takeScreenshot, Utils.takeScreenshot_in, clock_read.
  intros H.
  apply bind_ok_inv in H as [[] [_ H]].
  apply bind_ok_inv in H as [iso [Hiso H]].
  apply bind_ok_inv in H as [[] [_ H]].
  apply bind_ok_inv in H as [[] [_ H]].
  unfold outcome, request, ret in Hiso, H; simpl in Hiso, H.
  congruence.
Qed.

(** C7 (amended). [takeScreenshot] names the file after the logical name and
    the text of the clock, so two captures with one logical name get the same
    path exactly when they read the same clock text; [testLogin] uses no
    clock: the path before the submission and the final path of a site are
    fixed, differ from each other, and are shared by every site whose name is
    the same in lower case. *)
Theorem screenshot_paths_by_clock_or_fixed :
  (forall (W : World) (name : string) (h1 h2 : Trace) (p1 p2 : string),
     outcome (Utils.takeScreenshot W name) h1 = Ok p1 ->
     outcome (Utils.takeScreenshot W name) h2 = Ok p2 ->
     is_iso (clock_read W h1) = true ->
     is_iso (clock_read W h2) = true ->
     (p1 = p2 <-> clock_read W h1 = clock_read W h2)) /\
  (forall (W : World) (s : LoginTest.LoginSite),
     LoginTest.beforeSubmitPath_of W s <> LoginTest.screenshotPath_of W s) /\
  (forall (W : World) (s s' : LoginTest.LoginSite),
     toLowerCase (LoginTest.name s) = toLowerCase (LoginTest.name s') ->
     LoginTest.screenshotPath_of W s = LoginTest.screenshotPath_of W s' /\
     LoginTest.beforeSubmitPath_of W s = LoginTest.beforeSubmitPath_of W s').
Proof.
  split; [|split].
  - intros W name h1 h2 p1 p2 H1 H2 I1 I2.
    apply takeScreenshot_path in H1, H2. subst p1 p2.
    split; [|intros ->; reflexivity].
    unfold Utils.filename_of. intros E.
    apply path_join_inj in E; try now apply filename_ending_plain.
    injection E as E.
    eapply replace_colon_dot_inj; eassumption.
  - intros W s E.
    unfold LoginTest.beforeSubmitPath_of, LoginTest.screenshotPath_of in E.
    apply path_join_inj in E; [discriminate | reflexivity | reflexivity].
  - intros W s s' E.
    unfold LoginTest.beforeSubmitPath_of, LoginTest.screenshotPath_of.
    now rewrite E.
Qed.

Lemma screenshot_paths_by_clock_or_fixed_witness :
  "screenshots/shot-2024-05-06T07-08-09-123Z.png"
    = "screenshots/shot-2024-05-06T07-08-09-124Z.png"
  <-> clock_read ticking [] = clock_read ticking [Log "one"; Log "two"].
Proof.
  apply (proj1 screenshot_paths_by_clock_or_fixed ticking "shot"
           [] [Log "one"; Log "two"]); reflexivity.
Defined.

(** C7, as stated, fails: the two sites differ in case only, and the run
    asks for each screenshot path twice; and two captures that read the same
    clock text get one path. *)
Lemma screenshot_paths_collide :
  screenshot_paths (emitted (LoginTest.main calm [Demo; demo_lower]) [])
    = ["/app/screenshots/demo-before-submit.png"; "/app/screenshots/demo.png";
       "/app/screenshots/demo-before-submit.png"; "/app/screenshots/demo.png"]
  /\ ~ NoDup (screenshot_paths
               (emitted (LoginTest.main calm [Demo; demo_lower]) []))
  /\ outcome (Utils.takeScreenshot calm "shot") []
     = Ok "screenshots/shot-2024-05-06T07-08-09-123Z.png"
  /\ outcome (Utils.takeScreenshot calm "shot") [Log "one"; Log "two"]
     = Ok "screenshots/shot-2024-05-06T07-08-09-123Z.png".
Proof.
  split; [vm_compute; reflexivity|].
  split; [|split; vm_compute; reflexivity].
  intros N. vm_compute in N.
  inversion N as [|x l Hnot Hrest]; subst.
  apply Hnot. right. left. reflexivity.
Qed.

(** ** The pacing delay *)

Lemma pow2_pos (e : Z) : (0 < pow2 e)%Q.
Proof.
  unfold pow2. destruct (e <? 0)%Z eqn:E.
  - reflexivity.
  - apply Z.ltb_ge in E. rewrite <- (Zlt_Qlt 0). now apply Z.pow_pos_nonneg.
Qed.

Lemma Zpos_to_pos_pow2 (k : Z) : (0 <= k)%Z -> Zpos (Z.to_pos (2 ^ k)) = (2 ^ k)%Z.
Proof.
  intros H. apply Z2Pos.id. now apply Z.pow_pos_nonneg.
Qed.

Lemma Qlog2_sound (q : Q) : (0 < q)%Q -> (pow2 (Qlog2 q) <= q)%Q.
Proof.
  intros Hq. unfold Qlog2.
  set (e := (Z.log2 (Qnum q) - Z.log2 (Zpos (Qden q)))%Z).
  destruct (Qle_bool (pow2 e) q) eqn:E; [now apply Qle_bool_iff|].
  clear E. destruct q as [n d]. unfold Qlt in Hq; simpl in Hq.
  assert (Hn : (0 < n)%Z) by lia.
  subst e. cbn [Qnum Qden].
  pose proof (Z.log2_spec n Hn) as [Hn1 Hn2].
  pose proof (Z.log2_spec (Zpos d) (Pos2Z.is_pos d)) as [Hd1 Hd2].
  pose proof (Z.log2_nonneg n) as Ln.
  pose proof (Z.log2_nonneg (Zpos d)) as Ld.
  set (a := Z.log2 n) in *. set (b := Z.log2 (Zpos d)) in *.
  unfold pow2. destruct (a - b - 1 <? 0)%Z eqn:E.
  - apply Z.ltb_lt in E. unfold Qle; cbn [Qnum Qden].
    rewrite Zpos_to_pos_pow2 by lia.
    replace (- (a - b - 1))%Z with (b + 1 - a)%Z by lia.
    assert (H : (2 ^ (b + 1) = 2 ^ a * 2 ^ (b + 1 - a))%Z).
    { rewrite <- Z.pow_add_r by lia. f_equal. lia. }
    assert (0 < 2 ^ (b + 1 - a))%Z by (apply Z.pow_pos_nonneg; lia).
    nia.
  - apply Z.ltb_ge in E. unfold Qle; cbn [Qnum Qden inject_Z].
    assert (H : (2 ^ a = 2 ^ (a - b - 1) * 2 ^ (b + 1))%Z).
    { rewrite <- Z.pow_add_r by lia. f_equal. lia. }
    assert (0 < 2 ^ (a - b - 1))%Z by (apply Z.pow_pos_nonneg; lia).
    nia.
Qed.

Lemma round_half_even_le (x : Q) (n : Z) :
  (x <= inject_Z n)%Q -> (round_half_even x <= n)%Z.
Proof.
  intros H. unfold round_half_even.
  pose proof (Qfloor_le x) as Hf.
  assert (Hfn : (Qfloor x <= n)%Z).
  { rewrite Zle_Qle. eapply Qle_trans; eassumption. }
  destruct (Z.eq_dec (Qfloor x) n) as [E|E].
  - assert (Hx : (x - inject_Z (Qfloor x) ?= 1 # 2)%Q = Lt).
    { rewrite <- Qlt_alt. rewrite E. lra. }
    now rewrite Hx.
  - destruct (x - inject_Z (Qfloor x) ?= 1 # 2)%Q; [destruct (Z.even _)| |]; lia.
Qed.

Lemma round_half_even_ge (x : Q) (n : Z) :
  (inject_Z n <= x)%Q -> (n <= round_half_even x)%Z.
Proof.
  intros H. unfold round_half_even.
  assert (Hfn : (n <= Qfloor x)%Z).
  { rewrite <- (Qfloor_Z n). now apply Qfloor_resp_le. }
  destruct (x - inject_Z (Qfloor x) ?= 1 # 2)%Q; [destruct (Z.even _)| |]; lia.
Qed.

(** Below two to the 53 the doubles include the whole numbers, so rounding
    does not cross one. *)
Lemma fine_grid (q : Q) :
  (0 < q)%Q -> (q < inject_Z (2 ^ 53))%Q ->
  exists P : positive, pow2 (Z.max (Qlog2 q) (-1022) - 52) = (1 # P)%Q.
Proof.
  intros H0 H1.
  assert (Hl : (Qlog2 q <= 52)%Z).
  { pose proof (Qlog2_sound q H0) as Hs.
    destruct (Z_le_gt_dec (Qlog2 q) 52) as [|Hgt]; [assumption|exfalso].
    unfold pow2 in Hs. destruct (Qlog2 q <? 0)%Z eqn:E; [apply Z.ltb_lt in E; lia|].
    assert (inject_Z (2 ^ 53) <= inject_Z (2 ^ Qlog2 q))%Q.
    { rewrite <- Zle_Qle. apply Z.pow_le_mono_r; lia. }
    lra. }
  unfold pow2. destruct (_ <? 0)%Z eqn:E.
  - eexists. reflexivity.
  - apply Z.ltb_ge in E.
    replace (Z.max (Qlog2 q) (-1022) - 52)%Z with 0%Z by lia.
    exists 1%positive. reflexivity.
Qed.

Lemma nearest_positive_le (q : Q) (n : Z) :
  (0 < q)%Q -> (q < inject_Z (2 ^ 53))%Q -> (q <= inject_Z n)%Q ->
  (nearest_positive q <= inject_Z n)%Q.
Proof.
  intros H0 H1 H. unfold nearest_positive.
  destruct (fine_grid q H0 H1) as [P ->].
  assert (Hr : (round_half_even (q / (1 # P)) <= n * Zpos P)%Z).
  { apply round_half_even_le. unfold Qdiv, Qinv; cbn [Qnum Qden].
    unfold Qle in *; cbn [Qnum Qden Qmult inject_Z] in *. nia. }
  unfold Qle; cbn [Qnum Qden Qmult inject_Z]. nia.
Qed.

Lemma nearest_positive_ge (q : Q) (n : Z) :
  (0 < q)%Q -> (q < inject_Z (2 ^ 53))%Q -> (inject_Z n <= q)%Q ->
  (inject_Z n <= nearest_positive q)%Q.
Proof.
  intros H0 H1 H. unfold nearest_positive.
  destruct (fine_grid q H0 H1) as [P ->].
  assert (Hr : (n * Zpos P <= round_half_even (q / (1 # P)))%Z).
  { apply round_half_even_ge. unfold Qdiv, Qinv; cbn [Qnum Qden].
    unfold Qle in *; cbn [Qnum Qden Qmult inject_Z] in *. nia. }
  unfold Qle; cbn [Qnum Qden Qmult inject_Z]. nia.
Qed.

Lemma below_MAX_VALUE (q : Q) (b : Z) :
  (b <= 2 ^ 53)%Z -> (q <= inject_Z b)%Q -> Qle_bool q MAX_VALUE = true.
Proof.
  intros Hb H. apply Qle_bool_iff. eapply Qle_trans; [eassumption|].
  unfold MAX_VALUE. rewrite <- Zle_Qle.
  etransitivity; [eassumption|]. vm_compute. discriminate.
Qed.

(** Rounding keeps a result between the whole numbers it lies between, as
    long as these are below two to the 53 in size. *)
Lemma to_number_within (a b : Z) (q : Q) :
  (- 2 ^ 53 < a)%Z -> (b < 2 ^ 53)%Z ->
  (inject_Z a <= q)%Q -> (q <= inject_Z b)%Q ->
  within a b (to_number q).
Proof.
  intros Ha Hb Hqa Hqb. unfold to_number.
  destruct (q ?= 0)%Q eqn:E.
  - apply Qeq_alt in E. exists 0%Q. split; [reflexivity|]. split; lra.
  - apply Qlt_alt in E.
    assert (Hq : (- q < inject_Z (2 ^ 53))%Q).
    { assert (inject_Z (- 2 ^ 53) < inject_Z a)%Q by now rewrite <- Zlt_Qlt.
      rewrite inject_Z_opp in H. lra. }
    assert (H0 : (0 < - q)%Q) by lra.
    assert (Hu : (nearest_positive (- q) <= inject_Z (- a))%Q).
    { apply nearest_positive_le; try assumption. rewrite inject_Z_opp. lra. }
    assert (Hl : (inject_Z (- b) <= nearest_positive (- q))%Q).
    { apply nearest_positive_ge; try assumption. rewrite inject_Z_opp. lra. }
    rewrite (below_MAX_VALUE _ (- a)) by (assumption || lia).
    eexists. split; [reflexivity|].
    rewrite inject_Z_opp in Hu, Hl. split; lra.
  - apply Qgt_alt in E.
    assert (Hq : (q < inject_Z (2 ^ 53))%Q).
    { assert (inject_Z b < inject_Z (2 ^ 53))%Q by now rewrite <- Zlt_Qlt.
      lra. }
    assert (Hu : (nearest_positive q <= inject_Z b)%Q)
      by now apply nearest_positive_le.
    assert (Hl : (inject_Z a <= nearest_positive q)%Q)
      by now apply nearest_positive_ge.
    rewrite (below_MAX_VALUE _ b) by (assumption || lia).
    eexists. split; [reflexivity|]. split; assumption.
Qed.

Lemma inject_Z_minus (a b : Z) :
  (inject_Z (a - b) == inject_Z a - inject_Z b)%Q.
Proof.
  unfold Z.sub. rewrite inject_Z_plus, inject_Z_opp. reflexivity.
Qed.

Lemma mul_fraction_between (r d : Q) (c : Z) :
  (0 <= r)%Q -> (r < 1)%Q -> (inject_Z c <= d)%Q -> (d <= inject_Z c)%Q ->
  (inject_Z (Z.min 0 c) <= r * d)%Q /\ (r * d <= inject_Z (Z.max 0 c))%Q.
Proof.
  intros H0 H1 Hd1 Hd2.
  destruct (Z_le_gt_dec 0 c) as [Hc|Hc].
  - rewrite Z.min_l, Z.max_r by lia.
    rewrite Zle_Qle in Hc. change (inject_Z 0) with 0%Q in *.
    assert (0 <= r * d)%Q by (apply Qmult_le_0_compat; lra).
    assert (0 <= (1 - r) * d)%Q by (apply Qmult_le_0_compat; lra).
    split; lra.
  - rewrite Z.min_r, Z.max_l by lia.
    assert (Hc' : (c < 0)%Z) by lia.
    rewrite Zlt_Qlt in Hc'. change (inject_Z 0) with 0%Q in *.
    assert (0 <= r * - d)%Q by (apply Qmult_le_0_compat; lra).
    assert (0 <= (1 - r) * - d)%Q by (apply Qmult_le_0_compat; lra).
    split; lra.
Qed.

(** The delay lies between the bounds, whichever of them is the larger. *)
Lemma waitTime_of_between (r : Q) (a b : Z) :
  (0 <= r)%Q -> (r < 1)%Q ->
  (0 <= a < 2 ^ 52)%Z -> (0 <= b < 2 ^ 52)%Z ->
  exists t : Z,
    Utils.waitTime_of r (inject_Z a) (inject_Z b) = Int t /\
    (Z.min a b <= t <= Z.max a b)%Z.
Proof.
  intros H0 H1 Ha Hb. unfold Utils.waitTime_of, num_sub, num_neg, num_add at 2.
  assert (Hd : within (b - a) (b - a) (to_number (inject_Z b + - inject_Z a))).
  { apply to_number_within; try lia; rewrite inject_Z_minus; lra. }
  destruct Hd as (d & Ed & Hd1 & Hd2). rewrite Ed. cbn [num_mul].
  assert (Hx : within (Z.min 0 (b - a)) (Z.max 0 (b - a)) (to_number (r * d))).
  { apply to_number_within; try lia; now apply mul_fraction_between. }
  destruct Hx as (x & Ex & Hx1 & Hx2). rewrite Ex. cbn [num_add].
  assert (Hy : within (Z.min a b) (Z.max a b) (to_number (x + inject_Z a))).
  { apply to_number_within; try lia.
    - destruct (Z_le_gt_dec a b) as [Hab|Hab].
      + rewrite Z.min_l in * by lia. change (inject_Z 0) with 0%Q in Hx1. lra.
      + rewrite Z.min_r in * by lia. rewrite inject_Z_minus in Hx1. lra.
    - destruct (Z_le_gt_dec a b) as [Hab|Hab].
      + rewrite Z.max_r in * by lia. rewrite inject_Z_minus in Hx2. lra.
      + rewrite Z.max_l in * by lia. change (inject_Z 0) with 0%Q in Hx2. lra. }
  destruct Hy as (y & Ey & Hy1 & Hy2). rewrite Ey. cbn [Math_floor].
  eexists. split; [reflexivity|]. split.
  - rewrite <- (Qfloor_Z (Z.min a b)). now apply Qfloor_resp_le.
  - rewrite Zle_Qle. eapply Qle_trans; [apply Qfloor_le|assumption].
Qed.

Lemma show_number_small (t : Z) :
  (0 <= t < 2 ^ 53)%Z -> show_number (Int t) = show_Z t.
Proof.
  intros [H0 H1]. unfold show_number, show_magnitude.
  destruct (Z.ltb_spec t 0); [lia|].
  destruct (Z.ltb_spec t (2 ^ 53)); [reflexivity | lia].
Qed.

Lemma timer_delay_small (t : Z) :
  (0 <= t <= TIMEOUT_MAX)%Z -> timer_delay (Int t) = Z.to_N (Z.max 1 t).
Proof.
  intros [H0 H1]. unfold timer_delay.
  destruct (Z.leb_spec 1 t); destruct (Z.leb_spec t TIMEOUT_MAX);
    cbn [andb]; lia.
Qed.

Lemma randomWait_run (W : World) (h : Trace) (min max : Q) :
  Utils.randomWait W min max h =
  let t := Utils.waitTime_of (w_random W h) min max in
  (Ok tt,
   [Req MathRandom; Log ("Waiting for " +++ show_number t +++ "ms...");
    Req (SetTimeout t); Elapsed (timer_delay t)]).
Proof. reflexivity. Qed.

(** The run of [randomWait] for whole bounds a timer takes, in any order. *)
Lemma randomWait_between (W : World) (h : Trace) (a b : Z) :
  (0 <= w_random W h)%Q -> (w_random W h < 1)%Q ->
  (0 <= a <= TIMEOUT_MAX)%Z -> (0 <= b <= TIMEOUT_MAX)%Z ->
  exists t : Z,
    Utils.waitTime_of (w_random W h) (inject_Z a) (inject_Z b) = Int t /\
    (Z.min a b <= t <= Z.max a b)%Z /\
    Utils.randomWait W (inject_Z a) (inject_Z b) h =
      (Ok tt,
       [Req MathRandom; Log ("Waiting for " +++ show_Z t +++ "ms...");
        Req (SetTimeout (Int t)); Elapsed (Z.to_N (Z.max 1 t))]).
Proof.
  intros H0 H1 Ha Hb. unfold TIMEOUT_MAX in *.
  destruct (waitTime_of_between (w_random W h) a b) as (t & Et & Ht);
    try assumption; try lia.
  exists t. split; [exact Et|]. split; [exact Ht|].
  rewrite randomWait_run, Et. cbv zeta.
  rewrite show_number_small by lia.
  rewrite timer_delay_small by (unfold TIMEOUT_MAX; lia).
  reflexivity.
Qed.

(** C9 (amended). For whole bounds [0 <= min <= max] that a timer takes and
    a random number in [0, 1), the delay [randomWait] chooses is
    [Math.floor(random * (max - min) + min)], computed in double precision;
    it is at least [min] and at most [max], and [min] itself when the bounds
    are equal. [randomWait] prints the delay and suspends the caller for
    it, for one millisecond when the delay is 0. *)
Theorem randomWait_delay_in_range :
  forall (W : World) (h : Trace) (min max : Z),
    (0 <= w_random W h)%Q -> (w_random W h < 1)%Q ->
    (0 <= min)%Z -> (min <= max)%Z -> (max <= TIMEOUT_MAX)%Z ->
    exists t : Z,
      Utils.waitTime_of (w_random W h) (inject_Z min) (inject_Z max) = Int t /\
      (min <= t <= max)%Z /\
      (min = max -> t = min) /\
      Utils.randomWait W (inject_Z min) (inject_Z max) h =
        (Ok tt,
         [Req MathRandom; Log ("Waiting for " +++ show_Z t +++ "ms...");
          Req (SetTimeout (Int t)); Elapsed (Z.to_N (Z.max 1 t))]).
Proof.
  intros W h min max H0 H1 Hmin Hle Hmax.
  destruct (randomWait_between W h min max) as (t & Et & Ht & Hrun);
    try assumption; try lia.
  rewrite Z.min_l, Z.max_r in Ht by lia.
  exists t. repeat split; try assumption; lia.
Qed.

Lemma randomWait_delay_in_range_witness :
  exists t : Z,
    Utils.waitTime_of (w_random high_roll []) (inject_Z 2000) (inject_Z 4000)
      = Int t /\
    (2000 <= t <= 4000)%Z /\
    (2000%Z = 4000%Z -> t = 2000%Z) /\
    Utils.randomWait high_roll (inject_Z 2000) (inject_Z 4000) [] =
      (Ok tt,
       [Req MathRandom; Log ("Waiting for " +++ show_Z t +++ "ms...");
        Req (SetTimeout (Int t)); Elapsed (Z.to_N (Z.max 1 t))]).
Proof.
  apply (randomWait_delay_in_range high_roll [] 2000 4000).
  - vm_compute. discriminate.
  - reflexivity.
  - lia.
  - lia.
  - vm_compute. discriminate.
Defined.

(** C9, as stated, fails. With the bounds 3000 and 6000 a random number
    just below 1 gives the delay 6000, which is not below the upper bound:
    the sum is rounded to the nearest double. For equal bounds the delay is
    the bound. And for bounds that are not whole numbers the delay can be
    below the lower bound: between one half and three halves it can be 0. *)
Lemma randomWait_delay_not_below_max :
  (0 <= w_random high_roll [])%Q /\ (w_random high_roll [] < 1)%Q /\
  Utils.randomWait high_roll 3000 6000 [] =
    (Ok tt,
     [Req MathRandom; Log "Waiting for 6000ms...";
      Req (SetTimeout (Int 6000)); Elapsed 6000]) /\
  Utils.randomWait calm 1000 1000 [] =
    (Ok tt,
     [Req MathRandom; Log "Waiting for 1000ms...";
      Req (SetTimeout (Int 1000)); Elapsed 1000]) /\
  ((1 # 2) <= (3 # 2))%Q /\
  Utils.waitTime_of (w_random calm []) (1 # 2) (3 # 2) = Int 0 /\
  (inject_Z 0 < (1 # 2))%Q.
Proof.
  split; [vm_compute; discriminate|].
  split; [reflexivity|].
  split; [vm_compute; reflexivity|].
  split; [vm_compute; reflexivity|].
  split; [vm_compute; discriminate|].
  split; [vm_compute; reflexivity | reflexivity].
Qed.

(** ** The verdict of a login *)

Section Verdict.

Import LoginTest.

Lemma race_two {A} (p q : Promise A) :
  race p [q] =
  if (rank q <? rank p)%N then Pending (delay q) (settles_with q)
  else Pending (delay p) (settles_with p).
Proof.
  unfold race; simpl. now destruct (rank q <? rank p)%N.
Qed.

Lemma rank_then {A B} (p : Promise A) (f : A -> B) :
  rank (then_ p f) = N.succ (delay p).
Proof. reflexivity. Qed.

Lemma signals_with_failure (W : World) (s : LoginSite) (h : Trace) (f : string) :
  failureIndicator s = Some f -> truthy (Some f) = true ->
  signals W s h =
  let won := race (then_ (success_wait W s h)
                     (fun _ => Some (true, "Login successful")))
                  [then_ (failure_wait W s f h)
                     (fun _ => Some (false, "Login failed - error message detected"))] in
  (settles_with won,
   [Req (WaitForSelector (successIndicator s) (Some 10000%N));
    Req (WaitForSelector f (Some 10000%N));
    Elapsed (delay won)]).
Proof.
  intros Hf Ht. unfold signals. rewrite Hf, Ht. reflexivity.
Qed.

Lemma signals_without_failure (W : World) (s : LoginSite) (h : Trace) :
  truthy (failureIndicator s) = false ->
  signals W s h =
  (Ok None,
   [Req (WaitForSelector (successIndicator s) (Some 10000%N)); Elapsed 0]).
Proof.
  intros Ht. unfold signals. rewrite Ht.
  unfold bind, waitForSelector, ret, await. cbn [app fst snd].
  rewrite race_two, rank_then.
  cbn [rank].
  replace (0 <? N.succ _)%N with true by (symmetry; apply N.ltb_lt; lia).
  reflexivity.
Qed.

Lemma wait_promise_fulfilled (sel : string) (timeout t : N) :
  (t < timeout)%N -> wait_promise sel timeout (Appears t) = Pending t (Ok tt).
Proof.
  intros H. unfold wait_promise.
  now replace (t <? timeout)%N with true by (symmetry; now apply N.ltb_lt).
Qed.

(** C3. With a success and a failure indicator, the signal that shows up
    first within the ten seconds decides: the success indicator gives
    [Login successful], the failure indicator gives
    [Login failed - error message detected]; the verdict is returned when the
    winner settles and whatever the other wait does later is not looked at. *)
Theorem first_signal_decides_verdict :
  forall (W : World) (s : LoginSite) (h : Trace) (f : string),
    failureIndicator s = Some f -> truthy (Some f) = true ->
    (forall ts : N,
       w_wait W h (successIndicator s) = Appears ts ->
       (ts < 10000)%N ->
       (ts < delay (failure_wait W s f h))%N ->
       checkLoginResult W s h =
         (Ok (true, "Login successful"),
          [Req (WaitForSelector (successIndicator s) (Some 10000%N));
           Req (WaitForSelector f (Some 10000%N)); Elapsed ts]))
    /\
    (forall tf : N,
       w_wait W (h ++ [Req (WaitForSelector (successIndicator s) (Some 10000%N))]) f
         = Appears tf ->
       (tf < 10000)%N ->
       (tf < delay (success_wait W s h))%N ->
       checkLoginResult W s h =
         (Ok (false, "Login failed - error message detected"),
          [Req (WaitForSelector (successIndicator s) (Some 10000%N));
           Req (WaitForSelector f (Some 10000%N)); Elapsed tf])).
Proof.
  intros W s h f Hf Ht. split.
  - intros ts Hs Hin Hfirst.
    unfold checkLoginResult, try_catch, bind.
    rewrite (signals_with_failure W s h f Hf Ht). cbv zeta.
    rewrite race_two, !rank_then.
    replace (success_wait W s h) with (@Pending unit ts (Ok tt))
      by (unfold success_wait; rewrite Hs; symmetry;
          now apply wait_promise_fulfilled).
    cbn [delay].
    replace (N.succ (delay (failure_wait W s f h)) <? N.succ ts)%N with false
      by (symmetry; apply N.ltb_ge; lia).
    reflexivity.
  - intros tf Hfa Hin Hfirst.
    unfold checkLoginResult, try_catch, bind.
    rewrite (signals_with_failure W s h f Hf Ht). cbv zeta.
    rewrite race_two, !rank_then.
    replace (failure_wait W s f h) with (@Pending unit tf (Ok tt))
      by (unfold failure_wait; rewrite Hfa; symmetry;
          now apply wait_promise_fulfilled).
    cbn [delay].
    replace (N.succ tf <? N.succ (delay (success_wait W s h)))%N with true
      by (symmetry; apply N.ltb_lt; lia).
    reflexivity.
Qed.

Lemma wait_promise_rejected (sel : string) (timeout : N) (f : WaitFate) :
  resolves_within timeout f = false ->
  exists (e : JsError) (d : N),
    (d <= timeout)%N /\ wait_promise sel timeout f = Pending d (Throw e).
Proof.
  destruct f as [t| |t e]; simpl; intros H.
  - rewrite H. eexists _, timeout. split; [lia | reflexivity].
  - eexists _, timeout. split; [lia | reflexivity].
  - destruct (t <? timeout)%N eqn:E.
    + apply N.ltb_lt in E. exists e, t. split; [lia | reflexivity].
    + eexists _, timeout. split; [lia | reflexivity].
Qed.

(** When the race ends without a verdict, the page is looked at once,
    without waiting: [Login appears successful] when the success indicator
    is there, [Login status unclear] when it is not. When the race is
    rejected, as it is when a failure indicator is defined and neither
    indicator shows up within the ten seconds, the page is not looked at and
    the verdict is a failure whose message carries the error. *)
Lemma fallback_after_no_verdict_error_after_rejection :
  (forall (W : World) (s : LoginSite) (h : Trace),
     outcome (signals W s) h = Ok None ->
     checkLoginResult W s h =
       (match w_query W (h ++ emitted (signals W s) h) (successIndicator s) with
        | Ok present => Ok (fallback_verdict present)
        | Throw e => Ok (false, "Error checking login status: " +++ String_of e)
        end,
        emitted (signals W s) h ++ [Req (Query (successIndicator s))]))
  /\
  (forall (W : World) (s : LoginSite) (h : Trace) (f : string),
     failureIndicator s = Some f -> truthy (Some f) = true ->
     resolves_within 10000 (w_wait W h (successIndicator s)) = false ->
     resolves_within 10000
       (w_wait W (h ++ [Req (WaitForSelector (successIndicator s) (Some 10000%N))]) f)
       = false ->
     exists (e : JsError) (d : N),
       (d <= 10000)%N /\
       checkLoginResult W s h =
         (Ok (false, "Error checking login status: " +++ String_of e),
          [Req (WaitForSelector (successIndicator s) (Some 10000%N));
           Req (WaitForSelector f (Some 10000%N)); Elapsed d])).
Proof.
  split.
  - intros W s h Hnone.
    unfold checkLoginResult. rewrite try_catch_run, bind_outcome, bind_emitted.
    rewrite Hnone. unfold fallback, query, request, ret, bind, outcome, emitted.
    cbn [fst snd].
    destruct (w_query W _ (successIndicator s)) as [present|e];
      cbn [fst snd app]; rewrite ?app_nil_r; reflexivity.
  - intros W s h f Hf Ht Hs Hfa.
    destruct (wait_promise_rejected (successIndicator s) _ _ Hs)
      as (es & ds & Hds & Es).
    destruct (wait_promise_rejected f _ _ Hfa) as (ef & df & Hdf & Ef).
    unfold checkLoginResult, try_catch, bind.
    rewrite (signals_with_failure W s h f Hf Ht). cbv zeta.
    rewrite race_two, !rank_then.
    unfold success_wait, failure_wait. rewrite Es, Ef. cbn [delay].
    destruct (N.succ df <? N.succ ds)%N.
    + exists ef, df. split; [exact Hdf | reflexivity].
    + exists es, ds. split; [exact Hds | reflexivity].
Qed.

Lemma fallback_and_rejection_examples :
  checkLoginResult calm OrangeHRM [] =
    (Ok (true, "Login appears successful"),
     [Req (WaitForSelector ".oxd-userdropdown" (Some 10000%N)); Elapsed 0;
      Req (Query ".oxd-userdropdown")])
  /\
  exists (e : JsError) (d : N),
    (d <= 10000)%N /\
    checkLoginResult late_success Demo [] =
      (Ok (false, "Error checking login status: " +++ String_of e),
       [Req (WaitForSelector ".dashboard" (Some 10000%N));
        Req (WaitForSelector ".error-banner" (Some 10000%N)); Elapsed d]).
Proof.
  split.
  - apply (proj1 fallback_after_no_verdict_error_after_rejection
             calm OrangeHRM []).
    reflexivity.
  - apply (proj2 fallback_after_no_verdict_error_after_rejection
             late_success Demo [] ".error-banner"); reflexivity.
Qed.

(** C1: what the script does on a site with a failure indicator when
    neither indicator shows up within the ten seconds. Both waits are
    rejected, the race is rejected with them, and the inner [catch] reports
    the error of the wait: the page is not looked at, also when the success
    indicator is there right after the waits ran out, and on a page where
    nothing ever shows up the message is not [Login status unclear]. *)
Theorem timeout_skips_fallback :
  resolves_within 10000 (w_wait late_success [] ".dashboard") = false /\
  resolves_within 10000
    (w_wait late_success
       [Req (WaitForSelector ".dashboard" (Some 10000%N))] ".error-banner")
    = false /\
  w_query late_success
    (emitted (signals late_success Demo) []) ".dashboard" = Ok true /\
  outcome (checkLoginResult late_success Demo) [] <> Ok (fallback_verdict true) /\
  outcome (checkLoginResult late_success Demo) [] <> Ok (fallback_verdict false) /\
  queries (emitted (checkLoginResult late_success Demo) []) = [] /\
  outcome (checkLoginResult late_success Demo) [] =
    Ok (false,
        "Error checking login status: TimeoutError: Waiting for selector "
        +++ "`.dashboard` failed: Waiting failed: 10000ms exceeded") /\
  checkLoginResult nothing_shows Demo [] =
    (Ok (false,
         "Error checking login status: TimeoutError: Waiting for selector "
         +++ "`.dashboard` failed: Waiting failed: 10000ms exceeded"),
     [Req (WaitForSelector ".dashboard" (Some 10000%N));
      Req (WaitForSelector ".error-banner" (Some 10000%N)); Elapsed 10000]) /\
  outcome (checkLoginResult nothing_shows Demo) [] <> Ok (fallback_verdict false).
Proof.
  repeat split; try (vm_compute; reflexivity); vm_compute; discriminate.
Qed.

Lemma first_signal_decides_verdict_witness :
  checkLoginResult success_2s_failure_5s Demo [] =
    (Ok (true, "Login successful"),
     [Req (WaitForSelector ".dashboard" (Some 10000%N));
      Req (WaitForSelector ".error-banner" (Some 10000%N)); Elapsed 2000]).
Proof.
  apply (proj1 (first_signal_decides_verdict success_2s_failure_5s Demo []
                  ".error-banner" eq_refl eq_refl) 2000%N).
  - reflexivity.
  - reflexivity.
  - vm_compute. reflexivity.
Defined.

(** Without a failure indicator the verdict is that of one look at the page
    at the moment the race starts: the success wait has no say. *)
Lemma without_failure_indicator_no_wait (W : World) (s : LoginSite) (h : Trace) :
  truthy (failureIndicator s) = false ->
  let h' := h ++ [Req (WaitForSelector (successIndicator s) (Some 10000%N));
                  Elapsed 0] in
  checkLoginResult W s h =
    (match w_query W h' (successIndicator s) with
     | Ok present => Ok (fallback_verdict present)
     | Throw e => Ok (false, "Error checking login status: " +++ String_of e)
     end,
     [Req (WaitForSelector (successIndicator s) (Some 10000%N)); Elapsed 0;
      Req (Query (successIndicator s))]).
Proof.
  intros Ht h'.
  unfold checkLoginResult, try_catch, bind.
  rewrite (signals_without_failure W s h Ht).
  unfold fallback, query, request, ret, bind. cbn [app]. fold h'.
  destruct (w_query W h' (successIndicator s)); reflexivity.
Qed.

(** C2: what the script does on the site of [main], which has no failure
    indicator, when the success indicator shows up three seconds after the
    form is submitted. The page is looked at after 0 ms, the indicator is
    not there yet, and the login is reported as unclear; the same page with
    a failure indicator defined is waited for and reported as successful. *)
Theorem no_failure_indicator_polls_at_once :
  checkLoginResult after_3s OrangeHRM [] =
    (Ok (false, "Login status unclear - could not find success indicator"),
     [Req (WaitForSelector ".oxd-userdropdown" (Some 10000%N)); Elapsed 0;
      Req (Query ".oxd-userdropdown")])
  /\
  checkLoginResult after_3s Demo [] =
    (Ok (true, "Login successful"),
     [Req (WaitForSelector ".dashboard" (Some 10000%N));
      Req (WaitForSelector ".error-banner" (Some 10000%N)); Elapsed 3000]).
Proof.
  split; vm_compute; reflexivity.
Qed.

End Verdict.


(** ** One login test *)

Section Login.

Import LoginTest.

Lemma conclude_result (W : World) (s : LoginSite) (h : Trace)
  (r : VerificationResult) :
  outcome (conclude W s) h = Ok r ->
  site r = name s /\ screenshotPath r = screenshotPath_of W s.
Proof.
  unfold conclude. intros H. bind_inv H.
  unfold outcome, ret in H; simpl in H. injection H as <-. split; reflexivity.
Qed.

Lemma attempt_result (W : World) (s : LoginSite) (h : Trace)
  (r : VerificationResult) :
  outcome (attempt W s) h = Ok r ->
  site r = name s /\ screenshotPath r = screenshotPath_of W s.
Proof.
  unfold attempt. intros H.
  do 3 (let a := fresh "a" in let Ha := fresh "Ha" in
        apply bind_ok_inv in H as [a [Ha H]]).
  eapply conclude_result; eassumption.
Qed.

(** The outer [catch] never throws: a screenshot that fails there is logged
    and dropped, and the result carries the error the [catch] was entered
    with. *)
Lemma recover_result (W : World) (s : LoginSite) (e : JsError) (h : Trace) :
  outcome (recover W s e) h =
    Ok {| site := name s;
          success := false;
          message := "Error testing login: " +++ String_of e;
          screenshotPath := screenshotPath_of W s |}.
Proof.
  unfold recover. rewrite !bind_outcome. cbn [outcome console_error emit fst].
  rewrite try_catch_outcome.
  destruct (outcome (perform W _) _); reflexivity.
Qed.


(** The guarded part of [testLogin] always ends with a result. *)
Lemma guarded_part_result (W : World) (s : LoginSite) (h : Trace) :
  exists r : VerificationResult,
    outcome (try_catch (attempt W s) (recover W s)) h = Ok r /\
    site r = name s /\
    screenshotPath r = screenshotPath_of W s.
Proof.
  rewrite try_catch_outcome.
  destruct (outcome (attempt W s) h) as [r|e] eqn:E.
  - exists r. split; [reflexivity|]. eapply attempt_result; eassumption.
  - rewrite recover_result. eexists. repeat split.
Qed.



(** The run of the witness: the final path is asked for twice, after the
    verdict and in the outer [catch]. *)
Lemma final_path_asked_twice :
  screenshot_paths (emitted (testLogin final_shot_fails Demo) []) =
    ["/app/screenshots/demo-before-submit.png"; "/app/screenshots/demo.png";
     "/app/screenshots/demo.png"].
Proof. vm_compute. reflexivity. Qed.

(** *** The session is closed by the [finally] only *)

Lemma guarded_part_no_close (W : World) (s : LoginSite) :
  silent is_close (try_catch (attempt W s) (recover W s)).
Proof.
  unfold attempt, fill, conclude, submit, checkLoginResult, signals, fallback,
    recover.
  silent_auto.
Qed.

(** Once the [try] is entered the browser is closed exactly once, however
    the steps inside end. *)
Lemma guarded_part_closes_once (W : World) (s : LoginSite) (h : Trace) :
  filter is_close
    (emitted (try_finally (try_catch (attempt W s) (recover W s)) (release W)) h)
  = [Req BrowserClose].
Proof.
  unfold emitted. rewrite try_finally_run. cbn [snd].
  rewrite filter_app, guarded_part_no_close.
  unfold release. rewrite bind_emitted.
  unfold perform, request, outcome, emitted. cbn [fst snd].
  destruct (w_do W _ BrowserClose); reflexivity.
Qed.

(** C4: what the script does when the viewport cannot be set. The session is
    created and the browser connected, the error leaves [testLogin] before
    its [try] is entered, and the browser is never closed; [main] goes on to
    the next site with the first session still open. The stealth test closes
    its browser on the path without errors only. *)
Theorem viewport_failure_leaks_session :
  testLogin viewport_fails Demo [] =
    (Throw (ErrorObj "Error" "Protocol error: Connection closed."),
     [Log "Testing login for Demo..."; Req (SessionsCreate (Some true) None);
      Log "Session created: s1"; Req (PuppeteerConnect "wss://s1");
      Log "Connected to browser";
      Log "🔍 Live View Link: https://www.browserbase.com/sessions/s1";
      Log "👆 Open this URL to view the session in real-time in Browserbase dashboard";
      Req BrowserPages; Req (SetViewport 1280 800)])
  /\
  (let run := emitted (main viewport_fails [Demo; demo_lower]) [] in
   filter is_create run =
     [Req (SessionsCreate (Some true) None);
      Req (SessionsCreate (Some true) None)] /\
   filter is_close run = [])
  /\
  (let run := emitted (StealthTest.main first_site_down StealthTest.testSites) [] in
   filter is_create run = [Req (SessionsCreate (Some true) (Some true))] /\
   filter is_close run = []).
Proof.
  repeat split; vm_compute; reflexivity.
Qed.

(** *** The loop over the sites *)

Lemma testLogin_start_lines (W : World) (s : LoginSite) (h : Trace) :
  filter is_start_line (emitted (testLogin W s) h) = [start_line s].
Proof.
  unfold testLogin. rewrite bind_emitted.
  cbn [outcome console_log emit fst emitted snd].
  rewrite filter_app.
  match goal with |- _ ++ filter _ (emitted ?m ?h') = _ =>
    assert (Hs : silent is_start_line m) end.
  { unfold attempt, fill, conclude, submit, checkLoginResult, signals,
      fallback, recover, release.
    silent_auto. }
  rewrite Hs. unfold start_line. simpl. reflexivity.
Qed.

Lemma iteration_never_throws (W : World) (s : LoginSite) (h : Trace) :
  outcome (iteration W s) h = Ok tt.
Proof.
  unfold iteration. rewrite try_catch_outcome.
  destruct (outcome (testLogin W s;; ret tt) h) as [[]|e]; reflexivity.
Qed.

Lemma iteration_start_lines (W : World) (s : LoginSite) (h : Trace) :
  filter is_start_line (emitted (iteration W s) h) = [start_line s].
Proof.
  unfold iteration, emitted. rewrite try_catch_run.
  assert (E : filter is_start_line (emitted (testLogin W s;; ret tt) h)
              = [start_line s]).
  { rewrite bind_emitted.
    destruct (outcome (testLogin W s) h).
    - rewrite filter_app, testLogin_start_lines. reflexivity.
    - apply testLogin_start_lines. }
  destruct (outcome (testLogin W s;; ret tt) h); cbn [snd].
  - exact E.
  - rewrite filter_app, E. reflexivity.
Qed.

Lemma for_of_iterations (W : World) (sites : list LoginSite) :
  forall h,
    outcome (for_of sites (iteration W)) h = Ok tt /\
    filter is_start_line (emitted (for_of sites (iteration W)) h)
      = map start_line sites.
Proof.
  induction sites as [|s rest IH]; intros h.
  - split; reflexivity.
  - cbn [for_of]. rewrite bind_outcome, bind_emitted.
    rewrite iteration_never_throws.
    destruct (IH (h ++ emitted (iteration W s) h)) as [Ho He].
    split; [exact Ho|].
    rewrite filter_app, iteration_start_lines, He. reflexivity.
Qed.



End Login.

(** ** The stealth test never throws, and stops at the first failure *)



Section Runs.

Import LoginTest.




Lemma perform_outcome (W : World) (c : Call) (h : Trace) :
  outcome (perform W c) h = w_do W h c.
Proof. reflexivity. Qed.

Lemma submit_run (W : World) (s : LoginSite) (h : Trace) :
  submit W s h =
    (w_do W (h ++ [Req (WaitForNavigation (Some "networkidle2") None)])
       (Click (submitSelector s)),
     [Req (WaitForNavigation (Some "networkidle2") None);
      Req (Click (submitSelector s)); Elapsed (submit_time W s h)]).
Proof.
  unfold submit, submit_time, bind, start, await. cbn [app].
  destruct (w_do W h _) as [[]|e];
    destruct (w_do W (h ++ _) _) as [[]|e']; reflexivity.
Qed.

Lemma submit_outcome (W : World) (s : LoginSite) (h : Trace) :
  outcome (submit W s) h =
    w_do W (h ++ [Req (WaitForNavigation (Some "networkidle2") None)])
      (Click (submitSelector s)).
Proof. unfold outcome. now rewrite submit_run. Qed.

Lemma submit_emitted (W : World) (s : LoginSite) (h : Trace) :
  emitted (submit W s) h =
    [Req (WaitForNavigation (Some "networkidle2") None);
     Req (Click (submitSelector s)); Elapsed (submit_time W s h)].
Proof. unfold emitted. now rewrite submit_run. Qed.

(** C8 (amended). The step that submits the login form asks for the
    navigation wait first and for the click while that wait is pending,
    awaits both together, and ends as the click ends, whatever the
    navigation wait does: after both when the click succeeds, with the click
    when it fails. The step that submits the search presses Enter first and
    asks for the navigation wait, with its timeout of 10000 ms, only when
    the key press has ended well; it ends as the key press ends, and a
    navigation wait that fails is logged and dropped. When the form has been
    filled in and the click succeeds, the login test goes on to check the
    result. *)
Theorem submit_ignores_navigation :
  (forall (W : World) (s : LoginSite) (h : Trace),
     let nav := WaitForNavigation (Some "networkidle2") None in
     let click := Click (submitSelector s) in
     submit W s h =
       (w_do W (h ++ [Req nav]) click,
        [Req nav; Req click;
         Elapsed
           match w_do W (h ++ [Req nav]) click with
           | Ok _ => N.max (w_took W h nav) (w_took W (h ++ [Req nav]) click)
           | Throw _ => w_took W (h ++ [Req nav]) click
           end]))
  /\
  (forall (W : World) (h : Trace),
     let press :=
       [Log "Pressing Enter to search..."; Req (KeyboardPress "Enter")] in
     let wait :=
       [Log "Waiting for search results...";
        Req (WaitForNavigation None (Some 10000%N))] in
     StealthTest.submit W h =
       match w_do W (h ++ [Log "Pressing Enter to search..."])
                  (KeyboardPress "Enter") with
       | Throw e => (Throw e, press)
       | Ok _ =>
           (Ok tt,
            press ++ wait ++
            match w_do W (h ++ press ++ [Log "Waiting for search results..."])
                       (WaitForNavigation None (Some 10000%N)) with
            | Ok _ => []
            | Throw _ => [Log "Navigation timeout - continuing anyway"]
            end)
       end)
  /\
  (forall (W : World) (s : LoginSite) (h : Trace),
     let nav := WaitForNavigation (Some "networkidle2") None in
     let click := Click (submitSelector s) in
     let before := emitted (fill W s) h ++ [Log "Submitting login form..."] in
     let step :=
       [Req nav; Req click;
        Elapsed (N.max (w_took W (h ++ before) nav)
                       (w_took W (h ++ before ++ [Req nav]) click))] in
     outcome (fill W s) h = Ok tt ->
     w_do W (h ++ before ++ [Req nav]) click = Ok tt ->
     attempt W s h =
       (outcome (conclude W s) (h ++ before ++ step),
        before ++ step ++ emitted (conclude W s) (h ++ before ++ step))).
Proof.
  split; [|split].
  - intros W s h nav click. apply submit_run.
  - intros W h press wait. subst press wait.
    unfold StealthTest.submit, bind, console_log, emit, perform, request,
      try_catch.
    cbn [app].
    destruct (w_do W (h ++ _) (KeyboardPress "Enter")) as [[]|e];
      [|reflexivity].
    rewrite <- !app_assoc. cbn [app].
    destruct (w_do W _ (WaitForNavigation None (Some 10000%N))) as [[]|e];
      reflexivity.
  - intros W s h nav click before step Hfill Hclick.
    assert (Et : submit_time W s (h ++ before) =
                 N.max (w_took W (h ++ before) nav)
                       (w_took W (h ++ before ++ [Req nav]) click)).
    { unfold submit_time. rewrite <- !app_assoc. fold nav click.
      now rewrite Hclick. }
    subst step. rewrite <- Et. subst before nav click.
    rewrite <- !app_assoc in Hclick.
    unfold attempt. rewrite bind_run, Hfill.
    rewrite bind_outcome, bind_emitted.
    cbn [outcome emitted console_log emit fst snd].
    change (fst (?m ?x)) with (outcome m x).
    change (snd (?m ?x)) with (emitted m x).
    rewrite bind_outcome, bind_emitted, submit_outcome, submit_emitted.
    rewrite <- !app_assoc. rewrite Hclick. reflexivity.
Qed.

Lemma submit_ignores_navigation_witness :
  let nav := WaitForNavigation (Some "networkidle2") None in
  let click := Click (submitSelector Demo) in
  let before :=
    emitted (fill no_navigation Demo) [] ++ [Log "Submitting login form..."] in
  let step :=
    [Req nav; Req click;
     Elapsed (N.max (w_took no_navigation ([] ++ before) nav)
                    (w_took no_navigation ([] ++ before ++ [Req nav]) click))] in
  w_do no_navigation ([] ++ before) nav
    = Throw (ErrorObj "TimeoutError" "Navigation timeout of 30000 ms exceeded")
  /\
  attempt no_navigation Demo [] =
    (outcome (conclude no_navigation Demo) ([] ++ before ++ step),
     before ++ step ++ emitted (conclude no_navigation Demo) ([] ++ before ++ step)).
Proof.
  split; [reflexivity|].
  apply (proj2 (proj2 submit_ignores_navigation) no_navigation Demo []);
    vm_compute; reflexivity.
Defined.

(** C8, as stated, fails for the search: the key press is asked for while
    no navigation wait is pending, and the wait starts when the key press
    is over. On a page that navigates as soon as the form is submitted, the
    wait of the login test, asked for before the click, sees the
    navigation; the wait of the search, asked for after the key press,
    sees none, and the search goes on after the timeout. *)
Lemma search_waits_after_the_key_press :
  StealthTest.submit navigates_on_submit [] =
    (Ok tt,
     [Log "Pressing Enter to search..."; Req (KeyboardPress "Enter");
      Log "Waiting for search results...";
      Req (WaitForNavigation None (Some 10000%N));
      Log "Navigation timeout - continuing anyway"]) /\
  w_do navigates_on_submit [Log "Pressing Enter to search..."]
    (WaitForNavigation None (Some 10000%N)) = Ok tt /\
  w_do navigates_on_submit
    [Log "Pressing Enter to search..."; Req (KeyboardPress "Enter");
     Log "Waiting for search results..."]
    (WaitForNavigation None (Some 10000%N)) =
    Throw (ErrorObj "TimeoutError" "Navigation timeout of 10000 ms exceeded") /\
  submit navigates_on_submit Demo [] =
    (Ok tt,
     [Req (WaitForNavigation (Some "networkidle2") None); Req (Click "#go");
      Elapsed 0]) /\
  w_do navigates_on_submit [] (WaitForNavigation (Some "networkidle2") None)
    = Ok tt.
Proof.
  repeat split; vm_compute; reflexivity.
Qed.

(** The page does not navigate on submission, and the login is checked and
    reported all the same. *)
Lemma login_without_navigation_is_checked :
  outcome (testLogin no_navigation Demo) [] =
    Ok {| site := "Demo"; success := true; message := "Login successful";
          screenshotPath := "/app/screenshots/demo.png" |}.
Proof. vm_compute. reflexivity. Qed.

(** C6: what the scripts do when the page is gone, so that the navigation
    fails and a screenshot fails as well. [testGoogleSearch] logs the first
    error and then ends with the error of the screenshot, which its [catch]
    takes without a guard; [testLogin], whose [catch] guards the screenshot,
    logs that failure and returns a result that carries the first error. *)
Theorem search_error_capture_propagates :
  StealthTest.testGoogleSearch page_closed [] =
    (Throw (ErrorObj "Error"
              "Protocol error (Page.captureScreenshot): Target closed"),
     [Log (LF +++ "🔍 Starting detailed Google search test...");
      Req (Goto "https://www.google.com" "networkidle0" 30000);
      LogError "Google search test failed: Navigating frame was detached";
      Req (ExistsSync "/app/screenshots"); Req DateNow;
      Req (Screenshot
             "screenshots/google-search-error-2024-05-06T07-08-09-123Z.png"
             true)])
  /\
  outcome (testLogin page_closed Demo) [] =
    Ok {| site := "Demo"; success := false;
          message := "Error testing login: Error: Navigating frame was detached";
          screenshotPath := "/app/screenshots/demo.png" |}
  /\
  error_lines (emitted (testLogin page_closed Demo) []) =
    ["Error testing login: Error: Navigating frame was detached";
     "Failed to take error screenshot"].
Proof.
  repeat split; vm_compute; reflexivity.
Qed.

End Runs.

(** * Further properties *)

(** ** Texts of file names *)

(** X1. The text [takeScreenshot] makes of the clock has the length of the
    clock text and holds neither a colon nor a dot, and making it again
    changes nothing. *)
Theorem replace_colon_dot_safe :
  forall s : string,
    String.length (Utils.replace_colon_dot s) = String.length s /\
    (forall c, In c (chars (Utils.replace_colon_dot s)) ->
               c <> ":"%char /\ c <> "."%char) /\
    Utils.replace_colon_dot (Utils.replace_colon_dot s)
      = Utils.replace_colon_dot s.
Proof.
  induction s as [|c s (Hlen & Hno & Hidem)]; simpl.
  - split; [reflexivity|]. split; [intros c []|reflexivity].
  - split; [now rewrite Hlen|]. split.
    + intros d [<-|Hd]; [|now apply Hno].
      destruct (Ascii.eqb c ":") eqn:E1; [split; discriminate|].
      destruct (Ascii.eqb c ".") eqn:E2; [split; discriminate|].
      simpl. apply Ascii.eqb_neq in E1, E2. now split.
    + rewrite Hidem. f_equal.
      destruct (Ascii.eqb c ":") eqn:E1; [reflexivity|].
      destruct (Ascii.eqb c ".") eqn:E2; [reflexivity|].
      simpl. now rewrite E1, E2.
Qed.

Lemma replace_colon_dot_safe_witness :
  String.length (Utils.replace_colon_dot "2024-05-06T07:08:09.123Z")
    = String.length "2024-05-06T07:08:09.123Z" /\
  (forall c, In c (chars (Utils.replace_colon_dot "2024-05-06T07:08:09.123Z")) ->
             c <> ":"%char /\ c <> "."%char) /\
  Utils.replace_colon_dot (Utils.replace_colon_dot "2024-05-06T07:08:09.123Z")
    = Utils.replace_colon_dot "2024-05-06T07:08:09.123Z".
Proof.
  apply (replace_colon_dot_safe "2024-05-06T07:08:09.123Z").
Defined.

Lemma replace_spaces_from_length (s : string) :
  forall (b : bool) (k : nat),
    String.length (StealthTest.replace_spaces_from b k s) <= String.length s.
Proof.
  induction s as [|c r IH]; intros b k; [reflexivity|].
  cbn [StealthTest.replace_spaces_from].
  destruct k as [|k].
  - destruct (space_width (String c r)) as [|w].
    + cbn [String.length]. specialize (IH false 0). lia.
    + destruct b; cbn [String.length]; specialize (IH true w); lia.
  - cbn [String.length]. specialize (IH b k). lia.
Qed.

Lemma replace_spaces_from_id (s : string) :
  has_space s = false -> forall b, StealthTest.replace_spaces_from b 0 s = s.
Proof.
  induction s as [|c r IH]; intros H b; [reflexivity|].
  cbn [has_space] in H. apply orb_false_iff in H as [Hw Hr].
  apply negb_false_iff, Nat.eqb_eq in Hw.
  cbn [StealthTest.replace_spaces_from]. rewrite Hw. f_equal. now apply IH.
Qed.

(** What the first two bytes of a text become. *)
Lemma space_bytes_no_dash (c : N) (d e : option N) :
  space_bytes c d e = 0 ->
  forall e', space_bytes c (Some 45%N) e' = 0 /\ space_bytes c None e' = 0.
Proof.
  unfold space_bytes. intros H e'.
  destruct ((c =? 32) || ((9 <=? c) && (c <=? 13)))%N; [discriminate|].
  cbn [is_byte N.eqb Pos.eqb andb].
  repeat match goal with
         | |- context [if ?b then _ else _] => destruct b
         end; split; reflexivity.
Qed.

Lemma space_bytes_dash_second (c : N) (d e : option N) :
  space_bytes c d e = 0 ->
  space_bytes c d (Some 45%N) = 0 /\ space_bytes c d None = 0.
Proof.
  unfold space_bytes. intros H.
  destruct ((c =? 32) || ((9 <=? c) && (c <=? 13)))%N; [discriminate|].
  destruct (c =? 194)%N.
  { destruct (is_byte d 160); [discriminate | split; reflexivity]. }
  cbn [is_byte N.eqb Pos.eqb andb N.leb N.compare Pos.compare Pos.compare_cont orb].
  repeat rewrite andb_false_r.
  repeat match goal with
         | |- context [if ?b then _ else _] => destruct b
         end; split; reflexivity.
Qed.

Lemma first_byte_replace (r : string) :
  first_byte (StealthTest.replace_spaces_from false 0 r) =
  match r with
  | EmptyString => None
  | String d _ => if space_width r =? 0 then Some (N_of_ascii d) else Some 45%N
  end.
Proof.
  destruct r as [|d r']; [reflexivity|].
  cbn [StealthTest.replace_spaces_from]. destruct (space_width (String d r')); reflexivity.
Qed.

Lemma kept_byte_starts_no_space (c : ascii) (r : string) :
  space_width (String c r) = 0 ->
  space_width (String c (StealthTest.replace_spaces_from false 0 r)) = 0.
Proof.
  cbn [space_width]. intros H.
  rewrite first_byte_replace.
  destruct r as [|d r'].
  - exact H.
  - destruct (space_width (String d r') =? 0) eqn:Ed.
    + apply Nat.eqb_eq in Ed.
      cbn [StealthTest.replace_spaces_from]. rewrite Ed. cbn [rest_of].
      rewrite first_byte_replace. cbn [first_byte rest_of] in H.
      destruct r' as [|e r'']; [exact H|].
      destruct (space_width (String e r'') =? 0); [exact H|].
      cbn [first_byte] in H.
      now apply (space_bytes_dash_second _ _ _ H).
    + now apply (space_bytes_no_dash _ _ _ H).
Qed.

Lemma dash_starts_no_space (x : string) : space_width (String "-" x) = 0.
Proof. reflexivity. Qed.

Lemma replace_spaces_from_no_space (s : string) :
  forall (b : bool) (k : nat), has_space (StealthTest.replace_spaces_from b k s) = false.
Proof.
  induction s as [|c r IH]; intros b k; [reflexivity|].
  cbn [StealthTest.replace_spaces_from]. destruct k as [|k]; [|apply IH].
  destruct (space_width (String c r)) as [|w] eqn:E.
  - cbn [has_space]. rewrite (kept_byte_starts_no_space c r E), IH. reflexivity.
  - destruct b; [apply IH|].
    cbn [has_space]. rewrite dash_starts_no_space, IH. reflexivity.
Qed.

(** X2. The logical name the stealth test makes of a site name holds no
    white space, in the sense of the class [\s] on texts in UTF-8, and is
    not longer than the name; a name without white space is kept as it is,
    so making the name again changes nothing. *)
Theorem replace_spaces_leaves_no_space :
  forall s : string,
    has_space (StealthTest.replace_spaces s) = false /\
    String.length (StealthTest.replace_spaces s) <= String.length s /\
    (has_space s = false -> StealthTest.replace_spaces s = s) /\
    StealthTest.replace_spaces (StealthTest.replace_spaces s)
      = StealthTest.replace_spaces s.
Proof.
  intros s. unfold StealthTest.replace_spaces.
  split; [apply replace_spaces_from_no_space|].
  split; [apply replace_spaces_from_length|].
  split; [intros H; now apply replace_spaces_from_id|].
  apply replace_spaces_from_id, replace_spaces_from_no_space.
Qed.

Lemma replace_spaces_leaves_no_space_witness :
  has_space (StealthTest.replace_spaces "nowsecure") = false /\
  String.length (StealthTest.replace_spaces "nowsecure")
    <= String.length "nowsecure" /\
  (has_space "nowsecure" = false ->
   StealthTest.replace_spaces "nowsecure" = "nowsecure") /\
  StealthTest.replace_spaces (StealthTest.replace_spaces "nowsecure")
    = StealthTest.replace_spaces "nowsecure".
Proof.
  apply (replace_spaces_leaves_no_space "nowsecure").
Defined.

(** The name of the first test site, and a name with a space outside
    ASCII. *)
Lemma replace_spaces_examples :
  StealthTest.replace_spaces (toLowerCase "SannySoft Bot Detection")
    = "sannysoft-bot-detection" /\
  StealthTest.replace_spaces ("top" +++ no_break_space +++ " site")
    = "top-site".
Proof. split; reflexivity. Qed.

(** ** The pacing delay, for any order of the bounds *)

(** X3. For a random number in [0, 1) and whole bounds that a timer takes,
    given in any order, the delay [randomWait] chooses lies between the
    smaller and the larger bound, so it is never negative; [randomWait]
    prints it and suspends the caller for it, for one millisecond when it
    is 0. *)
Theorem randomWait_delay_never_negative :
  forall (W : World) (h : Trace) (a b : Z),
    (0 <= w_random W h)%Q -> (w_random W h < 1)%Q ->
    (0 <= a <= TIMEOUT_MAX)%Z -> (0 <= b <= TIMEOUT_MAX)%Z ->
    exists t : Z,
      Utils.waitTime_of (w_random W h) (inject_Z a) (inject_Z b) = Int t /\
      (Z.min a b <= t <= Z.max a b)%Z /\
      Utils.randomWait W (inject_Z a) (inject_Z b) h =
        (Ok tt,
         [Req MathRandom; Log ("Waiting for " +++ show_Z t +++ "ms...");
          Req (SetTimeout (Int t)); Elapsed (Z.to_N (Z.max 1 t))]).
Proof.
  intros W h a b H0 H1 Ha Hb. now apply randomWait_between.
Qed.

Lemma randomWait_delay_never_negative_witness :
  exists t : Z,
    Utils.waitTime_of (w_random high_roll []) (inject_Z 3000) (inject_Z 1000)
      = Int t /\
    (Z.min 3000 1000 <= t <= Z.max 3000 1000)%Z /\
    Utils.randomWait high_roll (inject_Z 3000) (inject_Z 1000) [] =
      (Ok tt,
       [Req MathRandom; Log ("Waiting for " +++ show_Z t +++ "ms...");
        Req (SetTimeout (Int t)); Elapsed (Z.to_N (Z.max 1 t))]).
Proof.
  apply (randomWait_delay_never_negative high_roll [] 3000 1000).
  - vm_compute. discriminate.
  - reflexivity.
  - vm_compute. split; discriminate.
  - vm_compute. split; discriminate.
Defined.

(** Beyond what a timer takes the pause is not the delay: with both bounds
    at two to the 31 the delay printed is 2147483648 and the pause is one
    millisecond; and a delay from ten to the 21 on is printed with an
    exponent. *)
Lemma randomWait_beyond_the_timer :
  Utils.randomWait calm (inject_Z (2 ^ 31)) (inject_Z (2 ^ 31)) [] =
    (Ok tt,
     [Req MathRandom; Log "Waiting for 2147483648ms...";
      Req (SetTimeout (Int 2147483648)); Elapsed 1]) /\
  show_number (Int (10 ^ 21)) = "1e+21" /\
  show_number (Int (2 ^ 70)) = "1.1805916207174113e+21".
Proof. repeat split; vm_compute; reflexivity. Qed.

(** ** Counting events *)

Section Upto.

Variable P : Event -> bool.

Lemma silent_upto {A} (m : M A) (n : nat) : silent P m -> upto P n m.
Proof. intros H h. rewrite H. simpl. lia. Qed.

Lemma upto_bind {A B} (m : M A) (f : A -> M B) (a b : nat) :
  upto P a m -> (forall x, upto P b (f x)) -> upto P (a + b) (bind m f).
Proof.
  intros Hm Hf h. rewrite bind_emitted.
  specialize (Hm h).
  destruct (outcome m h) as [x|e]; [|lia].
  rewrite filter_app, length_app. specialize (Hf x (h ++ emitted m h)). lia.
Qed.

Lemma upto_after_silent {A B} (m : M A) (f : A -> M B) (n : nat) :
  silent P m -> (forall x, upto P n (f x)) -> upto P n (bind m f).
Proof.
  intros Hm Hf. apply (upto_bind m f 0 n); [now apply silent_upto | exact Hf].
Qed.

Lemma upto_try_catch {A} (body : M A) (handler : JsError -> M A) (a b : nat) :
  upto P a body -> (forall e, upto P b (handler e)) ->
  upto P (a + b) (try_catch body handler).
Proof.
  intros Hb Hh h. unfold emitted. rewrite try_catch_run.
  specialize (Hb h).
  destruct (outcome body h) as [x|e]; cbn [snd]; [lia|].
  rewrite filter_app, length_app. specialize (Hh e (h ++ emitted body h)). lia.
Qed.

Lemma upto_try_finally {A} (body : M A) (fin : M unit) (a b : nat) :
  upto P a body -> upto P b fin -> upto P (a + b) (try_finally body fin).
Proof.
  intros Hb Hf h. unfold emitted. rewrite try_finally_run. cbn [snd].
  rewrite filter_app, length_app.
  specialize (Hb h). specialize (Hf (h ++ emitted body h)). lia.
Qed.

End Upto.

(** [silent_auto] that also looks through the local definitions of the
    scripts and the utilities. *)
Ltac quiet :=
  repeat first
    [ silent_step
    | progress cbv zeta
    | progress unfold Utils.takeScreenshot, Utils.takeScreenshot_in,
        Utils.ensureDirectoryExists, Utils.randomWait, Utils.createBrowser ].

(** ** Sessions of the login verifier *)

Section Sessions.

Import LoginTest.

Lemma guarded_part_no_create (W : World) (s : LoginSite) :
  silent is_create
    (try_finally (try_catch (attempt W s) (recover W s)) (release W)).
Proof.
  unfold attempt, fill, conclude, submit, checkLoginResult, signals, fallback,
    recover, release.
  quiet.
Qed.

Lemma testLogin_creates_once (W : World) (s : LoginSite) (h : Trace) :
  filter is_create (emitted (testLogin W s) h)
    = [Req (SessionsCreate (Some true) None)].
Proof.
  unfold testLogin. rewrite bind_emitted.
  cbn [outcome console_log emit fst emitted snd].
  change (snd (?m ?x)) with (emitted m x).
  rewrite bind_emitted.
  change (emitted (request ?c ?a) ?x) with [Req c].
  destruct (outcome (request _ _) _) as [session|e]; [|reflexivity].
  rewrite !filter_app.
  match goal with |- _ ++ _ ++ filter _ (emitted ?m _) = _ =>
    assert (Hs : silent is_create m) end.
  { repeat (apply silent_bind; [quiet | intros]).
    apply guarded_part_no_create. }
  rewrite Hs. reflexivity.
Qed.

Lemma testLogin_closes_upto_once (W : World) (s : LoginSite) :
  upto is_close 1 (testLogin W s).
Proof.
  unfold testLogin.
  repeat (apply upto_after_silent; [quiet | intros]).
  intros h. rewrite guarded_part_closes_once. simpl. lia.
Qed.

Lemma iteration_creates_once (W : World) (s : LoginSite) (h : Trace) :
  filter is_create (emitted (iteration W s) h)
    = [Req (SessionsCreate (Some true) None)].
Proof.
  unfold iteration, emitted. rewrite try_catch_run.
  assert (E : filter is_create (emitted (testLogin W s;; ret tt) h)
              = [Req (SessionsCreate (Some true) None)]).
  { rewrite bind_emitted.
    destruct (outcome (testLogin W s) h).
    - rewrite filter_app, testLogin_creates_once. reflexivity.
    - apply testLogin_creates_once. }
  destruct (outcome (testLogin W s;; ret tt) h); cbn [snd].
  - exact E.
  - rewrite filter_app, E. reflexivity.
Qed.

Lemma iteration_closes_upto_once (W : World) (s : LoginSite) :
  upto is_close 1 (iteration W s).
Proof.
  unfold iteration.
  apply (upto_try_catch is_close _ _ 1 0).
  - apply (upto_bind is_close _ _ 1 0);
      [apply testLogin_closes_upto_once | intros; apply silent_upto; quiet].
  - intros e. apply silent_upto. quiet.
Qed.

Lemma for_of_sessions (W : World) (sites : list LoginSite) :
  forall h,
    List.length (filter is_create (emitted (for_of sites (iteration W)) h))
      = List.length sites /\
    List.length (filter is_close (emitted (for_of sites (iteration W)) h))
      <= List.length sites.
Proof.
  induction sites as [|s rest IH]; intros h.
  - split; simpl; lia.
  - cbn [for_of]. rewrite bind_emitted, iteration_never_throws.
    rewrite !filter_app, !length_app, iteration_creates_once.
    destruct (IH (h ++ emitted (iteration W s) h)) as [Hc Hd].
    pose proof (iteration_closes_upto_once W s h).
    cbn [List.length]. split; lia.
Qed.

(** X4. Whatever happens to the sites, a run of the login verifier asks for
    exactly one session per site, and it never closes more browsers than it
    asked sessions for: no browser is closed twice. *)
Theorem login_run_one_session_per_site :
  forall (W : World) (sites : list LoginSite) (h : Trace),
    List.length (filter is_create (emitted (main W sites) h))
      = List.length sites /\
    List.length (filter is_close (emitted (main W sites) h))
      <= List.length sites.
Proof.
  intros W sites h. unfold main.
  rewrite !bind_emitted.
  cbn [outcome emitted console_log emit fst snd].
  destruct (for_of_sessions W sites
              (h ++ [Log "Starting login verification tests..."])) as [Hc Hd].
  destruct (for_of_iterations W sites
              (h ++ [Log "Starting login verification tests..."])) as [Ho _].
  rewrite Ho. rewrite !filter_app, !length_app.
  change (snd (?m ?x)) with (emitted m x).
  cbn [filter is_create is_close List.length app].
  split; lia.
Qed.

End Sessions.

(** ** The result check, whatever the page does *)

Section Check.

Import LoginTest.

Lemma wait_promise_delay (sel : string) (timeout : N) (f : WaitFate) :
  (delay (wait_promise sel timeout f) <= timeout)%N.
Proof.
  destruct f as [t| |t e]; simpl; try lia;
    destruct (t <? timeout)%N eqn:E; simpl; try lia;
    apply N.ltb_lt in E; lia.
Qed.

Lemma race_delay {A} (p q : Promise A) :
  (delay (race p [q]) <= delay p)%N.
Proof.
  rewrite race_two.
  destruct (rank q <? rank p)%N eqn:E; cbn [delay]; [|lia].
  apply N.ltb_lt in E. destruct p, q; cbn [delay rank] in *; lia.
Qed.

Lemma race_settles {A} (p q : Promise A) :
  settles_with (race p [q]) = settles_with p \/
  settles_with (race p [q]) = settles_with q.
Proof.
  rewrite race_two. destruct (rank q <? rank p)%N; simpl; auto.
Qed.

Lemma elapsed_app (a b : Trace) : elapsed (a ++ b) = (elapsed a + elapsed b)%N.
Proof.
  induction a as [|[] a IH]; simpl; rewrite ?IH; lia.
Qed.

Lemma queries_app (a b : Trace) : queries (a ++ b) = queries a ++ queries b.
Proof.
  induction a as [|[| | |[]|] a IH]; simpl; rewrite ?IH; reflexivity.
Qed.

(** What the race emits and gives, with the two promises spelled out. *)
Lemma signals_run (W : World) (s : LoginSite) (h : Trace) :
  exists (q : Promise (option (bool * string))) (reqs : Trace),
    queries reqs = [] /\ elapsed reqs = 0%N /\
    (settles_with q = Ok None \/
     settles_with q = Ok (Some (false, "Login failed - error message detected")) \/
     exists e, settles_with q = Throw e) /\
    signals W s h =
      (let won := race (then_ (success_wait W s h)
                          (fun _ => Some (true, "Login successful"))) [q] in
       (settles_with won, reqs ++ [Elapsed (delay won)])).
Proof.
  unfold signals, success_wait.
  destruct (truthy (failureIndicator s)).
  - eexists (then_ (wait_promise _ 10000 _) _),
      [Req (WaitForSelector (successIndicator s) (Some 10000%N));
       Req (WaitForSelector _ (Some 10000%N))].
    split; [reflexivity|]. split; [reflexivity|]. split; [|reflexivity].
    unfold then_; cbn [settles_with].
    destruct (settles_with (wait_promise _ _ _)) as [[]|e]; simpl; eauto.
  - exists (Settled (Ok None)),
      [Req (WaitForSelector (successIndicator s) (Some 10000%N))].
    split; [reflexivity|]. split; [reflexivity|]. split; [auto | reflexivity].
Qed.

(** X5. The result check of [testLogin] never throws, whatever the waits and
    the look at the page do: it gives one of five verdicts, and a success
    only with [Login successful] or [Login appears successful]. It suspends
    the script for at most ten seconds and looks at the page at most once. *)
Theorem checkLoginResult_always_gives_verdict :
  forall (W : World) (s : LoginSite) (h : Trace),
    (exists v : bool * string,
       outcome (checkLoginResult W s) h = Ok v /\ verdict_shape v /\
       (fst v = true ->
        snd v = "Login successful" \/ snd v = "Login appears successful")) /\
    (elapsed (emitted (checkLoginResult W s) h) <= 10000)%N /\
    List.length (queries (emitted (checkLoginResult W s) h)) <= 1.
Proof.
  intros W s h.
  destruct (signals_run W s h) as (q & reqs & Hq & He & Hset & Hrun).
  cbv zeta in Hrun.
  set (p := then_ (success_wait W s h)
              (fun _ => Some (true, "Login successful"))) in Hrun.
  assert (Hp : settles_with p = Ok (Some (true, "Login successful")) \/
               exists e, settles_with p = Throw e).
  { unfold p, then_; cbn [settles_with].
    destruct (settles_with (success_wait W s h)) as [[]|e]; simpl; eauto. }
  assert (Hd : (delay (race p [q]) <= 10000)%N).
  { eapply N.le_trans; [apply race_delay|].
    unfold p, then_, success_wait; cbn [delay]. apply wait_promise_delay. }
  assert (Hshape : forall v, verdict_shape v ->
            fst v = true ->
            snd v = "Login successful" \/ snd v = "Login appears successful").
  { intros v [->|[->|[->|[->|[e ->]]]]]; simpl; intros; auto; discriminate. }
  unfold checkLoginResult, outcome, emitted, try_catch, bind.
  rewrite Hrun.
  assert (Hel : elapsed (reqs ++ [Elapsed (delay (race p [q]))])
                = delay (race p [q])).
  { rewrite elapsed_app, He. simpl. lia. }
  assert (Hqs : queries (reqs ++ [Elapsed (delay (race p [q]))]) = []).
  { rewrite queries_app, Hq. reflexivity. }
  destruct (race_settles p q) as [E|E]; rewrite E;
    [destruct Hp as [Hp|[e Hp]] | destruct Hset as [Hs|[Hs|[e Hs]]]];
    rewrite ?Hp, ?Hs; cbn [fst snd app ret].
  - rewrite app_nil_r, Hel, Hqs.
    split; [|split; [exact Hd | simpl; lia]].
    eexists. split; [reflexivity|]. split; [left; reflexivity | auto].
  - rewrite app_nil_r, Hel, Hqs.
    split; [|split; [exact Hd | simpl; lia]].
    eexists. split; [reflexivity|].
    split; [do 4 right; eauto | intros; discriminate].
  - unfold fallback, query, request, bind, ret. cbn [fst snd app].
    destruct (w_query W _ (successIndicator s)) as [present|e];
      cbn [fst snd app];
      rewrite ?app_nil_r, elapsed_app, queries_app, Hel, Hqs;
      (split; [|split; cbn [elapsed queries List.length app]; lia]).
    + eexists. split; [reflexivity|].
      assert (Hv : verdict_shape (fallback_verdict present))
        by (destruct present; [right; right; left | do 3 right; left];
            reflexivity).
      split; [exact Hv | apply Hshape, Hv].
    + eexists. split; [reflexivity|].
      split; [do 4 right; eauto | intros; discriminate].
  - rewrite app_nil_r, Hel, Hqs.
    split; [|split; [exact Hd | simpl; lia]].
    eexists. split; [reflexivity|].
    split; [right; left; reflexivity | intros; discriminate].
  - rewrite app_nil_r, Hel, Hqs.
    split; [|split; [exact Hd | simpl; lia]].
    eexists. split; [reflexivity|].
    split; [do 4 right; eauto | intros; discriminate].
Qed.

Lemma checkLoginResult_always_gives_verdict_witness :
  (exists v : bool * string,
     outcome (checkLoginResult nothing_shows Demo) [] = Ok v /\
     verdict_shape v /\
     (fst v = true ->
      snd v = "Login successful" \/ snd v = "Login appears successful")) /\
  (elapsed (emitted (checkLoginResult nothing_shows Demo) []) <= 10000)%N /\
  List.length (queries (emitted (checkLoginResult nothing_shows Demo) [])) <= 1.
Proof.
  apply (checkLoginResult_always_gives_verdict nothing_shows Demo []).
Defined.

End Check.

(** ** One login test, whatever the page does *)

Section Robust.

Import LoginTest.

(** X6. An empty failure indicator counts as no failure indicator: the
    login test of the site runs exactly as that of the site without one, so
    that no wait for the empty selector is ever started. *)
Theorem empty_failureIndicator_is_none :
  forall (W : World) (s : LoginSite) (h : Trace),
    failureIndicator s = Some EmptyString ->
    testLogin W s h = testLogin W (without_failureIndicator s) h /\
    checkLoginResult W s h =
      (match w_query W
               (h ++ [Req (WaitForSelector (successIndicator s) (Some 10000%N));
                      Elapsed 0])
               (successIndicator s) with
       | Ok present => Ok (fallback_verdict present)
       | Throw e => Ok (false, "Error checking login status: " +++ String_of e)
       end,
       [Req (WaitForSelector (successIndicator s) (Some 10000%N)); Elapsed 0;
        Req (Query (successIndicator s))]).
Proof.
  intros W s h H. split.
  - unfold testLogin, attempt, fill, conclude, submit, recover,
      checkLoginResult, signals, fallback, screenshotPath_of,
      beforeSubmitPath_of, without_failureIndicator.
    cbn [name url usernameSelector passwordSelector submitSelector
         successIndicator failureIndicator credentials beforeLogin].
    rewrite H. reflexivity.
  - apply without_failure_indicator_no_wait. now rewrite H.
Qed.

Lemma empty_failureIndicator_is_none_witness :
  testLogin calm Demo_blank [] =
    testLogin calm (without_failureIndicator Demo_blank) [] /\
  checkLoginResult calm Demo_blank [] =
    (match w_query calm
             ([] ++ [Req (WaitForSelector (successIndicator Demo_blank)
                            (Some 10000%N)); Elapsed 0])
             (successIndicator Demo_blank) with
     | Ok present => Ok (fallback_verdict present)
     | Throw e => Ok (false, "Error checking login status: " +++ String_of e)
     end,
     [Req (WaitForSelector (successIndicator Demo_blank) (Some 10000%N));
      Elapsed 0; Req (Query (successIndicator Demo_blank))]).
Proof.
  apply (empty_failureIndicator_is_none calm Demo_blank []). reflexivity.
Defined.

Lemma release_outcome (W : World) (h : Trace) :
  outcome (release W) h =
    match w_do W h BrowserClose with
    | Ok _ => Ok tt
    | Throw e => Throw e
    end.
Proof.
  unfold release. rewrite bind_outcome, perform_outcome.
  destruct (w_do W h BrowserClose); reflexivity.
Qed.

(** X7. When the session can be set up (the session is created, the browser
    connected, the page obtained, the viewport set) and the browser can be
    closed, [testLogin] returns a result, whatever else fails: navigation,
    waits, typing, clicks and screenshots cannot make it throw. *)
Theorem testLogin_returns_when_session_works :
  forall (W : World) (s : LoginSite) (h : Trace),
    (forall h', exists session, w_session W h' = Ok session) ->
    (forall h', exists pages, w_pages W h' = Ok pages) ->
    (forall h' endpoint, w_do W h' (PuppeteerConnect endpoint) = Ok tt) ->
    (forall h', w_do W h' BrowserNewPage = Ok tt) ->
    (forall h', w_do W h' (SetViewport 1280 800) = Ok tt) ->
    (forall h', w_do W h' BrowserClose = Ok tt) ->
    exists r : VerificationResult,
      outcome (testLogin W s) h = Ok r /\ site r = name s.
Proof.
  intros W s h Hses Hpages Hconn Hnew Hview Hclose.
  unfold testLogin.
  rewrite bind_outcome. cbn [outcome console_log emit fst].
  rewrite bind_outcome.
  change (outcome (request ?c ?a) ?x) with (a x).
  destruct (Hses (h ++ emitted
                    (console_log ("Testing login for " +++ name s +++ "...")) h))
    as [session ->].
  rewrite bind_outcome. cbn [outcome console_log emit fst].
  rewrite bind_outcome, perform_outcome, Hconn.
  do 3 (rewrite bind_outcome; cbn [outcome console_log emit fst]).
  rewrite bind_outcome.
  change (outcome (request ?c ?a) ?x) with (a x).
  match goal with |- context [w_pages W ?x] =>
    destruct (Hpages x) as [pages ->] end.
  rewrite bind_outcome.
  assert (Hpage : forall x,
            outcome (match pages with
                     | 0 => perform W BrowserNewPage
                     | S _ => ret tt
                     end) x = Ok tt).
  { intros x. destruct pages; [rewrite perform_outcome; apply Hnew|reflexivity]. }
  rewrite Hpage.
  rewrite bind_outcome, perform_outcome, Hview.
  rewrite try_finally_outcome, release_outcome, Hclose.
  match goal with |- context [outcome (try_catch _ _) ?x] =>
    destruct (guarded_part_result W s x) as (r & Hr & Hs & _) end.
  exists r. split; assumption.
Qed.

Lemma testLogin_returns_when_session_works_witness :
  exists r : VerificationResult,
    outcome (testLogin page_closed Demo) [] = Ok r /\ site r = name Demo.
Proof.
  apply (testLogin_returns_when_session_works page_closed Demo []).
  - intros h'. eexists. reflexivity.
  - intros h'. eexists. reflexivity.
  - reflexivity.
  - reflexivity.
  - reflexivity.
  - reflexivity.
Defined.

Ltac pick :=
  solve [ reflexivity | eexists; reflexivity | left; pick | right; pick ].

Lemma conclude_verdict (W : World) (s : LoginSite) (h : Trace)
  (r : VerificationResult) :
  outcome (conclude W s) h = Ok r ->
  verdict_shape (success r, message r).
Proof.
  unfold conclude. intros H.
  apply bind_ok_inv in H as [[] [_ H]].
  apply bind_ok_inv in H as [v [Hv H]].
  bind_inv H.
  unfold outcome, ret in H; simpl in H. injection H as <-.
  cbn [success message].
  match type of Hv with outcome (checkLoginResult W s) ?x = _ =>
    destruct (checkLoginResult_always_gives_verdict W s x)
      as [(v' & Hv' & Hshape & _) _] end.
  rewrite Hv in Hv'. injection Hv' as <-.
  now destruct v.
Qed.

(** X8. The flag and the message of every result [testLogin] returns fit
    together: a success carries [Login successful] or
    [Login appears successful]; a failure carries the failure message, the
    [Login status unclear] message, or an error text that begins with
    [Error checking login status: ] or [Error testing login: ]. *)
Theorem testLogin_message_fits_flag :
  forall (W : World) (s : LoginSite) (h : Trace) (r : VerificationResult),
    outcome (testLogin W s) h = Ok r ->
    (success r = true ->
     message r = "Login successful" \/
     message r = "Login appears successful") /\
    (success r = false ->
     message r = "Login failed - error message detected" \/
     message r = "Login status unclear - could not find success indicator" \/
     (exists e, message r = "Error checking login status: " +++ String_of e) \/
     (exists e, message r = "Error testing login: " +++ String_of e)).
Proof.
  intros W s h r H.
  unfold testLogin in H. bind_inv H.
  rewrite try_finally_outcome in H.
  destruct (outcome (release W) _); [|discriminate].
  rewrite try_catch_outcome in H.
  destruct (outcome (attempt W s) _) as [r'|e] eqn:E.
  - injection H as <-. unfold attempt in E.
    do 3 (let a := fresh "a" in let Ha := fresh "Ha" in
          apply bind_ok_inv in E as [a [Ha E]]).
    apply conclude_verdict in E.
    destruct E as [E|[E|[E|[E|[e E]]]]];
      unfold fallback_verdict in E; injection E as Es Em; rewrite Es, Em;
      (split; intros Hflag; try discriminate); pick.
  - rewrite recover_result in H. injection H as <-. cbn [success message].
    split; intros Hflag; [discriminate|].
    pick.
Qed.

Lemma testLogin_message_fits_flag_witness :
  (false = true ->
   "Error testing login: Error: Navigating frame was detached"
     = "Login successful" \/
   "Error testing login: Error: Navigating frame was detached"
     = "Login appears successful") /\
  (false = false ->
   "Error testing login: Error: Navigating frame was detached"
     = "Login failed - error message detected" \/
   "Error testing login: Error: Navigating frame was detached"
     = "Login status unclear - could not find success indicator" \/
   (exists e, "Error testing login: Error: Navigating frame was detached"
              = "Error checking login status: " +++ String_of e) \/
   (exists e, "Error testing login: Error: Navigating frame was detached"
              = "Error testing login: " +++ String_of e)).
Proof.
  apply (testLogin_message_fits_flag page_closed Demo []
           {| site := "Demo"; success := false;
              message := "Error testing login: Error: Navigating frame was detached";
              screenshotPath := "/app/screenshots/demo.png" |}).
  vm_compute. reflexivity.
Defined.

End Robust.

(** ** What is typed, and in which order *)

Section InOrder.

Variable P : Event -> bool.

Lemma in_order_silent {A} (l : list Event) (m : M A) :
  silent P m -> in_order P l m.
Proof. intros H h. exists 0. now rewrite H. Qed.

Lemma in_order_after_silent {A B} (l : list Event) (m : M A) (f : A -> M B) :
  silent P m -> (forall x, in_order P l (f x)) -> in_order P l (bind m f).
Proof.
  intros Hm Hf h. rewrite bind_emitted.
  destruct (outcome m h) as [x|e].
  - rewrite filter_app, Hm. apply Hf.
  - exists 0. now rewrite Hm.
Qed.

Lemma in_order_before_silent {A B} (l : list Event) (m : M A) (f : A -> M B) :
  in_order P l m -> (forall x, silent P (f x)) -> in_order P l (bind m f).
Proof.
  intros Hm Hf h. rewrite bind_emitted.
  destruct (outcome m h) as [x|e]; [|apply Hm].
  rewrite filter_app, Hf, app_nil_r. apply Hm.
Qed.

Lemma in_order_request {A B} (l : list Event) (c : Call)
  (answer : Trace -> result A) (f : A -> M B) :
  P (Req c) = true -> (forall x, in_order P l (f x)) ->
  in_order P (Req c :: l) (bind (request c answer) f).
Proof.
  intros Hc Hf h. rewrite bind_emitted.
  change (emitted (request c answer) h) with [Req c].
  destruct (outcome (request c answer) h) as [x|e].
  - destruct (Hf x (h ++ [Req c])) as [k Hk].
    exists (S k). rewrite filter_app, Hk. simpl. now rewrite Hc.
  - exists 1. simpl. now rewrite Hc.
Qed.

Lemma in_order_try_catch {A} (l : list Event) (body : M A)
  (handler : JsError -> M A) :
  in_order P l body -> (forall e, silent P (handler e)) ->
  in_order P l (try_catch body handler).
Proof.
  intros Hb Hh h. unfold emitted. rewrite try_catch_run.
  destruct (outcome body h) as [x|e]; cbn [snd]; [apply Hb|].
  rewrite filter_app, Hh, app_nil_r. apply Hb.
Qed.

Lemma in_order_try_finally {A} (l : list Event) (body : M A) (fin : M unit) :
  in_order P l body -> silent P fin -> in_order P l (try_finally body fin).
Proof.
  intros Hb Hf h. unfold emitted. rewrite try_finally_run. cbn [snd].
  rewrite filter_app, Hf, app_nil_r. apply Hb.
Qed.

End InOrder.

Section Typing.

Import LoginTest.

(** X9. On a site without a [beforeLogin] callback, all a run of [testLogin]
    types is the user name into the user name field and then the password
    into the password field: what the run types is nothing, the user name
    alone, or the user name followed by the password, whatever the page
    does. *)
Theorem testLogin_types_credentials_in_order :
  forall (W : World) (s : LoginSite) (h : Trace),
    beforeLogin s = None ->
    exists k : nat,
      filter is_type (emitted (testLogin W s) h) =
        firstn k
          [Req (TypeText (usernameSelector s) (username (credentials s)) None);
           Req (TypeText (passwordSelector s) (password (credentials s)) None)].
Proof.
  intros W s h _. revert h. change (in_order is_type
    [Req (TypeText (usernameSelector s) (username (credentials s)) None);
     Req (TypeText (passwordSelector s) (password (credentials s)) None)]
    (testLogin W s)).
  unfold testLogin.
  repeat (apply in_order_after_silent; [quiet | intros]).
  apply in_order_try_finally; [|unfold release; quiet].
  apply in_order_try_catch; [|intros; unfold recover; quiet].
  unfold attempt.
  apply in_order_before_silent;
    [|intros; unfold submit, conclude, checkLoginResult, signals, fallback;
      quiet].
  unfold fill.
  do 6 (apply in_order_after_silent; [quiet | intros]).
  apply in_order_request; [reflexivity | intros].
  do 2 (apply in_order_after_silent; [quiet | intros]).
  apply in_order_before_silent; [|intros; quiet].
  intros h. exists 1. reflexivity.
Qed.

Lemma testLogin_types_credentials_in_order_witness :
  exists k : nat,
    filter is_type (emitted (testLogin page_closed Demo) []) =
      firstn k
        [Req (TypeText (usernameSelector Demo) (username (credentials Demo))
                None);
         Req (TypeText (passwordSelector Demo) (password (credentials Demo))
                None)].
Proof.
  apply (testLogin_types_credentials_in_order page_closed Demo []).
  reflexivity.
Defined.

End Typing.

(** ** The stealth test: session, pauses *)

Section Exactly.

Variable P : Event -> bool.

Lemma exactly_silent {A} (m : M A) : silent P m -> exactly P 0 m.
Proof. intros H h a _. now rewrite H. Qed.

Lemma exactly_bind {A B} (m : M A) (f : A -> M B) (a b : nat) :
  exactly P a m -> (forall x, exactly P b (f x)) -> exactly P (a + b) (bind m f).
Proof.
  intros Hm Hf h y Hy. rewrite bind_emitted.
  rewrite bind_outcome in Hy.
  destruct (outcome m h) as [x|e] eqn:E; [|discriminate].
  rewrite filter_app, length_app.
  rewrite (Hm h x E), (Hf x _ y Hy). reflexivity.
Qed.

Lemma exactly_eq {A} (m : M A) (a b : nat) :
  exactly P a m -> a = b -> exactly P b m.
Proof. now intros H <-. Qed.

End Exactly.

Section Tour.

Import StealthTest.

Lemma randomWait_one_random (W : World) (min max : Q) :
  exactly is_random 1 (Utils.randomWait W min max).
Proof. intros h a _. reflexivity. Qed.

Lemma visit_pauses (W : World) (n i : nat) (s : TestSite) :
  exactly is_random (if (Z.of_nat i <? Z.of_nat n - 1)%Z then 2 else 1)
    (visit W n i s).
Proof.
  unfold visit.
  destruct (Z.of_nat i <? Z.of_nat n - 1)%Z.
  - eapply exactly_eq.
    + do 4 (eapply exactly_bind; [apply exactly_silent; quiet | intros]).
      eapply exactly_bind; [apply randomWait_one_random | intros].
      do 6 (eapply exactly_bind; [apply exactly_silent; quiet | intros]).
      apply randomWait_one_random.
    + reflexivity.
  - eapply exactly_eq.
    + do 4 (eapply exactly_bind; [apply exactly_silent; quiet | intros]).
      eapply exactly_bind; [apply randomWait_one_random | intros].
      do 6 (eapply exactly_bind; [apply exactly_silent; quiet | intros]).
      apply exactly_silent; quiet.
    + reflexivity.
Qed.

Lemma visit_all_pauses (W : World) (n : nat) (sites : list TestSite) :
  forall i,
    i + List.length sites = n ->
    exactly is_random (2 * List.length sites - 1) (visit_all W n i sites).
Proof.
  induction sites as [|s rest IH]; intros i Hn.
  - apply exactly_silent. intros h. reflexivity.
  - cbn [visit_all].
    eapply exactly_eq.
    + eapply exactly_bind; [apply visit_pauses | intros].
      apply (IH (S i)). cbn [List.length] in Hn. lia.
    + cbn [List.length] in *.
      destruct (Z.of_nat i <? Z.of_nat n - 1)%Z eqn:E.
      * apply Z.ltb_lt in E. destruct rest; cbn [List.length] in *; lia.
      * apply Z.ltb_ge in E. destruct rest; cbn [List.length] in *; lia.
Qed.

(** X13. A tour of the test sites that ends without an error pauses
    [2 n - 1] times on [n] sites: once on every site and once between two
    sites, and not after the last one. *)
Theorem tour_pauses_between_sites_only :
  forall (W : World) (sites : list TestSite) (h : Trace),
    outcome (visit_all W (List.length sites) 0 sites) h = Ok tt ->
    List.length
      (filter is_random (emitted (visit_all W (List.length sites) 0 sites) h))
      = 2 * List.length sites - 1.
Proof.
  intros W sites h H.
  exact (visit_all_pauses W (List.length sites) sites 0 eq_refl h tt H).
Qed.

Lemma tour_pauses_between_sites_only_witness :
  List.length
    (filter is_random
       (emitted (visit_all calm (List.length testSites) 0 testSites) []))
    = 2 * List.length testSites - 1.
Proof.
  apply (tour_pauses_between_sites_only calm testSites []).
  vm_compute. reflexivity.
Defined.

End Tour.

(** ** The search test *)

Section Search.

Import StealthTest.

Lemma takeScreenshot_silent (P : Event -> bool) (W : World) (name : string) :
  (forall p, P (Req (ExistsSync p)) = false) ->
  (forall p b, P (Req (MkdirSync p b)) = false) ->
  (forall p b, P (Req (Screenshot p b)) = false) ->
  P (Req DateNow) = false ->
  (forall line, P (Log line) = false) ->
  silent P (Utils.takeScreenshot W name).
Proof.
  intros He Hm Hs Hd Hl.
  unfold Utils.takeScreenshot, Utils.takeScreenshot_in,
    Utils.ensureDirectoryExists.
  repeat first
    [ apply silent_bind; [|intros]
    | apply silent_ret
    | apply silent_emit; apply Hl
    | apply silent_request; first [apply He | apply Hm | apply Hs | apply Hd]
    | match goal with
      | |- silent _ (if ?b then _ else _) => destruct b
      end ].
Qed.

(** X15. When the page has neither of the two search fields, the search
    test asks for both, the text area first, reports
    [Could not find Google search input] and touches nothing: no typing, no
    key, no click, no script. *)
Theorem search_without_field_touches_nothing :
  forall (W : World) (h : Trace),
    (forall h', w_do W h' (Goto "https://www.google.com" "networkidle0" 30000)
                = Ok tt) ->
    (forall h', w_query W h' textarea_q = Ok false) ->
    (forall h', w_query W h' input_q = Ok false) ->
    filter is_query (emitted (testGoogleSearch W) h)
      = [Req (Query textarea_q); Req (Query input_q)] /\
    filter is_error (emitted (testGoogleSearch W) h)
      = [LogError
           "Google search test failed: Could not find Google search input"] /\
    filter is_action (emitted (testGoogleSearch W) h) = [].
Proof.
  intros W h Hgoto Ht Hi.
  assert (Hsearch : forall h',
    search W h' =
      (Throw (ErrorObj "Error" "Could not find Google search input"),
       [Req (Goto "https://www.google.com" "networkidle0" 30000);
        Log ("Performing search for: " +++ DQ +++ searchQuery +++ DQ);
        Req (Query textarea_q); Req (Query input_q)])).
  { intros h'. unfold search, bind, perform, query, request, console_log, emit,
      throw.
    rewrite Hgoto. cbn [app].
    fold textarea_q. fold input_q.
    rewrite Ht. cbn [app]. rewrite Hi. reflexivity. }
  pose proof (takeScreenshot_silent is_query W "google-search-error"
                (fun _ => eq_refl) (fun _ _ => eq_refl) (fun _ _ => eq_refl)
                eq_refl (fun _ => eq_refl)) as Sq.
  pose proof (takeScreenshot_silent is_error W "google-search-error"
                (fun _ => eq_refl) (fun _ _ => eq_refl) (fun _ _ => eq_refl)
                eq_refl (fun _ => eq_refl)) as Se.
  pose proof (takeScreenshot_silent is_action W "google-search-error"
                (fun _ => eq_refl) (fun _ _ => eq_refl) (fun _ _ => eq_refl)
                eq_refl (fun _ => eq_refl)) as Sa.
  unfold emitted, testGoogleSearch, bind, try_catch, console_log,
    console_error, emit.
  rewrite Hsearch. cbn [app].
  match goal with |- context [Utils.takeScreenshot W ?n ?x] =>
    specialize (Sq x); specialize (Se x); specialize (Sa x);
    unfold emitted in Sq, Se, Sa;
    destruct (Utils.takeScreenshot W n x) as [[p|e] d]
  end; cbn [fst snd app ret] in *;
    rewrite ?app_nil_r; cbn [filter is_query is_error is_action];
    rewrite Sq, Se, Sa; repeat split; reflexivity.
Qed.

Lemma search_without_field_touches_nothing_witness :
  filter is_query (emitted (testGoogleSearch no_search_field) [])
    = [Req (Query textarea_q); Req (Query input_q)] /\
  filter is_error (emitted (testGoogleSearch no_search_field) [])
    = [LogError
         "Google search test failed: Could not find Google search input"] /\
  filter is_action (emitted (testGoogleSearch no_search_field) []) = [].
Proof.
  apply (search_without_field_touches_nothing no_search_field []);
    reflexivity.
Defined.

End Search.

Section Known.

Variable P : Event -> bool.

Lemma silent_bind_known {A B} (m : M A) (f : A -> M B) :
  silent P m ->
  (forall a, (exists h, outcome m h = Ok a) -> silent P (f a)) ->
  silent P (bind m f).
Proof.
  intros Hm Hf h. rewrite bind_emitted.
  destruct (outcome m h) as [a|e] eqn:E; [|apply Hm].
  rewrite filter_app, Hm. apply Hf. eauto.
Qed.

Lemma in_order_after_silent_known {A B} (l : list Event) (m : M A)
  (f : A -> M B) :
  silent P m ->
  (forall a, (exists h, outcome m h = Ok a) -> in_order P l (f a)) ->
  in_order P l (bind m f).
Proof.
  intros Hm Hf h. rewrite bind_emitted.
  destruct (outcome m h) as [a|e] eqn:E.
  - rewrite filter_app, Hm. apply Hf. eauto.
  - exists 0. now rewrite Hm.
Qed.

Lemma log_titles_silent (titles : list (option string)) :
  (forall line, P (Log line) = false) ->
  forall i, silent P (StealthTest.log_titles i titles).
Proof.
  intros Hl. induction titles as [|t rest IH]; intros i; cbn [StealthTest.log_titles].
  - apply silent_ret.
  - apply silent_bind; [|intros; apply IH].
    destruct (truthy t); [apply silent_emit, Hl | apply silent_ret].
Qed.

End Known.

Section Field.

Import StealthTest.

(** X16. On a page that has the text area of the search field, the search
    test never asks for the input field, and all it ever types is the search
    query, once, into the text area. *)
Theorem search_prefers_textarea :
  forall (W : World) (h : Trace),
    (forall h', w_query W h' textarea_q = Ok true) ->
    filter (asks_for input_q) (emitted (testGoogleSearch W) h) = [] /\
    exists k : nat,
      filter is_type (emitted (testGoogleSearch W) h) =
        firstn k [Req (TypeText textarea_q searchQuery (Some 100%N))].
Proof.
  intros W h Ht.
  assert (Hchoice : forall x,
    (exists h',
       outcome
         (has_textarea <- query W textarea_q ;;
          if has_textarea then ret textarea_q
          else
            has_input <- query W input_q ;;
            if has_input then ret input_q
            else throw (ErrorObj "Error" "Could not find Google search input"))
         h' = Ok x) ->
    x = textarea_q).
  { intros x [h' Hx]. rewrite bind_outcome in Hx.
    unfold outcome at 1, query, request in Hx. cbn [fst] in Hx.
    rewrite Ht in Hx. unfold outcome, ret in Hx. cbn [fst] in Hx.
    congruence. }
  split.
  - assert (S : silent (asks_for input_q) (testGoogleSearch W)); [|apply S].
    unfold testGoogleSearch.
    apply silent_bind; [quiet | intros].
    apply silent_try_catch; [|intros; quiet].
    unfold search. cbv zeta. fold textarea_q. fold input_q.
    do 2 (apply silent_bind; [quiet | intros]).
    apply silent_bind_known.
    + apply silent_bind_known; [quiet|].
      intros b [h' Hb]. unfold outcome, query, request in Hb. cbn [fst] in Hb.
      rewrite Ht in Hb. injection Hb as <-. quiet.
    + intros sel _. unfold submit, visit_first_result.
      quiet; apply log_titles_silent; reflexivity.
  - assert (S : in_order is_type
                  [Req (TypeText textarea_q searchQuery (Some 100%N))]
                  (testGoogleSearch W)); [|apply S].
    unfold testGoogleSearch.
    apply in_order_after_silent; [quiet | intros].
    apply in_order_try_catch; [|intros; quiet].
    unfold search. cbv zeta. fold textarea_q. fold input_q.
    do 2 (apply in_order_after_silent; [quiet | intros]).
    apply in_order_after_silent_known; [quiet|].
    intros sel Hsel. apply Hchoice in Hsel. subst sel.
    apply in_order_after_silent; [quiet | intros].
    apply in_order_request; [reflexivity | intros].
    apply in_order_silent. unfold submit, visit_first_result.
    quiet; apply log_titles_silent; reflexivity.
Qed.

Lemma search_prefers_textarea_witness :
  filter (asks_for input_q) (emitted (testGoogleSearch with_textarea) []) = [] /\
  exists k : nat,
    filter is_type (emitted (testGoogleSearch with_textarea) []) =
      firstn k [Req (TypeText textarea_q searchQuery (Some 100%N))].
Proof.
  apply (search_prefers_textarea with_textarea []). reflexivity.
Defined.

End Field.

Section Titles.

Import StealthTest.

Lemma log_titles_lines (titles : list (option string)) :
  forall (i : nat) (h : Trace) (e : Event),
    outcome (log_titles i titles) h = Ok tt /\
    (In e (emitted (log_titles i titles) h) <->
     exists (k : nat) (t : string),
       nth_error titles k = Some (Some t) /\ t <> EmptyString /\
       e = Log (show_Z (Z.of_nat (i + k + 1)) +++ ". " +++ t)).
Proof.
  induction titles as [|t rest IH]; intros i h e; cbn [log_titles].
  - split; [reflexivity|]. split; [intros []|].
    intros (k & t & Hk & _). destruct k; discriminate.
  - rewrite bind_outcome, bind_emitted.
    assert (Hhead : outcome (if truthy t
                             then console_log
                                    (show_Z (Z.of_nat (i + 1)) +++ ". "
                                     +++ match t with
                                         | Some s => s
                                         | None => EmptyString
                                         end)
                             else ret tt) h = Ok tt)
      by (destruct (truthy t); reflexivity).
    rewrite Hhead.
    match goal with |- context [outcome (log_titles (S i) rest) ?x] =>
      destruct (IH (S i) x e) as [Ho Hin] end.
    split; [exact Ho|].
    rewrite in_app_iff, Hin. split.
    + intros [Hhd|(k & t' & Hk & Ht & ->)].
      * destruct t as [[|c t]|]; cbn [truthy] in Hhd;
          try (destruct Hhd; fail).
        destruct Hhd as [<-|[]].
        exists 0, (String c t). rewrite Nat.add_0_r.
        repeat split; discriminate.
      * exists (S k), t'. repeat split; try assumption.
        do 2 f_equal. f_equal. lia.
    + intros (k & t' & Hk & Ht & ->). destruct k as [|k].
      * left. cbn [nth_error] in Hk. injection Hk as ->.
        destruct t' as [|c t']; [congruence|]. cbn [truthy].
        left. rewrite Nat.add_0_r. reflexivity.
      * right. exists k, t'. repeat split; try assumption.
        do 2 f_equal. f_equal. lia.
Qed.

Lemma nth_error_firstn {A} (n : nat) (l : list A) (k : nat) (x : A) :
  nth_error (firstn n l) k = Some x <-> k < n /\ nth_error l k = Some x.
Proof.
  revert l k. induction n as [|n IH]; intros l k; cbn [firstn].
  - split; [destruct k; discriminate | intros [H _]; lia].
  - destruct l as [|y l]; [split; [destruct k; discriminate|];
                           intros [_ H]; destruct k; discriminate|].
    destruct k as [|k]; cbn [nth_error].
    + split; [intros H; split; [lia | exact H] | intros [_ H]; exact H].
    + rewrite IH. split; intros [H1 H2]; split; try assumption; lia.
Qed.

(** X17. Of the headings the page reports, the search test prints those
    among the first five that have a text, each under the number of its
    place: the heading at place [k], counted from 0, is printed as
    [k + 1], so that a heading without text leaves a gap in the numbers.
    Printing never fails. *)
Theorem top_titles_keep_their_numbers :
  forall (h3 : list (option string)) (h : Trace) (e : Event),
    outcome (log_titles 0 (firstn 5 h3)) h = Ok tt /\
    (In e (emitted (log_titles 0 (firstn 5 h3)) h) <->
     exists (k : nat) (t : string),
       k < 5 /\ nth_error h3 k = Some (Some t) /\ t <> EmptyString /\
       e = Log (show_Z (Z.of_nat (k + 1)) +++ ". " +++ t)).
Proof.
  intros h3 h e.
  destruct (log_titles_lines (firstn 5 h3) 0 h e) as [Ho Hin].
  split; [exact Ho|]. rewrite Hin. split.
  - intros (k & t & Hk & Ht & ->). apply nth_error_firstn in Hk as [Hlt Hk].
    exists k, t. repeat split; assumption.
  - intros (k & t & Hlt & Hk & Ht & ->).
    exists k, t. repeat split; try assumption.
    apply nth_error_firstn. split; assumption.
Qed.

Lemma top_titles_keep_their_numbers_witness :
  outcome (log_titles 0 (firstn 5 [Some "A"; None; Some "B"])) [] = Ok tt /\
  (In (Log "3. B")
      (emitted (log_titles 0 (firstn 5 [Some "A"; None; Some "B"])) []) <->
   exists (k : nat) (t : string),
     k < 5 /\ nth_error [Some "A"; None; Some "B"] k = Some (Some t) /\
     t <> EmptyString /\
     Log "3. B" = Log (show_Z (Z.of_nat (k + 1)) +++ ". " +++ t)).
Proof.
  apply (top_titles_keep_their_numbers [Some "A"; None; Some "B"] []
           (Log "3. B")).
Defined.

(** X18. Opening the first result has no guard on its navigation wait:
    when that wait fails, the step fails and nothing of the visit (pause,
    title, screenshot, scrolling, going back) is done. The step fails with
    the error of the wait, when the wait is over, if the click succeeds or
    fails later than the wait; it fails with the error of the click, when
    the click is over, if the click fails before the wait does. *)
Theorem first_result_needs_navigation :
  forall (W : World) (h : Trace) (e : JsError),
    let nav := WaitForNavigation None (Some 30000%N) in
    let click_result := w_do W (h ++ [Req nav]) ElementClick in
    let click_time := w_took W (h ++ [Req nav]) ElementClick in
    w_do W h nav = Throw e ->
    exists (r : JsError) (t : N),
      visit_first_result W h =
        (Throw r, [Req nav; Req ElementClick; Elapsed t]) /\
      (click_result = Ok tt -> r = e /\ t = w_took W h nav) /\
      (forall e', click_result = Throw e' ->
                  (w_took W h nav < click_time)%N ->
                  r = e /\ t = w_took W h nav) /\
      (forall e', click_result = Throw e' ->
                  (click_time < w_took W h nav)%N ->
                  r = e' /\ t = click_time).
Proof.
  intros W h e nav click_result click_time H.
  subst click_result click_time.
  unfold visit_first_result, bind, start, await. fold nav. rewrite H.
  cbn [app].
  destruct (w_do W (h ++ [Req nav]) ElementClick) as [[]|e'] eqn:Ec.
  - exists e, (w_took W h nav). split; [reflexivity|].
    split; [intros _; split; reflexivity|].
    split; intros e' He'; discriminate.
  - cbn [all2 settles_with rank delay].
    destruct (N.ltb_spec (N.succ (w_took W (h ++ [Req nav]) ElementClick))
                         (N.succ (w_took W h nav))) as [Hlt|Hge].
    + exists e', (w_took W (h ++ [Req nav]) ElementClick).
      split; [reflexivity|]. split; [discriminate|].
      split; intros e'' He'' Ht; injection He'' as <-.
      * lia.
      * split; reflexivity.
    + exists e, (w_took W h nav).
      split; [reflexivity|]. split; [discriminate|].
      split; intros e'' He'' Ht; injection He'' as <-.
      * split; reflexivity.
      * lia.
Qed.

Lemma first_result_needs_navigation_witness :
  exists (r : JsError) (t : N),
    visit_first_result detached_link [] =
      (Throw r,
       [Req (WaitForNavigation None (Some 30000%N)); Req ElementClick;
        Elapsed t]) /\
    (w_do detached_link ([] ++ [Req (WaitForNavigation None (Some 30000%N))])
       ElementClick = Ok tt ->
     r = ErrorObj "TimeoutError" "Navigation timeout of 30000 ms exceeded" /\
     t = w_took detached_link [] (WaitForNavigation None (Some 30000%N))) /\
    (forall e',
       w_do detached_link ([] ++ [Req (WaitForNavigation None (Some 30000%N))])
         ElementClick = Throw e' ->
       (w_took detached_link [] (WaitForNavigation None (Some 30000%N))
        < w_took detached_link
            ([] ++ [Req (WaitForNavigation None (Some 30000%N))]) ElementClick)%N ->
       r = ErrorObj "TimeoutError" "Navigation timeout of 30000 ms exceeded" /\
       t = w_took detached_link [] (WaitForNavigation None (Some 30000%N))) /\
    (forall e',
       w_do detached_link ([] ++ [Req (WaitForNavigation None (Some 30000%N))])
         ElementClick = Throw e' ->
       (w_took detached_link
          ([] ++ [Req (WaitForNavigation None (Some 30000%N))]) ElementClick
        < w_took detached_link [] (WaitForNavigation None (Some 30000%N)))%N ->
       r = e' /\
       t = w_took detached_link
             ([] ++ [Req (WaitForNavigation None (Some 30000%N))]) ElementClick).
Proof.
  apply (first_result_needs_navigation detached_link []). reflexivity.
Defined.

(** The run of the witness: the link is gone, the click fails at once and
    its error is the one the step fails with, 30 seconds before the
    navigation wait runs out of time. *)
Lemma first_result_link_gone :
  visit_first_result detached_link [] =
    (Throw (ErrorObj "Error" "Node is detached from document"),
     [Req (WaitForNavigation None (Some 30000%N)); Req ElementClick;
      Elapsed 0]) /\
  visit_first_result no_navigation [] =
    (Throw (ErrorObj "TimeoutError" "Navigation timeout of 30000 ms exceeded"),
     [Req (WaitForNavigation None (Some 30000%N)); Req ElementClick;
      Elapsed 30000]).
Proof. split; vm_compute; reflexivity. Qed.

End Titles.

(** ** The utilities *)

Section Utilities.

Import Utils.

Lemma created_In (p : string) (h : Trace) :
  created p h = true <-> exists b, In (Req (MkdirSync p b)) h.
Proof.
  induction h as [|e h IH]; simpl.
  - split; [discriminate | intros [b []]].
  - destruct e as [| | |c|]; try (rewrite IH; split;
      [intros [b Hb]; exists b; now right
      |intros [b [Hb|Hb]]; [discriminate | exists b; exact Hb]]).
    destruct c; try (rewrite IH; split;
      [intros [b Hb]; exists b; now right
      |intros [b [Hb|Hb]]; [discriminate | exists b; exact Hb]]).
    rewrite orb_true_iff, IH, String.eqb_eq. split.
    + intros [->|[b Hb]]; [exists recursive; now left | exists b; now right].
    + intros [b [Hb|Hb]]; [left; congruence | right; exists b; exact Hb].
Qed.

Lemma fresh_disk_remembers : remembers fresh_disk.
Proof.
  intros h p b H. apply created_In. exists b. exact H.
Qed.

Lemma ensureDirectoryExists_run (W : World) (dirPath : string) (h : Trace) :
  let fullPath :=
    if path_isAbsolute dirPath then dirPath
    else path_join (w_cwd W) dirPath in
  ensureDirectoryExists W dirPath h =
    if w_exists W h fullPath then (Ok tt, [Req (ExistsSync fullPath)])
    else
      match w_do W (h ++ [Req (ExistsSync fullPath)])
              (MkdirSync fullPath true) with
      | Ok _ =>
          (Ok tt,
           [Req (ExistsSync fullPath); Req (MkdirSync fullPath true);
            Log ("Created directory: " +++ fullPath)])
      | Throw e =>
          (Throw e, [Req (ExistsSync fullPath); Req (MkdirSync fullPath true)])
      end.
Proof.
  intros fullPath.
  unfold ensureDirectoryExists, bind, request, ret, perform, request,
    console_log, emit.
  fold fullPath. cbn [app].
  destruct (w_exists W h fullPath); [reflexivity|].
  destruct (w_do W _ (MkdirSync fullPath true)); reflexivity.
Qed.

(** X21. [ensureDirectoryExists] creates nothing when the directory is
    there, and on a file system that remembers what the run created, calling
    it twice in a row creates the directory at most once. *)
Theorem ensureDirectoryExists_creates_once :
  forall (W : World) (dirPath : string) (h : Trace),
    let fullPath :=
      if path_isAbsolute dirPath then dirPath
      else path_join (w_cwd W) dirPath in
    (w_exists W h fullPath = true ->
     ensureDirectoryExists W dirPath h = (Ok tt, [Req (ExistsSync fullPath)]))
    /\
    (remembers W ->
     List.length
       (filter is_mkdir
          (emitted (ensureDirectoryExists W dirPath ;;
                    ensureDirectoryExists W dirPath) h)) <= 1).
Proof.
  intros W dirPath h fullPath. split.
  - intros H. rewrite ensureDirectoryExists_run. fold fullPath. now rewrite H.
  - intros Hrem. rewrite bind_emitted. unfold outcome, emitted.
    rewrite !ensureDirectoryExists_run. fold fullPath.
    destruct (w_exists W h fullPath) eqn:E; cbn [fst snd].
    + destruct (w_exists W (h ++ _) fullPath); cbn [fst snd];
        [simpl; lia|].
      destruct (w_do W ((h ++ _) ++ _) (MkdirSync fullPath true)); simpl; lia.
    + destruct (w_do W (h ++ _) (MkdirSync fullPath true)) eqn:Em;
        cbn [fst snd]; [|simpl; lia].
      rewrite (Hrem _ fullPath true);
        [simpl; lia|].
      apply in_or_app. right. right. left. reflexivity.
Qed.

Lemma ensureDirectoryExists_creates_once_witness :
  List.length
    (filter is_mkdir
       (emitted (ensureDirectoryExists fresh_disk "screenshots" ;;
                 ensureDirectoryExists fresh_disk "screenshots") [])) <= 1.
Proof.
  apply (proj2 (ensureDirectoryExists_creates_once fresh_disk "screenshots" [])).
  exact fresh_disk_remembers.
Defined.

End Utilities.

Section Capture.

Import Utils.

Lemma ensureDirectoryExists_no_screenshot (W : World) (dir : string) (h : Trace) :
  screenshot_paths (emitted (ensureDirectoryExists W dir) h) = [].
Proof.
  unfold emitted. rewrite ensureDirectoryExists_run.
  destruct (w_exists W h _); [reflexivity|].
  destruct (w_do W _ _); reflexivity.
Qed.

Lemma screenshot_paths_app (a b : Trace) :
  screenshot_paths (a ++ b) = screenshot_paths a ++ screenshot_paths b.
Proof.
  induction a as [|[| | |[]|] a IH]; simpl; rewrite ?IH; reflexivity.
Qed.

(** X22. [takeScreenshot] asks for at most one screenshot, always of the
    full page; when it returns a path, that path is the one it asked the
    driver to write, and the line it prints last names it. *)
Theorem takeScreenshot_returns_what_it_wrote :
  forall (W : World) (name dir : string) (h : Trace),
    List.length (screenshot_paths (emitted (takeScreenshot_in W name dir) h))
      <= 1 /\
    (forall p full,
       In (Req (Screenshot p full)) (emitted (takeScreenshot_in W name dir) h) ->
       full = true) /\
    (forall p,
       outcome (takeScreenshot_in W name dir) h = Ok p ->
       screenshot_paths (emitted (takeScreenshot_in W name dir) h) = [p] /\
       exists d,
         emitted (takeScreenshot_in W name dir) h
           = d ++ [Log ("Screenshot saved to: " +++ p)]).
Proof.
  intros W name dir h.
  unfold takeScreenshot_in, outcome, emitted, bind.
  pose proof (ensureDirectoryExists_no_screenshot W dir h) as Hno.
  unfold emitted in Hno.
  assert (Hin : forall p full,
            ~ In (Req (Screenshot p full)) (snd (ensureDirectoryExists W dir h))).
  { intros p full. rewrite ensureDirectoryExists_run.
    destruct (w_exists W h _); [|destruct (w_do W _ _)]; simpl; intuition congruence. }
  destruct (ensureDirectoryExists W dir h) as [[[]|e] d]; cbn [fst snd] in *.
  - unfold request, perform, request, console_log, emit, ret. cbn [fst snd app].
    destruct (w_do W _ (Screenshot _ true)) as [[]|e]; cbn [fst snd app];
      rewrite ?screenshot_paths_app, Hno; cbn [screenshot_paths app List.length].
    + split; [lia|]. split.
      * intros p full Hp. apply in_app_or in Hp as [Hp|Hp];
          [now apply Hin in Hp|].
        simpl in Hp. intuition congruence.
      * intros p Hp. injection Hp as <-. split; [reflexivity|].
        eexists (d ++ [Req DateNow; Req (Screenshot _ true)]).
        rewrite <- app_assoc. reflexivity.
    + split; [lia|]. split.
      * intros p full Hp. apply in_app_or in Hp as [Hp|Hp];
          [now apply Hin in Hp|].
        simpl in Hp. intuition congruence.
      * intros p Hp. discriminate.
  - rewrite Hno. split; [simpl; lia|]. split.
    + intros p full Hp. now apply Hin in Hp.
    + intros p Hp. discriminate.
Qed.

Lemma takeScreenshot_returns_what_it_wrote_witness :
  List.length
    (screenshot_paths (emitted (takeScreenshot_in calm "shot" "screenshots") []))
    <= 1 /\
  (forall p full,
     In (Req (Screenshot p full))
        (emitted (takeScreenshot_in calm "shot" "screenshots") []) ->
     full = true) /\
  (forall p,
     outcome (takeScreenshot_in calm "shot" "screenshots") [] = Ok p ->
     screenshot_paths (emitted (takeScreenshot_in calm "shot" "screenshots") [])
       = [p] /\
     exists d,
       emitted (takeScreenshot_in calm "shot" "screenshots") []
         = d ++ [Log ("Screenshot saved to: " +++ p)]).
Proof.
  apply (takeScreenshot_returns_what_it_wrote calm "shot" "screenshots" []).
Defined.

Lemma takeScreenshot_ok_when_writable (W : World) (name : string) (h : Trace) :
  writable W -> exists p, outcome (takeScreenshot W name) h = Ok p.
Proof.
  intros [Hshot Hmk].
  unfold takeScreenshot, takeScreenshot_in, outcome, bind.
  rewrite ensureDirectoryExists_run.
  destruct (w_exists W h _); [|rewrite Hmk]; cbn [fst snd];
    unfold request, perform, request, console_log, emit, ret;
    cbn [fst snd app]; rewrite Hshot; eexists; reflexivity.
Qed.

(** X19. When screenshots and directories can be written, [testGoogleSearch]
    never throws, whatever fails on the page: an error of the search is
    logged and the error screenshot is taken. *)
Theorem testGoogleSearch_fails_only_through_capture :
  forall (W : World) (h : Trace),
    writable W ->
    outcome (StealthTest.testGoogleSearch W) h = Ok tt.
Proof.
  intros W h Hw. unfold StealthTest.testGoogleSearch.
  rewrite bind_outcome. cbn [outcome console_log emit fst].
  change (fst (?m ?x)) with (outcome m x).
  rewrite try_catch_outcome.
  destruct (outcome (StealthTest.search W) _) as [[]|e]; [reflexivity|].
  rewrite bind_outcome. cbn [outcome console_error emit fst].
  change (fst (?m ?x)) with (outcome m x).
  rewrite bind_outcome.
  match goal with |- context [outcome (takeScreenshot W ?n) ?x] =>
    destruct (takeScreenshot_ok_when_writable W n x Hw) as [p ->] end.
  reflexivity.
Qed.

Lemma testGoogleSearch_fails_only_through_capture_witness :
  outcome (StealthTest.testGoogleSearch page_gone_disk_fine) [] = Ok tt.
Proof.
  apply (testGoogleSearch_fails_only_through_capture page_gone_disk_fine []).
  split; reflexivity.
Defined.

End Capture.

(** ** The session of the stealth test *)

Section StealthSession.

Import StealthTest.

Lemma visit_all_silent (P : Event -> bool) (W : World) (n : nat)
  (sites : list TestSite) :
  (forall n i s, silent P (visit W n i s)) ->
  forall i, silent P (visit_all W n i sites).
Proof.
  intros Hv. induction sites as [|s rest IH]; intros i; cbn [visit_all].
  - apply silent_ret.
  - apply silent_bind; [apply Hv | intros; apply IH].
Qed.

Lemma tour_and_search_no_create (W : World) (sites : list TestSite) (n i : nat) :
  silent is_create (visit_all W n i sites) /\
  silent is_create (testGoogleSearch W).
Proof.
  split.
  - apply visit_all_silent. intros. unfold visit. quiet.
  - unfold testGoogleSearch, search, submit, visit_first_result.
    quiet; apply log_titles_silent; reflexivity.
Qed.

Lemma tour_and_search_no_close (W : World) (sites : list TestSite) (n i : nat) :
  silent is_close (visit_all W n i sites) /\
  silent is_close (testGoogleSearch W).
Proof.
  split.
  - apply visit_all_silent. intros. unfold visit. quiet.
  - unfold testGoogleSearch, search, submit, visit_first_result.
    quiet; apply log_titles_silent; reflexivity.
Qed.

Section Always.

Variable P : Event -> bool.

Lemma always_after_log {A} (l : list Event) (line : string) (k : M A) :
  P (Log line) = false -> always P l k ->
  always P l (console_log line ;; k).
Proof.
  intros Hl Hk h. rewrite bind_emitted.
  cbn [outcome console_log emit fst emitted snd].
  rewrite filter_app. cbn [filter]. rewrite Hl. apply Hk.
Qed.

Lemma always_request {A B} (c : Call) (answer : Trace -> result A)
  (f : A -> M B) :
  P (Req c) = true -> (forall x, silent P (f x)) ->
  always P [Req c] (bind (request c answer) f).
Proof.
  intros Hc Hf h. rewrite bind_emitted.
  change (emitted (request c answer) h) with [Req c].
  destruct (outcome (request c answer) h) as [x|e].
  - rewrite filter_app, Hf, app_nil_r. simpl. now rewrite Hc.
  - simpl. now rewrite Hc.
Qed.

Lemma always_before_silent {A B} (l : list Event) (m : M A) (f : A -> M B) :
  always P l m -> (forall x, silent P (f x)) -> always P l (bind m f).
Proof.
  intros Hm Hf h. rewrite bind_emitted.
  destruct (outcome m h) as [x|e]; [|apply Hm].
  now rewrite filter_app, Hf, app_nil_r.
Qed.

Lemma always_try_catch {A} (l : list Event) (body : M A)
  (handler : JsError -> M A) :
  always P l body -> (forall e, silent P (handler e)) ->
  always P l (try_catch body handler).
Proof.
  intros Hb Hh h. unfold emitted. rewrite try_catch_run.
  destruct (outcome body h) as [x|e]; cbn [snd]; [apply Hb|].
  rewrite filter_app, Hh, app_nil_r. apply Hb.
Qed.

End Always.

(** X14. Whatever happens, a run of the stealth test asks for exactly one
    session, with the proxy and the stealth mode switched on, and closes the
    browser at most once. When the session cannot be provisioned the run
    asks for nothing else: it logs the error and ends. *)
Theorem stealth_run_one_session :
  (forall (W : World) (sites : list TestSite) (h : Trace),
     filter is_create (emitted (main W sites) h)
       = [Req (SessionsCreate (Some true) (Some true))] /\
     List.length (filter is_close (emitted (main W sites) h)) <= 1)
  /\
  (forall (W : World) (sites : list TestSite) (h : Trace) (e : JsError),
     w_session W
       (h ++ [Log "Starting advanced stealth bot detection test...";
              Log "Creating Browserbase session..."]) = Throw e ->
     main W sites h =
       (Ok tt,
        [Log "Starting advanced stealth bot detection test...";
         Log "Creating Browserbase session...";
         Req (SessionsCreate (Some true) (Some true));
         LogErrorObj "An error occurred:" e])).
Proof.
  split.
  - intros W sites h.
    destruct (tour_and_search_no_create W sites (List.length sites) 0)
      as [Tc Sc].
    destruct (tour_and_search_no_close W sites (List.length sites) 0)
      as [Td Sd].
    split.
    + assert (A : always is_create
                    [Req (SessionsCreate (Some true) (Some true))]
                    (main W sites)); [|apply A].
      unfold main.
      apply always_try_catch; [|intros; quiet].
      apply always_after_log; [reflexivity|].
      apply always_before_silent.
      * unfold Utils.createBrowser.
        apply always_after_log; [reflexivity|].
        apply always_request; [reflexivity | intros; quiet].
      * intros.
        do 3 (apply silent_bind; [quiet | intros]).
        apply silent_bind; [apply Tc | intros].
        apply silent_bind; [apply Sc | intros].
        quiet.
    + assert (U : upto is_close 1 (main W sites)); [|apply U].
      unfold main.
      apply (upto_try_catch is_close _ _ 1 0); [|intros; apply silent_upto; quiet].
      do 5 (apply upto_after_silent; [quiet | intros]).
      apply upto_after_silent; [apply Td | intros].
      apply upto_after_silent; [apply Sd | intros].
      apply (upto_bind is_close _ _ 1 0); [|intros; apply silent_upto; quiet].
      intros h'. simpl. lia.
  - intros W sites h e H.
    unfold main, try_catch, bind, console_log, emit, Utils.createBrowser,
      bind, console_log, emit, request, console_error_with.
    cbn [Utils.proxies Utils.stealth Utils.or_true].
    rewrite <- !app_assoc. cbn [app]. rewrite H. reflexivity.
Qed.

Lemma stealth_run_one_session_witness :
  main provisioning_fails testSites [] =
    (Ok tt,
     [Log "Starting advanced stealth bot detection test...";
      Log "Creating Browserbase session...";
      Req (SessionsCreate (Some true) (Some true));
      LogErrorObj "An error occurred:" (ErrorObj "Error" "401 Unauthorized")]).
Proof.
  apply (proj2 stealth_run_one_session provisioning_fails testSites []).
  reflexivity.
Defined.

End StealthSession.

(** ** The form is filled in before it is submitted *)

Section Filled.

Import LoginTest.

Lemma silent_weaken {A} (P Q : Event -> bool) (m : M A) :
  (forall e, P e = true -> Q e = true) -> silent Q m -> silent P m.
Proof.
  intros HPQ HQ h. specialize (HQ h).
  induction (emitted m h) as [|e l IH]; [reflexivity|].
  simpl in *. destruct (Q e) eqn:E; [discriminate|].
  destruct (P e) eqn:E'; [apply HPQ in E'; congruence | now apply IH].
Qed.

Lemma exactly_perform (P : Event -> bool) (W : World) (c : Call) :
  P (Req c) = true -> exactly P 1 (perform W c).
Proof.
  intros H h a _. unfold emitted, perform, request. simpl. now rewrite H.
Qed.

Lemma fill_types_both (W : World) (s : LoginSite) (h : Trace) :
  outcome (fill W s) h = Ok tt ->
  filter is_type (emitted (fill W s) h) =
    [Req (TypeText (usernameSelector s) (username (credentials s)) None);
     Req (TypeText (passwordSelector s) (password (credentials s)) None)].
Proof.
  intros H.
  assert (Hord : in_order is_type
            [Req (TypeText (usernameSelector s) (username (credentials s)) None);
             Req (TypeText (passwordSelector s) (password (credentials s)) None)]
            (fill W s)).
  { unfold fill.
    do 6 (apply in_order_after_silent; [quiet | intros]).
    apply in_order_request; [reflexivity | intros].
    do 2 (apply in_order_after_silent; [quiet | intros]).
    apply in_order_before_silent; [|intros; quiet].
    intros h'. exists 1. reflexivity. }
  assert (Hcount : exactly is_type 2 (fill W s)).
  { unfold fill. eapply exactly_eq.
    - do 6 (eapply exactly_bind; [apply exactly_silent; quiet | intros]).
      eapply exactly_bind; [apply exactly_perform; reflexivity | intros].
      do 2 (eapply exactly_bind; [apply exactly_silent; quiet | intros]).
      eapply exactly_bind; [apply exactly_perform; reflexivity | intros].
      apply exactly_silent; quiet.
    - reflexivity. }
  destruct (Hord h) as [k Hk]. specialize (Hcount h tt H).
  rewrite Hk in *.
  destruct k as [|[|k]]; simpl in Hcount; try discriminate.
  cbn [firstn]. now rewrite firstn_nil.
Qed.

Lemma fill_no_click (W : World) (s : LoginSite) : silent is_click (fill W s).
Proof. unfold fill. quiet. Qed.

Lemma after_fill_no_type (W : World) (s : LoginSite) :
  silent is_type
    (console_log "Submitting login form..." ;; submit W s ;; conclude W s).
Proof.
  unfold submit, conclude, checkLoginResult, signals, fallback. quiet.
Qed.

Lemma attempt_click_after_fill (W : World) (s : LoginSite) (h : Trace) :
  filter is_click (emitted (attempt W s) h) <> [] ->
  filter is_type (emitted (attempt W s) h) =
    [Req (TypeText (usernameSelector s) (username (credentials s)) None);
     Req (TypeText (passwordSelector s) (password (credentials s)) None)].
Proof.
  unfold attempt. rewrite bind_emitted.
  destruct (outcome (fill W s) h) as [[]|e] eqn:E.
  - intros _. rewrite filter_app, (fill_types_both W s h E).
    now rewrite after_fill_no_type.
  - rewrite fill_no_click. congruence.
Qed.

Lemma attempt_clicks (W : World) (s : LoginSite) (h : Trace) :
  filter is_click (emitted (attempt W s) h) = [] \/
  filter is_click (emitted (attempt W s) h) = [Req (Click (submitSelector s))].
Proof.
  unfold attempt. rewrite bind_emitted.
  destruct (outcome (fill W s) h) as [[]|e];
    rewrite ?filter_app, fill_no_click; [|now left].
  rewrite bind_emitted. cbn [outcome console_log emit fst emitted snd].
  change (fst (?m ?x)) with (outcome m x).
  change (snd (?m ?x)) with (emitted m x).
  rewrite bind_emitted, submit_emitted.
  assert (Sc : silent is_click (conclude W s))
    by (unfold conclude, checkLoginResult, signals, fallback; quiet).
  destruct (outcome (submit W s) _); rewrite ?filter_app, ?Sc; now right.
Qed.

Lemma focused_after_silent {A B} (W : World) (s : LoginSite) (m : M A)
  (f : A -> M B) :
  silent is_type_or_click m -> (forall x, focused W s (f x)) ->
  focused W s (bind m f).
Proof.
  intros Hm Hf h.
  destruct (outcome m h) as [x|e] eqn:E.
  - destruct (Hf x (h ++ emitted m h)) as [Hnone|[h' Hsome]].
    + left. intros P HP. rewrite bind_emitted, E, filter_app.
      rewrite (silent_weaken P _ m HP Hm). now apply Hnone.
    + right. exists h'. intros P HP. rewrite bind_emitted, E, filter_app.
      rewrite (silent_weaken P _ m HP Hm). now apply Hsome.
  - left. intros P HP. rewrite bind_emitted, E.
    apply (silent_weaken P _ m HP Hm).
Qed.

Lemma testLogin_focused (W : World) (s : LoginSite) :
  focused W s (testLogin W s).
Proof.
  unfold testLogin.
  repeat (apply focused_after_silent; [quiet | intros]).
  intros h. right. exists h. intros P HP.
  unfold emitted. rewrite try_finally_run. cbn [snd].
  rewrite filter_app.
  assert (Sr : silent P (release W))
    by (apply (silent_weaken P is_type_or_click); [exact HP|];
        unfold release; quiet).
  rewrite Sr, app_nil_r. unfold emitted. rewrite try_catch_run.
  destruct (outcome (attempt W s) h) as [r|e]; cbn [snd]; [reflexivity|].
  rewrite filter_app.
  assert (Sc : silent P (recover W s e))
    by (apply (silent_weaken P is_type_or_click); [exact HP|];
        unfold recover; quiet).
  now rewrite Sc, app_nil_r.
Qed.

(** X10. On a site without a [beforeLogin] callback, [testLogin] never
    submits a form it has not filled in: in a run that clicks, the one click
    is on the submit button, and the user name and the password have been
    typed, in this order, and nothing else. *)
Theorem testLogin_clicks_only_filled_form :
  forall (W : World) (s : LoginSite) (h : Trace),
    beforeLogin s = None ->
    filter is_click (emitted (testLogin W s) h) <> [] ->
    filter is_click (emitted (testLogin W s) h)
      = [Req (Click (submitSelector s))] /\
    filter is_type (emitted (testLogin W s) h) =
      [Req (TypeText (usernameSelector s) (username (credentials s)) None);
       Req (TypeText (passwordSelector s) (password (credentials s)) None)].
Proof.
  intros W s h _ Hclick.
  assert (Hc : forall e, is_click e = true -> is_type_or_click e = true)
    by (intros e He; unfold is_type_or_click; rewrite He; apply orb_true_r).
  assert (Ht : forall e, is_type e = true -> is_type_or_click e = true)
    by (intros e He; unfold is_type_or_click; now rewrite He).
  destruct (testLogin_focused W s h) as [Hnone|[h' Hsome]].
  - elim Hclick. now apply Hnone.
  - rewrite (Hsome is_click Hc) in *. rewrite (Hsome is_type Ht).
    split.
    + destruct (attempt_clicks W s h') as [E|E]; [congruence | exact E].
    + now apply attempt_click_after_fill.
Qed.

Lemma testLogin_clicks_only_filled_form_witness :
  filter is_click (emitted (testLogin calm Demo) [])
    = [Req (Click (submitSelector Demo))] /\
  filter is_type (emitted (testLogin calm Demo) []) =
    [Req (TypeText (usernameSelector Demo) (username (credentials Demo)) None);
     Req (TypeText (passwordSelector Demo) (password (credentials Demo)) None)].
Proof.
  apply (testLogin_clicks_only_filled_form calm Demo []).
  - reflexivity.
  - vm_compute. discriminate.
Defined.

End Filled.

(** ** The final screenshot *)

Section FinalShot.

Import LoginTest.

Lemma bind_ok_emitted {A B} (m : M A) (f : A -> M B) (h : Trace) (b : B) :
  outcome (bind m f) h = Ok b ->
  exists a,
    outcome m h = Ok a /\
    outcome (f a) (h ++ emitted m h) = Ok b /\
    emitted (bind m f) h = emitted m h ++ emitted (f a) (h ++ emitted m h).
Proof.
  intros H. rewrite bind_emitted. rewrite bind_outcome in H.
  destruct (outcome m h) as [a|e]; [eauto | discriminate].
Qed.

Lemma conclude_takes_final (W : World) (s : LoginSite) (h : Trace)
  (r : VerificationResult) :
  outcome (conclude W s) h = Ok r ->
  In (screenshotPath_of W s) (screenshot_paths (emitted (conclude W s) h)).
Proof.
  unfold conclude. intros H.
  apply bind_ok_emitted in H as ([] & _ & H & ->).
  apply bind_ok_emitted in H as (v & _ & H & ->).
  apply bind_ok_emitted in H as ([] & _ & H & ->).
  rewrite !screenshot_paths_app. apply in_or_app. right.
  apply in_or_app. right. apply in_or_app. left.
  change (In (screenshotPath_of W s) [screenshotPath_of W s]).
  left. reflexivity.
Qed.

Lemma guarded_part_takes_final (W : World) (s : LoginSite) (h : Trace) :
  In (screenshotPath_of W s)
     (screenshot_paths (emitted (try_catch (attempt W s) (recover W s)) h)).
Proof.
  unfold emitted. rewrite try_catch_run.
  destruct (outcome (attempt W s) h) as [r|e] eqn:E; cbn [snd].
  - unfold attempt in E |- *.
    apply bind_ok_emitted in E as ([] & _ & E & ->).
    apply bind_ok_emitted in E as ([] & _ & E & ->).
    apply bind_ok_emitted in E as ([] & _ & E & ->).
    rewrite !screenshot_paths_app.
    do 3 (apply in_or_app; right). eapply conclude_takes_final; eassumption.
  - rewrite screenshot_paths_app. apply in_or_app. right.
    unfold recover. rewrite bind_emitted.
    cbn [outcome console_error emit fst emitted snd].
    change (snd (?m ?x)) with (emitted m x).
    rewrite bind_emitted, screenshot_paths_app.
    assert (Hshot : forall h',
      In (screenshotPath_of W s)
         (screenshot_paths
            (emitted
               (try_catch (perform W (Screenshot (screenshotPath_of W s) false))
                  (fun _ => console_error "Failed to take error screenshot"))
               h'))).
    { intros h'. unfold emitted. rewrite try_catch_run.
      change (emitted (perform W (Screenshot (screenshotPath_of W s) false)) h')
        with [Req (Screenshot (screenshotPath_of W s) false)].
      destruct (outcome (perform W _) h'); cbn [snd];
        [|rewrite screenshot_paths_app; apply in_or_app; left];
        cbn [screenshot_paths]; left; reflexivity. }
    apply in_or_app. right.
    destruct (outcome (try_catch _ _) _);
      [rewrite screenshot_paths_app; apply in_or_app; left|]; apply Hshot.
Qed.

Section Reaches.

Variables (B : Type) (P : Event -> bool) (core : M B).

Lemma reaches_after_silent {A C} (m : M A) (f : A -> M C) :
  silent P m -> (forall x, reaches P core (f x)) ->
  reaches P core (bind m f).
Proof.
  intros Hm Hf h. rewrite bind_emitted.
  destruct (outcome m h) as [x|e]; [|now rewrite Hm].
  rewrite filter_app, Hm. intros H.
  destruct (Hf x _ H) as (d & h' & ->).
  exists (emitted m h ++ d), h'. now rewrite app_assoc.
Qed.

Lemma reaches_itself : reaches P core core.
Proof. intros h _. exists [], h. reflexivity. Qed.

End Reaches.

(** X11. A login test that got as far as closing the browser has asked for
    the final screenshot of the site, whether the steps before succeeded or
    not; and the [try] with its [catch] asks for it in every case. *)
Theorem closed_test_took_final_screenshot :
  forall (W : World) (s : LoginSite) (h : Trace),
    In (screenshotPath_of W s)
       (screenshot_paths (emitted (try_catch (attempt W s) (recover W s)) h)) /\
    (In (Req BrowserClose) (emitted (testLogin W s) h) ->
     In (screenshotPath_of W s) (screenshot_paths (emitted (testLogin W s) h))).
Proof.
  intros W s h. split; [apply guarded_part_takes_final|].
  intros Hclose.
  assert (R : reaches is_close
                (try_finally (try_catch (attempt W s) (recover W s)) (release W))
                (testLogin W s)).
  { unfold testLogin.
    repeat (apply reaches_after_silent; [quiet | intros]).
    apply reaches_itself. }
  destruct (R h) as (d & h' & E).
  - intros Hnil.
    assert (Hin : In (Req BrowserClose)
                     (filter is_close (emitted (testLogin W s) h)))
      by (apply filter_In; split; [exact Hclose | reflexivity]).
    rewrite Hnil in Hin. destruct Hin.
  - rewrite E, screenshot_paths_app. apply in_or_app. right.
    unfold emitted at 1. rewrite try_finally_run. cbn [snd].
    rewrite screenshot_paths_app. apply in_or_app. left.
    apply guarded_part_takes_final.
Qed.

Lemma closed_test_took_final_screenshot_witness :
  In (screenshotPath_of page_closed Demo)
     (screenshot_paths (emitted (testLogin page_closed Demo) [])).
Proof.
  apply (proj2 (closed_test_took_final_screenshot page_closed Demo [])).
  vm_compute. repeat (try (left; reflexivity); right).
Defined.

(** X12. The login verifier prints its closing lines in every run, also
    when every site failed: whatever the sites and the world, the run ends
    without an error, begins with the opening line and ends with the two
    closing lines. *)
Theorem login_run_always_prints_completion :
  forall (W : World) (sites : list LoginSite) (h : Trace),
    exists d : Trace,
      main W sites h =
        (Ok tt,
         Log "Starting login verification tests..." :: d ++
         [Log (LF +++ "✅ Login verification tests completed!");
          Log "Check the screenshots directory for results."]).
Proof.
  intros W sites h. unfold main.
  exists (emitted (for_of sites (iteration W))
            (h ++ [Log "Starting login verification tests..."])).
  destruct (for_of_iterations W sites
              (h ++ [Log "Starting login verification tests..."])) as [Ho _].
  unfold bind at 1. cbn [console_log emit].
  rewrite bind_run, Ho. reflexivity.
Qed.

End FinalShot.

Section Provisioner.

Import Utils.

(** X20. [createBrowser] asks for exactly one session, with [proxies] and
    [stealth] as given and [true] when they are not given, and reads no
    other option; when the session cannot be provisioned it throws that
    error without connecting, and otherwise it connects once, to the
    endpoint of the session it got, and ends as the connection ends. *)
Theorem createBrowser_provisions_then_connects :
  forall (W : World) (o : BrowserOptions) (h : Trace),
    let create :=
      SessionsCreate (Some (or_true (proxies o))) (Some (or_true (stealth o))) in
    let h1 := h ++ [Log "Creating Browserbase session..."] in
    filter is_create (emitted (createBrowser W o) h) = [Req create] /\
    (forall e, w_session W h1 = Throw e ->
       createBrowser W o h =
         (Throw e, [Log "Creating Browserbase session..."; Req create])) /\
    (forall session, w_session W h1 = Ok session ->
       filter is_connect (emitted (createBrowser W o) h)
         = [Req (PuppeteerConnect (connectUrl session))] /\
       exists h2,
         outcome (createBrowser W o) h
           = w_do W h2 (PuppeteerConnect (connectUrl session))) /\
    (forall o' : BrowserOptions,
       or_true (proxies o) = or_true (proxies o') ->
       or_true (stealth o) = or_true (stealth o') ->
       createBrowser W o h = createBrowser W o' h).
Proof.
  intros W o h create h1. split; [|split; [|split]].
  - assert (A : always is_create [Req create] (createBrowser W o)); [|apply A].
    unfold createBrowser.
    apply always_after_log; [reflexivity|].
    apply always_request; [reflexivity | intros; quiet].
  - intros e He. unfold createBrowser, bind, console_log, emit, request.
    fold create. fold h1. rewrite He. reflexivity.
  - intros session Hs. unfold createBrowser, emitted, outcome, bind,
      console_log, emit, request, perform, request.
    fold create. fold h1. rewrite Hs. cbn [fst snd app].
    split.
    + destruct (w_do W _ (PuppeteerConnect (connectUrl session))); reflexivity.
    + match goal with
      | |- context [w_do W ?x (PuppeteerConnect (connectUrl session))] =>
          exists x; destruct (w_do W x _) as [[]|e]; reflexivity
      end.
  - intros o' Hp Hst. unfold createBrowser. now rewrite Hp, Hst.
Qed.

Lemma createBrowser_provisions_then_connects_witness :
  createBrowser provisioning_fails
    {| proxies := None; headless := None; userAgent := None;
       stealth := Some false; timeout := None |} [] =
    (Throw (ErrorObj "Error" "401 Unauthorized"),
     [Log "Creating Browserbase session...";
      Req (SessionsCreate (Some true) (Some false))]).
Proof.
  apply (proj1 (proj2 (createBrowser_provisions_then_connects
                         provisioning_fails
                         {| proxies := None; headless := None;
                            userAgent := None; stealth := Some false;
                            timeout := None |} []))).
  reflexivity.
Defined.

End Provisioner.
